(** * SkeletonSledController: the numerical engine, embedded in Rocq

    A shallow embedding of the calibration helper ([Cal_Math.py]) and of
    the weight-distribution engine and tray optimizer ([Alg_Math.py]).

    Numbers.  Python's [float] and [int] arithmetic is modelled by the
    real numbers [R]: every operation is exact, and comparisons are the
    decidable order of [R].  Rounding, infinities and NaN are outside the
    model.  Integers that the code uses as indices or as arguments of
    [range] stay integers ([Z], [nat]).

    Containers.  Python dicts with string keys are [gmap string _];
    Python lists are [list]; tuples [(x, y)] are pairs.

    Failure.  A raised Python exception is a value of [exn]; functions
    that may raise return [result]. *)

From Stdlib Require Import Reals Lra Lia ZArith String List.
From Stdlib Require Import Sorting.Permutation Sorting.Sorted.
From stdpp Require Import base gmap list strings.

#[local] Open Scope R_scope.

(** ** Python built-ins used by the engine *)

Module Py.

(** [sum(xs)]: left-to-right accumulation from [0]. *)
Definition sum (xs : list R) : R := fold_left Rplus xs 0.

(** [max(a, b)]: the first argument unless the second is strictly larger. *)
Definition max2 (a b : R) : R := if Rlt_dec a b then b else a.

(** [max(xs)] on a non-empty list; [None] stands for the [ValueError] on
    an empty one. *)
Definition max_list (xs : list R) : option R :=
  match xs with
  | [] => None
  | x :: xs' => Some (fold_left max2 xs' x)
  end.

(** [min(a, b)] and [min(xs)], likewise. *)
Definition min2 (a b : R) : R := if Rlt_dec b a then b else a.

Definition min_list (xs : list R) : option R :=
  match xs with
  | [] => None
  | x :: xs' => Some (fold_left min2 xs' x)
  end.

(** Boolean comparisons, as the [if] tests of the source. *)
Definition ltb (a b : R) : bool := if Rlt_dec a b then true else false.
Definition leb (a b : R) : bool := if Rle_dec a b then true else false.
Definition eqb (a b : R) : bool := if Req_dec_T a b then true else false.

(** Exceptions the modelled code can raise. *)
Inductive exn : Type :=
| KeyError (key : string)
| TypeError
| IndexError.

Inductive result (A : Type) : Type :=
| Ok (a : A)
| Raise (e : exn).
Arguments Ok {A} a.
Arguments Raise {A} e.

#[export] Instance result_ret : MRet result := λ A a, Ok a.

#[export] Instance result_bind : MBind result := λ A B k m,
  match m with
  | Ok a => k a
  | Raise e => Raise e
  end.

(** [d[key]] on a dict: [KeyError] when the key is absent. *)
Definition getitem {V} (d : gmap string V) (key : string) : result V :=
  match d !! key with
  | Some v => Ok v
  | None => Raise (KeyError key)
  end.

(** A number stored in a settings dict: Python keeps [int] and [float]
    apart, and [range] accepts only the former. *)
Inductive num : Type :=
| Int (z : Z)
| Float (r : R).

Definition to_R (n : num) : R :=
  match n with
  | Int z => IZR z
  | Float r => r
  end.

(** [range(n)] as the list of its indices. *)
Definition range (n : num) : result (list nat) :=
  match n with
  | Int z => Ok (seq 0 (Z.to_nat z))
  | Float _ => Raise TypeError
  end.

End Py.

Export Py.

(** ** Cal_Math.py *)

Module Cal_Math.

(** One entry of [CalibrationData.calibrations]: a dict read with
    [cal.get("slope", 1.0)] and [cal.get("intercept", 0.0)]. *)
Record calibration : Type := {
  slope : option R;
  intercept : option R;
  unit : string;
  calibration_points : list (R * R * string)
}.

Record CalibrationData : Type := {
  calibrations : list calibration;
  loaded : bool
}.

(** [CalibrationData.__init__]: four identity calibrations. *)
Definition default_calibration : calibration :=
  {| slope := Some 1; intercept := Some 0; unit := "g";
     calibration_points := [] |}.

Definition init : CalibrationData :=
  {| calibrations := replicate 4 default_calibration; loaded := false |}.

(** [CalibrationData.convert_unit]. *)
Definition convert_unit (value : R) (from_unit to_unit : string) : R :=
  let value :=
    if negb (from_unit =? "g")%string then
      if (from_unit =? "kg")%string then value * 1000
      else if (from_unit =? "oz")%string then value * 28.3495
      else if ((from_unit =? "lb") || (from_unit =? "lbs"))%string
           then value * 453.592
      else value
    else value in
  if (to_unit =? "g")%string then value
  else if (to_unit =? "kg")%string then value / 1000
  else if (to_unit =? "oz")%string then value * 0.03527396195
  else if ((to_unit =? "lb") || (to_unit =? "lbs"))%string
       then value * 0.00220462262
  else value.

(** [CalibrationData.apply]: [enumerate(values)] is carried as the running
    index [i]. *)
Fixpoint apply_from (cals : list calibration) (i : nat) (values : list R)
    (unit : string) : list R :=
  match values with
  | [] => []
  | value :: rest =>
      let calibrated_value :=
        match cals !! i with
        | Some cal =>
            default 1 (slope cal) * value + default 0 (intercept cal)
        | None => value
        end in
      convert_unit calibrated_value "g" unit
        :: apply_from cals (S i) rest unit
  end.

Definition apply (self : CalibrationData) (values : list R) (unit : string)
    : list R :=
  apply_from (calibrations self) 0 values unit.

(** The four units the converter recognises. *)
Definition known_unit (u : string) : Prop :=
  u = "g"%string ∨ u = "kg"%string ∨ u = "oz"%string ∨ u = "lb"%string.

(** [self.calibrations[sensor_index] = cal], for an index in range. *)
Definition set_calibration (i : nat) (cal : calibration)
    (self : CalibrationData) : CalibrationData :=
  {| calibrations := <[i := cal]> (calibrations self);
     loaded := loaded self |}.

(** [np.mean]. *)
Definition mean (xs : list R) : R := Py.sum xs / INR (length xs).

(** The fit quality that [set_sensor_calibration] computes from the
    fitted line: [1 - ss_residual / ss_total], and [0] when [ss_total] is
    zero. *)
Definition r_squared (slope intercept : R) (x_vals y_vals : list R) : R :=
  let y_pred := map (λ x, slope * x + intercept) x_vals in
  let ss_total := Py.sum (map (λ y, (y - mean y_vals) ^ 2) y_vals) in
  let ss_residual :=
    Py.sum (zip_with (λ y p, (y - p) ^ 2) y_vals y_pred) in
  if Py.eqb ss_total 0 then 0 else 1 - ss_residual / ss_total.

Section Fit.

(** [np.polyfit(x_vals, y_vals, 1)]: the library's least-squares line,
    taken as a parameter.  It returns [(slope, intercept)] or raises. *)
Variable polyfit : list R → list R → result (R * R).

(** [CalibrationData.set_sensor_calibration]: the new object and the
    returned flag.  The record keeps the keys of the stored dict that are
    read back; the ["r_squared"] entry is written and never read.  Any
    exception inside the [try] leads to the handler, which stores the
    default. *)
Definition set_sensor_calibration (self : CalibrationData)
    (sensor_index : Z) (points : list (R * R * string))
    : CalibrationData * bool :=
  if ((sensor_index <? 0)
      || (Z.of_nat (length (calibrations self)) <=? sensor_index))%Z
  then (self, false)
  else
    let i := Z.to_nat sensor_index in
    if (length points <? 2)%nat
    then (set_calibration i default_calibration self, false)
    else
      let points_in_g :=
        map (λ p, (p.1.1, convert_unit p.1.2 p.2 "g")) points in
      let x_vals := map fst points_in_g in
      let y_vals := map snd points_in_g in
      match polyfit x_vals y_vals with
      | Ok (slope, intercept) =>
          (set_calibration i
             {| slope := Some slope; intercept := Some intercept;
                unit := "g"; calibration_points := points |} self,
           true)
      | Raise _ => (set_calibration i default_calibration self, false)
      end.

End Fit.

(** [CalibrationData.get_calibration_params]. *)
Definition get_calibration_params (self : CalibrationData)
    (sensor_index : Z) : option calibration :=
  if ((sensor_index <? 0)
      || (Z.of_nat (length (calibrations self)) <=? sensor_index))%Z
  then None
  else calibrations self !! Z.to_nat sensor_index.

(** An entry of a legacy calibration list, as [_convert_v1_format] tells
    them apart: a dict read with [.get], a tuple of length at least two
    (with its third component when there is one), or anything else. *)
Inductive legacy_entry : Type :=
| LegacyDict (zero_offset scale_factor : option R) (unit : option string)
| LegacyTuple (zero_offset scale_factor : R) (unit : option string)
| LegacyOther.

Definition convert_entry (cal : legacy_entry) : calibration :=
  match cal with
  | LegacyDict zero_offset scale_factor unit =>
      let zero_offset := default 0 zero_offset in
      let scale_factor := default 1 scale_factor in
      {| slope := Some scale_factor;
         intercept := Some (- zero_offset * scale_factor);
         unit := default "g"%string unit;
         calibration_points := [] |}
  | LegacyTuple zero_offset scale_factor unit =>
      {| slope := Some scale_factor;
         intercept := Some (- zero_offset * scale_factor);
         unit := default "g"%string unit;
         calibration_points := [] |}
  | LegacyOther => default_calibration
  end.

(** The zero offset and the scale factor a legacy entry stands for. *)
Definition legacy_line (cal : legacy_entry) : R * R :=
  match cal with
  | LegacyDict zero_offset scale_factor _ =>
      (default 0 zero_offset, default 1 scale_factor)
  | LegacyTuple zero_offset scale_factor _ => (zero_offset, scale_factor)
  | LegacyOther => (0, 1)
  end.

(** [CalibrationData._convert_v1_format]. *)
Definition _convert_v1_format (self : CalibrationData)
    (old_calibrations : list legacy_entry) : CalibrationData :=
  {| calibrations := map convert_entry old_calibrations;
     loaded := loaded self |}.

(** [CalibrationData._ensure_four_calibrations]: trim, then append
    defaults while fewer than four are present. *)
Definition _ensure_four_calibrations (self : CalibrationData)
    : CalibrationData :=
  let cals :=
    if (4 <? length (calibrations self))%nat
    then take 4 (calibrations self)
    else calibrations self in
  {| calibrations :=
       cals ++ replicate (4 - length cals) default_calibration;
     loaded := loaded self |}.

(** [CalibrationData.is_loaded]. *)
Definition is_loaded (self : CalibrationData) : bool :=
  if loaded self then true
  else
    existsb
      (λ cal,
         negb (Py.eqb (default 1 (slope cal)) 1)
         || negb (Py.eqb (default 0 (intercept cal)) 0)
         || (0 <? length (calibration_points cal))%nat)
      (calibrations self).

End Cal_Math.

(** ** tabs/live_feed.py: the display's own unit conversion *)

Module LiveFeed.

(** [LiveFeedTab.simple_unit_conversion]. *)
Definition simple_unit_conversion (values : list R)
    (from_unit to_unit : string) : list R :=
  map (λ val,
         let val :=
           if negb (from_unit =? "g")%string then
             if (from_unit =? "kg")%string then val * 1000
             else if (from_unit =? "oz")%string then val * 28.3495
             else if (from_unit =? "lb")%string then val * 453.592
             else val
           else val in
         if (to_unit =? "kg")%string then val / 1000
         else if (to_unit =? "oz")%string then val * 0.03527396195
         else if (to_unit =? "lb")%string then val * 0.00220462262
         else val)
      values.

End LiveFeed.

(** ** Alg_Math.py: class WeightDistribution *)

Module WeightDistribution.

(** The Qt signals of the class; an emission is recorded in the object's
    log, oldest first. *)
Inductive signal : Type :=
| geometry_changed
| com_calculated (com : R * R)
| displacement_calculated (d : R * R).

Record t : Type := {
  calibration : option Cal_Math.CalibrationData;
  sensor_weights : list R;
  sensor_positions : list (R * R);
  ideal_com : R * R;
  actual_com : R * R;
  displacement : R * R;
  emitted : list signal
}.

Definition init (calibration : option Cal_Math.CalibrationData) : t :=
  {| calibration := calibration;
     sensor_weights := [0; 0; 0; 0];
     sensor_positions := [(0, 0); (0, 0); (0, 0); (0, 0)];
     ideal_com := (0, 0);
     actual_com := (0, 0);
     displacement := (0, 0);
     emitted := [] |}.

Definition emit (s : signal) (self : t) : t :=
  {| calibration := calibration self;
     sensor_weights := sensor_weights self;
     sensor_positions := sensor_positions self;
     ideal_com := ideal_com self;
     actual_com := actual_com self;
     displacement := displacement self;
     emitted := emitted self ++ [s] |}.

Definition set_sensor_weights (ws : list R) (self : t) : t :=
  {| calibration := calibration self;
     sensor_weights := ws;
     sensor_positions := sensor_positions self;
     ideal_com := ideal_com self;
     actual_com := actual_com self;
     displacement := displacement self;
     emitted := emitted self |}.

Definition set_actual_com (com : R * R) (self : t) : t :=
  {| calibration := calibration self;
     sensor_weights := sensor_weights self;
     sensor_positions := sensor_positions self;
     ideal_com := ideal_com self;
     actual_com := com;
     displacement := displacement self;
     emitted := emitted self |}.

Definition set_displacement (d : R * R) (self : t) : t :=
  {| calibration := calibration self;
     sensor_weights := sensor_weights self;
     sensor_positions := sensor_positions self;
     ideal_com := ideal_com self;
     actual_com := actual_com self;
     displacement := d;
     emitted := emitted self |}.

(** [calculate_displacement]: store [actual_com - ideal_com], then emit. *)
Definition calculate_displacement (self : t) : t :=
  let dx := (actual_com self).1 - (ideal_com self).1 in
  let dy := (actual_com self).2 - (ideal_com self).2 in
  let self := set_displacement (dx, dy) self in
  emit (displacement_calculated (displacement self)) self.

(** [calculate_com].  The body sits in a [try]; nothing in it can raise in
    this model (positions are pairs, and both divisors are checked
    positive), so the handler is never entered. *)
Definition calculate_com (self : t) : t :=
  let total_weight := Py.sum (sensor_weights self) in
  if Py.leb total_weight 0 then
    if (0 <? length (sensor_positions self))%nat then
      let x_values := map fst (sensor_positions self) in
      let y_values := map snd (sensor_positions self) in
      let center_x := Py.sum x_values / INR (length x_values) in
      let center_y := Py.sum y_values / INR (length y_values) in
      let self := set_actual_com (center_x, center_y) self in
      let self := emit (com_calculated (actual_com self)) self in
      calculate_displacement self
    else self
  else
    let weighted_x :=
      Py.sum (map (λ wp, wp.1 * wp.2.1)
                  (zip (sensor_weights self) (sensor_positions self))) in
    let weighted_y :=
      Py.sum (map (λ wp, wp.1 * wp.2.2)
                  (zip (sensor_weights self) (sensor_positions self))) in
    let com_x := weighted_x / total_weight in
    let com_y := weighted_y / total_weight in
    let self := set_actual_com (com_x, com_y) self in
    let self := emit (com_calculated (actual_com self)) self in
    calculate_displacement self.

(** The truth value of [tare_values and len(tare_values) >= 4]. *)
Definition tare_given (tare_values : option (list R)) : bool :=
  match tare_values with
  | Some tare => (0 <? length tare)%nat && (4 <=? length tare)%nat
  | None => false
  end.

(** The list [calibrated] of [update_sensor_data]. *)
Definition calibrated_values (self : t) (values : list R)
    (pre_calibrated : bool) : list R :=
  if pre_calibrated then values
  else match calibration self with
       | Some cal => Cal_Math.apply cal values "g"
       | None => values
       end.

(** [update_sensor_data]. *)
Definition update_sensor_data (self : t) (values : list R)
    (tare_values : option (list R)) (pre_calibrated : bool) : t :=
  if (length values <? 4)%nat then self
  else
    let calibrated := calibrated_values self values pre_calibrated in
    let weights :=
      if tare_given tare_values then
        map (λ ct, Py.max2 0 (ct.1 - ct.2))
            (zip calibrated (default [] tare_values))
      else
        map (λ val, if pre_calibrated then Rabs val else Py.max2 0 val)
            calibrated in
    calculate_com (set_sensor_weights weights self).

(** [transform_point]. *)
Definition transform_point (point : R * R)
    (scale offset_x offset_y min_x min_y : R) : R * R :=
  let view_x := offset_x + (point.1 - min_x) * scale in
  let view_y := offset_y + (min_y + (min_y - point.2) * -1) * scale in
  (view_x, view_y).

(** [tabs/live_feed.py], [tooltip_text_at_position]: the lines commented
    "Inverse of transform_point", from a screen position to data
    coordinates. *)
Definition tooltip_data (pos : R * R) (scale offset_x offset_y min_x min_y : R)
    : R * R :=
  let data_x := (pos.1 - offset_x) / scale + min_x in
  let data_y := min_y - ((pos.2 - offset_y) / scale - min_y) in
  (data_x, data_y).

Definition set_sensor_positions (ps : list (R * R)) (self : t) : t :=
  {| calibration := calibration self;
     sensor_weights := sensor_weights self;
     sensor_positions := ps;
     ideal_com := ideal_com self;
     actual_com := actual_com self;
     displacement := displacement self;
     emitted := emitted self |}.

Definition set_ideal_com (com : R * R) (self : t) : t :=
  {| calibration := calibration self;
     sensor_weights := sensor_weights self;
     sensor_positions := sensor_positions self;
     ideal_com := com;
     actual_com := actual_com self;
     displacement := displacement self;
     emitted := emitted self |}.

(** [update_sensor_positions]. *)
Definition update_sensor_positions (self : t) (positions : list (R * R))
    : t :=
  let self := set_sensor_positions positions self in
  let self := calculate_com self in
  emit geometry_changed self.

(** The test [p == (0.0, 0.0)] on a pair. *)
Definition is_origin (p : R * R) : bool := Py.eqb p.1 0 && Py.eqb p.2 0.

(** [update_ideal_com]. *)
Definition update_ideal_com (self : t) (com_pos : R * R) : t :=
  let self := set_ideal_com com_pos self in
  if negb (is_origin (actual_com self)) then calculate_displacement self
  else self.

(** The tuple that [calculate_display_scaling] returns. *)
Record scaling : Type := {
  scale : R;
  offset_x : R;
  offset_y : R;
  min_x : R;
  min_y : R;
  max_x : R;
  max_y : R
}.

(** The points [calculate_display_scaling] fits into the view. *)
Definition all_points (self : t) : list (R * R) :=
  sensor_positions self
    ++ (if negb (is_origin (actual_com self)) then [actual_com self] else [])
    ++ (if negb (is_origin (ideal_com self)) then [ideal_com self] else []).

(** [calculate_display_scaling]; [None] stands for the
    [ZeroDivisionError] of [view_width / data_width]. *)
Definition calculate_display_scaling (self : t)
    (view_width view_height margin_percent : R) : option scaling :=
  if decide (all_points self = []) then
    Some {| scale := 1; offset_x := view_width / 2; offset_y := 0;
            min_x := -1; min_y := -1; max_x := 1; max_y := 1 |}
  else
    let x_values := map fst (all_points self) in
    let y_values := map snd (all_points self) in
    min_x ← Py.min_list x_values;
    max_x ← Py.max_list x_values;
    min_y ← Py.min_list y_values;
    max_y ← Py.max_list y_values;
    let '(min_x, max_x) :=
      if Py.eqb min_x max_x then (min_x - 1, max_x + 1)
      else (min_x, max_x) in
    let '(min_y, max_y) :=
      if Py.eqb min_y max_y then (min_y - 1, max_y + 1)
      else (min_y, max_y) in
    let data_width := max_x - min_x in
    let data_height := max_y - min_y in
    let margin_x := data_width * (margin_percent / 100) in
    let margin_y := data_height * (margin_percent / 100) in
    let min_x := min_x - margin_x in
    let max_x := max_x + margin_x in
    let min_y := min_y - margin_y in
    let max_y := max_y + margin_y in
    let data_width := max_x - min_x in
    let data_height := max_y - min_y in
    if Py.eqb data_width 0 then None
    else
      let scale := view_width / data_width in
      let required_height := data_height * scale in
      let offset_x := 0 in
      let offset_y :=
        if Py.ltb required_height view_height
        then (view_height - required_height) / 2
        else 0 in
      Some {| scale := scale; offset_x := offset_x; offset_y := offset_y;
              min_x := min_x; min_y := min_y;
              max_x := max_x; max_y := max_y |}.

(** The stored displacement is the one of the stored COMs. *)
Definition consistent (self : t) : Prop :=
  displacement self
  = ((actual_com self).1 - (ideal_com self).1,
     (actual_com self).2 - (ideal_com self).2).

(** No stored weight is negative. *)
Definition nonneg_weights (self : t) : Prop :=
  Forall (λ w, 0 <= w) (sensor_weights self).

(** The unweighted centroid of a list of positions. *)
Definition centroid (ps : list (R * R)) : R * R :=
  (Py.sum (map fst ps) / INR (length ps),
   Py.sum (map snd ps) / INR (length ps)).

End WeightDistribution.

(** ** Alg_Math.py: class TrayOptimizer *)

Module TrayOptimizer.

(** The two tray names, ["front"] and ["back"], in the order of the
    source's loop. *)
Inductive tray_name : Type := front | back.

#[export] Instance tray_name_eq_dec : EqDecision tray_name.
Proof. solve_decision. Defined.

Definition flag_key (t : tray_name) : string :=
  match t with front => "front" | back => "back" end.

(** ["weight_tray1" if tray_name == "front" else "weight_tray2"]. *)
Definition settings_key (t : tray_name) : string :=
  match t with front => "weight_tray1" | back => "weight_tray2" end.

(** A dict with exactly the two tray keys ([layout], [effect_map]). *)
Record per_tray (A : Type) : Type := { of_front : A; of_back : A }.
Arguments of_front {A} _.
Arguments of_back {A} _.

Definition get {A} (t : tray_name) (d : per_tray A) : A :=
  match t with front => of_front d | back => of_back d end.

Definition set {A} (t : tray_name) (a : A) (d : per_tray A) : per_tray A :=
  match t with
  | front => {| of_front := a; of_back := of_back d |}
  | back => {| of_front := of_front d; of_back := a |}
  end.

(** An entry of [tray_slots]. *)
Record slot : Type := {
  tray : tray_name;
  row : nat;
  col : nat;
  x : R;
  y : R
}.

(** A slot that received its ["percent_improvement"] key. *)
Record candidate : Type := {
  the_slot :> slot;
  percent_improvement : R
}.

Record TrayLayoutResult : Type := {
  front_tray : list (list nat);
  back_tray : list (list nat);
  final_com : R * R;
  displacement : R;
  total_weight : R;
  effect_map : per_tray (list (list R))
}.

(** [self.effect_weight_grams]: one tray slot is 113 g. *)
Definition effect_weight_grams : R := 113.

(** [apply_bias_to_com]. *)
Definition apply_bias_to_com (com : R * R) (bias : gmap string R) : R * R :=
  (com.1 + default 0 (bias !! "x"), com.2 + default 0 (bias !! "y")).

(** [convert_to_grams], through the calibration helper's converter. *)
Definition convert_to_grams (value : R) (from_unit : string) : R :=
  Cal_Math.convert_unit value from_unit "g".

(** [TrayOptimizer.calculate_com]. *)
Definition calculate_com (weights : list R) (positions : list (R * R))
    : R * R :=
  let total := Py.sum weights in
  if Py.eqb total 0 then (0, 0)
  else
    let x := Py.sum (map (λ wp, wp.1 * wp.2.1) (zip weights positions))
             / total in
    let y := Py.sum (map (λ wp, wp.1 * wp.2.2) (zip weights positions))
             / total in
    (x, y).

(** [TrayOptimizer.calculate_displacement]: [(dx ** 2 + dy ** 2) ** 0.5]. *)
Definition calculate_displacement (actual ideal : R * R) : R :=
  let dx := actual.1 - ideal.1 in
  let dy := actual.2 - ideal.2 in
  sqrt (dx ^ 2 + dy ^ 2).

(** *** Building the slot grid *)

(** The body of the [for tray_name in ["front", "back"]] loop: the layout
    and effect matrices of one enabled tray, and its slots row by row.
    [range(cols)] is only evaluated inside an iteration over the rows. *)
Definition tray_grid (name : tray_name) (tray : gmap string num)
    : result (list (list nat) * list (list R) * list slot) :=
  rows ← getitem tray "rows";
  cols ← getitem tray "columns";
  y_center ← getitem tray "y_position";
  cell_w ← getitem tray "cell_width";
  cell_h ← getitem tray "cell_height";
  wall ← getitem tray "wall_thickness";
  let x_spacing := to_R cell_w + to_R wall in
  let y_spacing := to_R cell_h + to_R wall in
  let center_row := (to_R rows - 1) / 2 in
  let center_col := (to_R cols - 1) / 2 in
  row_range ← range rows;
  col_range ← (if decide (row_range = []) then Ok [] else range cols);
  let layout := map (λ _, map (λ _, 0%nat) col_range) row_range in
  let effect := map (λ _, map (λ _, 0) col_range) row_range in
  let slots :=
    flat_map (λ row,
      map (λ col,
        let dx := (INR col - center_col) * x_spacing in
        let dy := (INR row - center_row) * y_spacing in
        {| tray := name; row := row; col := col;
           x := dx; y := to_R y_center + dy |})
        col_range)
      row_range in
  Ok (layout, effect, slots).

Record grid : Type := {
  g_layout : per_tray (list (list nat));
  g_effect : per_tray (list (list R));
  g_slots : list slot
}.

Definition empty_grid : grid :=
  {| g_layout := {| of_front := []; of_back := [] |};
     g_effect := {| of_front := []; of_back := [] |};
     g_slots := [] |}.

(** One iteration of the tray loop, with its [continue] for a disabled
    tray. *)
Definition add_tray (general_settings : gmap string (gmap string num))
    (tray_flags : gmap string bool) (name : tray_name) (g : grid)
    : result grid :=
  if negb (default false (tray_flags !! flag_key name)) then Ok g
  else
    tray ← getitem general_settings (settings_key name);
    '(layout, effect, slots) ← tray_grid name tray;
    Ok {| g_layout := set name layout (g_layout g);
          g_effect := set name effect (g_effect g);
          g_slots := g_slots g ++ slots |}.

Definition build_slots (general_settings : gmap string (gmap string num))
    (tray_flags : gmap string bool) : result grid :=
  g ← add_tray general_settings tray_flags front empty_grid;
  add_tray general_settings tray_flags back g.

(** *** Simulating one unit per slot *)

Section Simulation.

Variables (sensor_weights : list R) (sensor_positions : list (R * R)).
Variables (ideal_com : R * R) (original_disp : R).

(** The [percent] a slot obtains in the simulation loop. *)
Definition percent_of (s : slot) : R :=
  let test_weights := sensor_weights ++ [effect_weight_grams] in
  let test_positions := sensor_positions ++ [(x s, y s)] in
  let test_com := calculate_com test_weights test_positions in
  let new_disp := calculate_displacement test_com ideal_com in
  let improvement := original_disp - new_disp in
  if Py.eqb original_disp 0 then 0 else improvement / original_disp.

(** One iteration of [for slot in tray_slots], on the pair
    [(candidates, max_improvement)]. *)
Definition simulate_step (acc : list candidate * R) (s : slot)
    : list candidate * R :=
  let percent := percent_of s in
  let max_improvement :=
    if Py.ltb acc.2 percent then percent else acc.2 in
  let candidates :=
    if Py.ltb 0 percent
    then acc.1 ++ [{| the_slot := s; percent_improvement := percent |}]
    else acc.1 in
  (candidates, max_improvement).

Definition simulate (tray_slots : list slot) : list candidate * R :=
  fold_left simulate_step tray_slots ([], 0).

End Simulation.

(** *** Ordering and filtering the candidates *)

(** [candidates.sort(key=..., reverse=True)]: a stable descending sort.
    An element goes in front of the first one whose key is not strictly
    greater, so equal keys keep their enumeration order. *)
Fixpoint insert_desc (c : candidate) (l : list candidate) : list candidate :=
  match l with
  | [] => [c]
  | d :: l' =>
      if Py.ltb (percent_improvement c) (percent_improvement d)
      then d :: insert_desc c l'
      else c :: d :: l'
  end.

Definition sort_desc (l : list candidate) : list candidate :=
  fold_right insert_desc [] l.

(** The threshold block: active when [threshold is not None], it and
    [max_improvement] are positive. *)
Definition apply_threshold (threshold : option R) (max_improvement : R)
    (candidates : list candidate) : list candidate :=
  match threshold with
  | Some th =>
      if Py.ltb 0 th && Py.ltb 0 max_improvement then
        let absolute_threshold := max_improvement * th in
        List.filter
          (λ c, Py.leb absolute_threshold (percent_improvement c))
          candidates
      else candidates
  | None => candidates
  end.

(** *** Matrices: [m[row][col]] and [m[row][col] = v] *)

Definition getitem2 {A} (m : list (list A)) (row col : nat) : result A :=
  match m !! row with
  | Some r =>
      match r !! col with
      | Some v => Ok v
      | None => Raise IndexError
      end
  | None => Raise IndexError
  end.

Definition setitem2 {A} (m : list (list A)) (row col : nat) (v : A)
    : result (list (list A)) :=
  match m !! row with
  | Some r =>
      if decide (col < length r)%nat
      then Ok (<[row := <[col := v]> r]> m)
      else Raise IndexError
  | None => Raise IndexError
  end.

(** *** Greedy placement *)

Record placement : Type := {
  p_layout : per_tray (list (list nat));
  p_effect : per_tray (list (list R));
  added_weight : R;
  used_slots : list candidate
}.

(** [for slot in candidates], with its [break] once one more unit would
    exceed the available weight. *)
Fixpoint place (available_weight : R) (candidates : list candidate)
    (st : placement) : result placement :=
  match candidates with
  | [] => Ok st
  | s :: rest =>
      if Py.ltb available_weight (added_weight st + effect_weight_grams)
      then Ok st
      else
        lay ← setitem2 (get (tray s) (p_layout st)) (row s) (col s) 1%nat;
        eff ← setitem2 (get (tray s) (p_effect st)) (row s) (col s)
                (percent_improvement s);
        place available_weight rest
          {| p_layout := set (tray s) lay (p_layout st);
             p_effect := set (tray s) eff (p_effect st);
             added_weight := added_weight st + effect_weight_grams;
             used_slots := used_slots st ++ [s] |}
  end.

(** *** Normalising the effect map *)

Definition read_effect (effect : per_tray (list (list R))) (s : candidate)
    : result R :=
  getitem2 (get (tray s) effect) (row s) (col s).

(** The second loop over [used_slots]: divide the positive cells. *)
Fixpoint divide_used (max_effect : R) (used : list candidate)
    (effect : per_tray (list (list R))) : result (per_tray (list (list R))) :=
  match used with
  | [] => Ok effect
  | s :: rest =>
      v ← read_effect effect s;
      if Py.ltb 0 v then
        m ← setitem2 (get (tray s) effect) (row s) (col s) (v / max_effect);
        divide_used max_effect rest (set (tray s) m effect)
      else divide_used max_effect rest effect
  end.

Definition normalize (effect : per_tray (list (list R)))
    (used : list candidate) : result (per_tray (list (list R))) :=
  used_effects ← mapM (read_effect effect) used;
  match Py.max_list used_effects with
  | Some max_effect => divide_used max_effect used effect
  | None => Ok effect
  end.

(** *** The optimizer *)

(** [compute_optimal_tray_layout].  The printed
    [max_additional_weights] does not take part in the result. *)
Definition compute_optimal_tray_layout
    (sensor_weights : list R) (sensor_positions : list (R * R))
    (ideal_com : R * R) (bias_settings : gmap string R)
    (general_settings : gmap string (gmap string num))
    (tray_flags : gmap string bool)
    (max_weight : R) (max_weight_unit : string) (threshold : option R)
    : result TrayLayoutResult :=
  let ideal_com := apply_bias_to_com ideal_com bias_settings in
  let max_weight_g := convert_to_grams max_weight max_weight_unit in
  let initial_weight := Py.sum sensor_weights in
  let available_weight := max_weight_g - initial_weight in
  if Py.leb available_weight 0 then
    Ok {| front_tray := [];
          back_tray := [];
          final_com := calculate_com sensor_weights sensor_positions;
          displacement :=
            calculate_displacement
              (calculate_com sensor_weights sensor_positions) ideal_com;
          total_weight := initial_weight;
          effect_map := {| of_front := []; of_back := [] |} |}
  else
    let original_com := calculate_com sensor_weights sensor_positions in
    let original_disp := calculate_displacement original_com ideal_com in
    g ← build_slots general_settings tray_flags;
    let sim :=
      simulate sensor_weights sensor_positions ideal_com original_disp
        (g_slots g) in
    let candidates := sort_desc sim.1 in
    let max_improvement := sim.2 in
    let candidates := apply_threshold threshold max_improvement candidates in
    st ← place available_weight candidates
           {| p_layout := g_layout g; p_effect := g_effect g;
              added_weight := 0; used_slots := [] |};
    effect_map ← normalize (p_effect st) (used_slots st);
    let final_weights :=
      sensor_weights ++ map (λ _, effect_weight_grams) (used_slots st) in
    let final_positions :=
      sensor_positions
        ++ map (λ s : candidate, (x s, y s)) (used_slots st) in
    let final_com := calculate_com final_weights final_positions in
    let final_disp := calculate_displacement final_com ideal_com in
    let total_weight := initial_weight + added_weight st in
    Ok {| front_tray := of_front (p_layout st);
          back_tray := of_back (p_layout st);
          final_com := final_com;
          displacement := final_disp;
          total_weight := total_weight;
          effect_map := effect_map |}.

End TrayOptimizer.

(** ** Vocabulary of the statements *)

Module Layout.

Import TrayOptimizer.

(** The address [(tray, row, col)] of the cell a slot stands for. *)
Definition key (s : slot) : tray_name * nat * nat := (tray s, row s, col s).

(** [d[tray][row][col]], when the cell exists. *)
Definition cell {A} (d : per_tray (list (list A)))
    (k : tray_name * nat * nat) : option A :=
  get k.1.1 d !! k.1.2 ≫= (λ r, r !! k.2).

(** The two occupancy matrices of a result, by tray. *)
Definition layout (r : TrayLayoutResult) : per_tray (list (list nat)) :=
  {| of_front := front_tray r; of_back := back_tray r |}.

(** The keys read from the settings of an enabled tray, in reading
    order. *)
Definition required_keys : list string :=
  ["rows"; "columns"; "y_position"; "cell_width"; "cell_height";
   "wall_thickness"]%string.

(** The positions of a list of slots. *)
Definition positions (slots : list slot) : list (R * R) :=
  map (λ s, (x s, y s)) slots.

(** The cell addresses of a list of candidates. *)
Definition keys (cs : list candidate) : list (tray_name * nat * nat) :=
  map (λ c : candidate, key c) cs.
Arguments keys : simpl never.

(** The candidates the greedy loop runs over, for a list of slots:
    simulated, sorted, then filtered by the threshold.  [ideal_com] is
    the ideal COM after the bias. *)
Definition ranked (sensor_weights : list R)
    (sensor_positions : list (R * R)) (ideal_com : R * R)
    (threshold : option R) (slots : list slot) : list candidate :=
  let original_disp :=
    calculate_displacement (calculate_com sensor_weights sensor_positions)
      ideal_com in
  let sim :=
    simulate sensor_weights sensor_positions ideal_com original_disp
      slots in
  apply_threshold threshold sim.2 (sort_desc sim.1).

(** The simulation's list of candidates and its [max_improvement], for
    a list of slots. *)
Definition candidates_of (sensor_weights : list R)
    (sensor_positions : list (R * R)) (ideal_com : R * R)
    (slots : list slot) : list candidate :=
  (simulate sensor_weights sensor_positions ideal_com
     (calculate_displacement
        (calculate_com sensor_weights sensor_positions) ideal_com)
     slots).1.

Definition best_improvement (sensor_weights : list R)
    (sensor_positions : list (R * R)) (ideal_com : R * R)
    (slots : list slot) : R :=
  (simulate sensor_weights sensor_positions ideal_com
     (calculate_displacement
        (calculate_com sensor_weights sensor_positions) ideal_com)
     slots).2.

(** A freshly built grid: no two slots share a cell, every slot has its
    cell, and every cell of the layout is empty with a zero effect. *)
Definition blank (g : grid) : Prop :=
  NoDup (map key (g_slots g))
  ∧ (∀ s, s ∈ g_slots g → cell (g_layout g) (key s) = Some 0%nat)
  ∧ (∀ k v, cell (g_layout g) k = Some v →
       v = 0%nat ∧ cell (g_effect g) k = Some 0).

End Layout.

(** ** A worked configuration

    One sensor carrying 113 g at the origin, the ideal COM one unit up the
    y axis, and two single-cell trays on that axis: the front one at
    height 2, the back one at height 3. *)

Module Scenario.

Definition one_cell (y_position : R) : gmap string num :=
  {[ "rows" := Int 1; "columns" := Int 1;
     "y_position" := Float y_position;
     "cell_width" := Float 1; "cell_height" := Float 1;
     "wall_thickness" := Float 0 ]}.

Definition general_settings : gmap string (gmap string num) :=
  {[ "weight_tray1" := one_cell 2; "weight_tray2" := one_cell 3 ]}.

Definition front_only : gmap string bool := {[ "front" := true ]}.

Definition both_trays : gmap string bool :=
  {[ "front" := true; "back" := true ]}.

Definition sensor_weights : list R := [113].
Definition sensor_positions : list (R * R) := [(0, 0)].
Definition ideal_com : R * R := (0, 1).

(** The single slot of a tray of this configuration. *)
Definition slot_at (name : TrayOptimizer.tray_name) (y_position : R)
    : TrayOptimizer.slot :=
  {| TrayOptimizer.tray := name; TrayOptimizer.row := 0;
     TrayOptimizer.col := 0; TrayOptimizer.x := 0;
     TrayOptimizer.y := y_position |}.

Definition front_slot : TrayOptimizer.candidate :=
  {| TrayOptimizer.the_slot := slot_at TrayOptimizer.front 2;
     TrayOptimizer.percent_improvement := 1 |}.

Definition back_slot : TrayOptimizer.candidate :=
  {| TrayOptimizer.the_slot := slot_at TrayOptimizer.back 3;
     TrayOptimizer.percent_improvement := 1 / 2 |}.

(** The optimizer on this configuration, with a budget of [max_weight]
    grams and no threshold. *)
Definition run (tray_flags : gmap string bool) (max_weight : R)
    : result TrayOptimizer.TrayLayoutResult :=
  TrayOptimizer.compute_optimal_tray_layout sensor_weights sensor_positions
    ideal_com ∅ general_settings tray_flags max_weight "g" None.

End Scenario.

(** * Properties *)

(** ** Facts about the built-ins *)

Section PyFacts.

Lemma ltb_true (a b : R) : a < b → Py.ltb a b = true.
Proof. intros H. unfold Py.ltb. destruct (Rlt_dec a b); [done | lra]. Qed.

Lemma ltb_false (a b : R) : b <= a → Py.ltb a b = false.
Proof. intros H. unfold Py.ltb. destruct (Rlt_dec a b); [lra | done]. Qed.

Lemma leb_true (a b : R) : a <= b → Py.leb a b = true.
Proof. intros H. unfold Py.leb. destruct (Rle_dec a b); [done | lra]. Qed.

Lemma leb_false (a b : R) : b < a → Py.leb a b = false.
Proof. intros H. unfold Py.leb. destruct (Rle_dec a b); [lra | done]. Qed.

Lemma eqb_true (a b : R) : a = b → Py.eqb a b = true.
Proof. intros H. unfold Py.eqb. destruct (Req_dec_T a b); [done | lra]. Qed.

Lemma eqb_false (a b : R) : a ≠ b → Py.eqb a b = false.
Proof. intros H. unfold Py.eqb. destruct (Req_dec_T a b); [lra | done]. Qed.

Lemma ltb_spec (a b : R) : Py.ltb a b = true ↔ a < b.
Proof. unfold Py.ltb. destruct (Rlt_dec a b); split; (done || lra). Qed.

Lemma leb_spec (a b : R) : Py.leb a b = true ↔ a <= b.
Proof. unfold Py.leb. destruct (Rle_dec a b); split; (done || lra). Qed.

Lemma max2_Rmax (a b : R) : Py.max2 a b = Rmax a b.
Proof.
  unfold Py.max2, Rmax.
  destruct (Rlt_dec a b), (Rle_dec a b); lra.
Qed.

(** The left-to-right sum is the usual sum. *)
Lemma fold_left_Rplus (xs : list R) (a : R) :
  fold_left Rplus xs a = a + fold_right Rplus 0 xs.
Proof.
  revert a. induction xs as [|x xs IH]; intros a; simpl.
  - lra.
  - rewrite IH. lra.
Qed.

Lemma sum_fold_right (xs : list R) : Py.sum xs = fold_right Rplus 0 xs.
Proof. unfold Py.sum. rewrite fold_left_Rplus. lra. Qed.

Lemma sum_nil : Py.sum [] = 0.
Proof. reflexivity. Qed.

Lemma sum_cons (x : R) (xs : list R) : Py.sum (x :: xs) = x + Py.sum xs.
Proof. rewrite !sum_fold_right. reflexivity. Qed.

Lemma sum_app (xs ys : list R) : Py.sum (xs ++ ys) = Py.sum xs + Py.sum ys.
Proof.
  induction xs as [|x xs IH]; simpl.
  - rewrite sum_nil. lra.
  - rewrite !sum_cons, IH. lra.
Qed.

Lemma sum_nonneg (xs : list R) : Forall (λ x, 0 <= x) xs → 0 <= Py.sum xs.
Proof.
  induction 1 as [|x xs Hx _ IH].
  - rewrite sum_nil. lra.
  - rewrite sum_cons. lra.
Qed.

(** Mapping over [zip] is [zip_with]. *)
Lemma map_zip {A B C} (f : A → B → C) (l : list A) (k : list B) :
  map (λ ab, f ab.1 ab.2) (zip l k) = zip_with f l k.
Proof.
  revert k. induction l as [|a l IH]; intros [|b k]; simpl; try done.
  by rewrite IH.
Qed.

End PyFacts.

(** ** Cal_Math: unit conversion *)

(** C8.  Converting [x] from grams to a recognised unit [U] and back to
    grams returns [x] within a relative tolerance of [1e-6]. *)
Theorem convert_unit_round_trip (x : R) (U : string) :
  Cal_Math.known_unit U →
  Rabs (Cal_Math.convert_unit (Cal_Math.convert_unit x "g" U) U "g" - x)
    <= 1e-6 * Rabs x.
Proof.
  intros [-> | [-> | [-> | ->]]]; unfold Cal_Math.convert_unit; simpl.
  - replace (x - x) with 0 by lra. rewrite Rabs_R0.
    pose proof (Rabs_pos x). lra.
  - replace (x / 1000 * 1000 - x) with 0 by lra. rewrite Rabs_R0.
    pose proof (Rabs_pos x). lra.
  - replace (x * 0.03527396195 * 28.3495 - x)
      with (x * (0.03527396195 * 28.3495 - 1)) by lra.
    rewrite Rabs_mult, (Rabs_left (0.03527396195 * 28.3495 - 1)) by lra.
    pose proof (Rabs_pos x). nra.
  - replace (x * 0.00220462262 * 453.592 - x)
      with (x * (0.00220462262 * 453.592 - 1)) by lra.
    rewrite Rabs_mult, (Rabs_left (0.00220462262 * 453.592 - 1)) by lra.
    pose proof (Rabs_pos x). nra.
Qed.

Lemma convert_unit_round_trip_witness :
  Rabs (Cal_Math.convert_unit (Cal_Math.convert_unit 1000 "g" "oz") "oz" "g"
        - 1000) <= 1e-6 * Rabs 1000.
Proof.
  apply (convert_unit_round_trip 1000 "oz").
  right; right; left; reflexivity.
Defined.

(** Conversion to and from grams themselves changes nothing. *)
Lemma convert_unit_g_g (x : R) : Cal_Math.convert_unit x "g" "g" = x.
Proof. reflexivity. Qed.

(** ** WeightDistribution *)

Section WeightDistributionFacts.

Import WeightDistribution.

Lemma calculate_displacement_weights (self : t) :
  sensor_weights (calculate_displacement self) = sensor_weights self.
Proof. reflexivity. Qed.

Lemma calculate_com_weights (self : t) :
  sensor_weights (calculate_com self) = sensor_weights self.
Proof.
  unfold calculate_com.
  destruct (Py.leb _ _); [destruct (_ <? _)%nat|]; reflexivity.
Qed.

Lemma calculate_com_positions (self : t) :
  sensor_positions (calculate_com self) = sensor_positions self.
Proof.
  unfold calculate_com.
  destruct (Py.leb _ _); [destruct (_ <? _)%nat|]; reflexivity.
Qed.

(** What [update_sensor_data] stores, when it does not return early. *)
Lemma update_sensor_data_stored (self : t) (values : list R)
    (tare_values : option (list R)) (pre_calibrated : bool) :
  (4 <= length values)%nat →
  sensor_weights (update_sensor_data self values tare_values pre_calibrated)
  = if tare_given tare_values then
      map (λ ct, Py.max2 0 (ct.1 - ct.2))
          (zip (calibrated_values self values pre_calibrated)
               (default [] tare_values))
    else
      map (λ val, if pre_calibrated then Rabs val else Py.max2 0 val)
          (calibrated_values self values pre_calibrated).
Proof.
  intros Hlen. unfold update_sensor_data.
  destruct (Nat.ltb_spec (length values) 4) as [Hlt | _]; [lia|].
  rewrite calculate_com_weights. reflexivity.
Qed.

Lemma tare_given_long (tare : list R) :
  (4 <= length tare)%nat → tare_given (Some tare) = true.
Proof.
  intros H. unfold tare_given.
  destruct (Nat.ltb_spec 0 (length tare)); [|lia].
  destruct (Nat.leb_spec 4 (length tare)); [done | lia].
Qed.

End WeightDistributionFacts.

(** C5.  With at least four values: a tare vector of length at least four
    makes every stored weight [max(0, calibrated_i - tare_i)]; without a
    tare vector every stored weight is [abs(calibrated_i)] when
    [pre_calibrated] holds and [max(0, calibrated_i)] otherwise. *)
Theorem update_sensor_data_tare_rule (self : WeightDistribution.t)
    (values : list R) (pre_calibrated : bool) :
  (4 <= length values)%nat →
  let calibrated :=
    WeightDistribution.calibrated_values self values pre_calibrated in
  let stored tare :=
    WeightDistribution.sensor_weights
      (WeightDistribution.update_sensor_data self values tare
         pre_calibrated) in
  (∀ tare : list R, (4 <= length tare)%nat →
     length (stored (Some tare)) = Nat.min (length calibrated) (length tare)
     ∧ ∀ (i : nat) (c t : R),
         calibrated !! i = Some c → tare !! i = Some t →
         stored (Some tare) !! i = Some (Rmax 0 (c - t)))
  ∧ (length (stored None) = length calibrated
     ∧ ∀ (i : nat) (c : R),
         calibrated !! i = Some c →
         stored None !! i
         = Some (if pre_calibrated then Rabs c else Rmax 0 c)).
Proof.
  intros Hlen calibrated stored. subst stored. split.
  - intros tare Htare. cbv beta.
    rewrite update_sensor_data_stored, tare_given_long by done.
    fold calibrated. simpl. split.
    + rewrite length_map, length_zip. reflexivity.
    + intros i c t Hc Ht.
      rewrite list_lookup_fmap, lookup_zip_with, Hc, Ht. simpl.
      by rewrite max2_Rmax.
  - cbv beta. rewrite update_sensor_data_stored by done.
    fold calibrated. simpl. split.
    + by rewrite length_map.
    + intros i c Hc. rewrite list_lookup_fmap, Hc. simpl.
      destruct pre_calibrated; [done | by rewrite max2_Rmax].
Qed.

Lemma update_sensor_data_tare_rule_witness :
  WeightDistribution.sensor_weights
    (WeightDistribution.update_sensor_data (WeightDistribution.init None)
       [-5; 2; 3; 4] None true) !! 0%nat
  = Some (Rabs (-5)).
Proof.
  assert (Hlen : (4 <= length [-5; 2; 3; 4]%R)%nat) by (simpl; lia).
  destruct (update_sensor_data_tare_rule (WeightDistribution.init None)
              [-5; 2; 3; 4] true Hlen) as [_ [_ H]].
  apply (H 0%nat (-5)). reflexivity.
Defined.

(** C7.  In [WeightDistribution.calculate_com]: when the total weight is
    not positive and there is at least one position, [actual_com] becomes
    the unweighted mean of the positions and the displacement is
    recomputed after the COM signal; when the total is positive,
    [actual_com] is the weighted centroid, and the displacement is
    recomputed as well. *)
Theorem calculate_com_centroid (self : WeightDistribution.t) :
  let ws := WeightDistribution.sensor_weights self in
  let ps := WeightDistribution.sensor_positions self in
  let total := fold_right Rplus 0 ws in
  let self' := WeightDistribution.calculate_com self in
  let recomputed com :=
    WeightDistribution.displacement self'
      = (com.1 - (WeightDistribution.ideal_com self).1,
         com.2 - (WeightDistribution.ideal_com self).2)
    ∧ WeightDistribution.emitted self'
      = WeightDistribution.emitted self
          ++ [WeightDistribution.com_calculated com;
              WeightDistribution.displacement_calculated
                (WeightDistribution.displacement self')] in
  (total <= 0 → ps ≠ [] →
     let centroid :=
       (fold_right Rplus 0 (map fst ps) / INR (length ps),
        fold_right Rplus 0 (map snd ps) / INR (length ps)) in
     WeightDistribution.actual_com self' = centroid ∧ recomputed centroid)
  ∧ (0 < total →
     let centroid :=
       (fold_right Rplus 0 (zip_with (λ w p, w * p.1) ws ps) / total,
        fold_right Rplus 0 (zip_with (λ w p, w * p.2) ws ps) / total) in
     WeightDistribution.actual_com self' = centroid ∧ recomputed centroid).
Proof.
  intros ws ps total self' recomputed.
  subst recomputed self'. unfold WeightDistribution.calculate_com.
  fold ws ps. rewrite (sum_fold_right ws). fold total. split.
  - intros Htot Hps. rewrite leb_true by done.
    destruct ps as [|p ps'] eqn:Eps; [done|].
    replace (0 <? length (p :: ps'))%nat with true by reflexivity.
    rewrite !sum_fold_right, !length_map.
    repeat split; try reflexivity.
    cbn -[INR length]. by rewrite <- app_assoc.
  - intros Htot. rewrite leb_false by done.
    rewrite !sum_fold_right.
    rewrite (map_zip (λ w p, w * p.1)), (map_zip (λ w p, w * p.2)).
    repeat split; try reflexivity.
    cbn. by rewrite <- app_assoc.
Qed.

Lemma calculate_com_centroid_witness :
  WeightDistribution.actual_com
    (WeightDistribution.calculate_com (WeightDistribution.init None))
  = (fold_right Rplus 0 [0; 0; 0; 0] / INR 4,
     fold_right Rplus 0 [0; 0; 0; 0] / INR 4).
Proof.
  destruct (calculate_com_centroid (WeightDistribution.init None))
    as [H _].
  apply H.
  - simpl. lra.
  - simpl. discriminate.
Defined.

Section SurplusValues.

Import WeightDistribution.

Lemma apply_from_length (cals : list Cal_Math.calibration) (i : nat)
    (values : list R) (unit : string) :
  length (Cal_Math.apply_from cals i values unit) = length values.
Proof.
  revert i. induction values as [|v vs IH]; intros i; simpl; [done|].
  by rewrite IH.
Qed.

Lemma calibrated_values_length (self : t) (values : list R) (pre : bool) :
  length (calibrated_values self values pre) = length values.
Proof.
  unfold calibrated_values. destruct pre; [done|].
  destruct (calibration self); [|done].
  apply apply_from_length.
Qed.

(** Untared weights are never negative. *)
Lemma untared_nonneg (pre : bool) (calibrated : list R) :
  Forall (λ w, 0 <= w)
    (map (λ val, if pre then Rabs val else Py.max2 0 val) calibrated).
Proof.
  apply Forall_forall. intros w Hw.
  apply list_elem_of_In, in_map_iff in Hw as (v & <- & _).
  destruct pre; [apply Rabs_pos|].
  rewrite max2_Rmax. apply Rmax_l.
Qed.

(** The COM that [calculate_com] stores when the total is positive. *)
Lemma calculate_com_positive (self : t) :
  0 < Py.sum (sensor_weights self) →
  actual_com (calculate_com self)
  = (Py.sum (map (λ wp, wp.1 * wp.2.1)
               (zip (sensor_weights self) (sensor_positions self)))
       / Py.sum (sensor_weights self),
     Py.sum (map (λ wp, wp.1 * wp.2.2)
               (zip (sensor_weights self) (sensor_positions self)))
       / Py.sum (sensor_weights self)).
Proof.
  intros Hpos. unfold calculate_com. by rewrite leb_false.
Qed.

(** Calibrating the first [k] values is calibrating all of them and
    keeping the first [k] results. *)
Lemma apply_from_take (cals : list Cal_Math.calibration) (i k : nat)
    (values : list R) (unit : string) :
  Cal_Math.apply_from cals i (take k values) unit
  = take k (Cal_Math.apply_from cals i values unit).
Proof.
  revert i k. induction values as [|v vs IH]; intros i [|k]; simpl;
    try done.
  by rewrite IH.
Qed.

Lemma calibrated_values_take (self : t) (values : list R) (pre : bool)
    (k : nat) :
  calibrated_values self (take k values) pre
  = take k (calibrated_values self values pre).
Proof.
  unfold calibrated_values. destruct pre; [done|].
  destruct (calibration self); [|done].
  apply apply_from_take.
Qed.

(** The untared branch of [update_sensor_data], with the built-in [max]
    read as [Rmax]. *)
Lemma update_sensor_data_untared (self : t) (values : list R)
    (pre : bool) :
  (4 <= length values)%nat →
  update_sensor_data self values None pre
  = calculate_com
      (set_sensor_weights
         (map (λ val, if pre then Rabs val else Rmax 0 val)
              (calibrated_values self values pre))
         self).
Proof.
  intros Hlen. unfold update_sensor_data.
  destruct (Nat.ltb_spec (length values) 4) as [?|_]; [lia|].
  cbn [tare_given]. do 2 f_equal.
  apply map_ext. intros val. destruct pre; [done | apply max2_Rmax].
Qed.

(** With four positions, the COM of a positive total: the weighted sums
    stop at the fourth weight, the divisor is the total of all. *)
Lemma calculate_com_four_positions (self : t) (ws : list R)
    (p0 p1 p2 p3 : R * R) :
  sensor_positions self = [p0; p1; p2; p3] →
  (4 <= length ws)%nat →
  0 < fold_right Rplus 0 ws →
  actual_com (calculate_com (set_sensor_weights ws self))
  = (fold_right Rplus 0
       (zip_with (λ w p, w * p.1) (take 4 ws) [p0; p1; p2; p3])
       / fold_right Rplus 0 ws,
     fold_right Rplus 0
       (zip_with (λ w p, w * p.2) (take 4 ws) [p0; p1; p2; p3])
       / fold_right Rplus 0 ws).
Proof.
  intros Hps Hlen Htot.
  rewrite calculate_com_positive;
    cbn [sensor_weights sensor_positions set_sensor_weights].
  - rewrite Hps, !sum_fold_right, (map_zip (λ w p, w * p.1)),
      (map_zip (λ w p, w * p.2)).
    destruct ws as [|w0 [|w1 [|w2 [|w3 rest]]]]; simpl in Hlen; try lia.
    by destruct rest.
  - by rewrite sum_fold_right.
Qed.

End SurplusValues.

(** C10.  With more than four values and no tare, every processed value
    is stored, none is dropped.  With four sensor positions and a
    positive total, the weighted sums of the COM run over the first four
    weights only while the divisor is the total of all stored weights.
    So, when the first four weights have a positive sum, the COM is the
    COM of the call with the first four values alone, scaled towards the
    origin by a factor in (0, 1], which is below 1 exactly when the
    surplus weights have a positive sum. *)
Theorem surplus_values_dilute_com (self : WeightDistribution.t)
    (values : list R) (pre_calibrated : bool) (p0 p1 p2 p3 : R * R) :
  (4 < length values)%nat →
  WeightDistribution.sensor_positions self = [p0; p1; p2; p3] →
  let processed :=
    map (λ val, if pre_calibrated then Rabs val else Rmax 0 val)
        (WeightDistribution.calibrated_values self values pre_calibrated) in
  let self' :=
    WeightDistribution.update_sensor_data self values None pre_calibrated in
  let self4 :=
    WeightDistribution.update_sensor_data self (take 4 values) None
      pre_calibrated in
  let ps := [p0; p1; p2; p3] in
  let total := fold_right Rplus 0 processed in
  let total4 := fold_right Rplus 0 (take 4 processed) in
  let surplus := fold_right Rplus 0 (drop 4 processed) in
  let sx :=
    fold_right Rplus 0 (zip_with (λ w p, w * p.1) (take 4 processed) ps) in
  let sy :=
    fold_right Rplus 0 (zip_with (λ w p, w * p.2) (take 4 processed) ps) in
  WeightDistribution.sensor_weights self' = processed
  ∧ length (WeightDistribution.sensor_weights self') = length values
  ∧ (0 < total →
     WeightDistribution.actual_com self' = (sx / total, sy / total))
  ∧ (0 < total4 →
     WeightDistribution.actual_com self4 = (sx / total4, sy / total4)
     ∧ 0 < total4 / total <= 1
     ∧ (total4 / total < 1 ↔ 0 < surplus)
     ∧ WeightDistribution.actual_com self'
       = (total4 / total * (WeightDistribution.actual_com self4).1,
          total4 / total * (WeightDistribution.actual_com self4).2)).
Proof.
  intros Hlen Hps processed self' self4 ps total total4 surplus sx sy.
  assert (Hlenp : length processed = length values).
  { subst processed. rewrite length_map. apply calibrated_values_length. }
  assert (Hrun : self'
    = WeightDistribution.calculate_com
        (WeightDistribution.set_sensor_weights processed self)).
  { subst self'. apply update_sensor_data_untared. lia. }
  assert (Hrun4 : self4
    = WeightDistribution.calculate_com
        (WeightDistribution.set_sensor_weights (take 4 processed) self)).
  { subst self4. rewrite update_sensor_data_untared
      by (rewrite length_take; lia).
    rewrite calibrated_values_take. subst processed.
    by rewrite <- firstn_map. }
  assert (Hws : WeightDistribution.sensor_weights self' = processed).
  { by rewrite Hrun, calculate_com_weights. }
  assert (Hnn : Forall (λ w, 0 <= w) processed).
  { subst processed. apply Forall_forall. intros w Hw.
    apply list_elem_of_In, in_map_iff in Hw as (v & <- & _).
    destruct pre_calibrated; [apply Rabs_pos | apply Rmax_l]. }
  assert (Hcom : 0 < total →
    WeightDistribution.actual_com self' = (sx / total, sy / total)).
  { intros Htot. rewrite Hrun.
    apply calculate_com_four_positions; [done | lia | done]. }
  assert (Hsplit : total = total4 + surplus).
  { subst total total4 surplus.
    rewrite <- (take_drop 4 processed) at 1.
    by rewrite <- !sum_fold_right, sum_app. }
  assert (Hsurplus : 0 <= surplus).
  { subst surplus. rewrite <- sum_fold_right. apply sum_nonneg.
    rewrite <- (take_drop 4 processed) in Hnn.
    by apply Forall_app in Hnn as [_ ?]. }
  split; [exact Hws|]. split; [by rewrite Hws|]. split; [exact Hcom|].
  intros H4.
  assert (Htot : 0 < total) by lra.
  assert (Hcom4 :
    WeightDistribution.actual_com self4 = (sx / total4, sy / total4)).
  { rewrite Hrun4.
    rewrite (calculate_com_four_positions self (take 4 processed)
               p0 p1 p2 p3 Hps).
    - by rewrite take_take.
    - rewrite length_take. lia.
    - exact H4. }
  assert (Hratio : total4 / total * total = total4) by (field; lra).
  split; [exact Hcom4|]. split; [|split].
  - split.
    + apply Rdiv_lt_0_compat; lra.
    + apply (Rmult_le_reg_r total); lra.
  - split.
    + intros Hlt. apply (Rmult_lt_compat_r total) in Hlt; lra.
    + intros Hpos. apply (Rmult_lt_reg_r total); lra.
  - rewrite Hcom, Hcom4 by done. simpl. f_equal; field; lra.
Qed.

Lemma surplus_values_dilute_com_witness :
  WeightDistribution.sensor_weights
    (WeightDistribution.update_sensor_data
       (WeightDistribution.set_sensor_positions
          [(0, 0); (2, 0); (0, 2); (2, 2)] (WeightDistribution.init None))
       [1; 1; 1; 1; 4] None false)
  = [Rmax 0 1; Rmax 0 1; Rmax 0 1; Rmax 0 1; Rmax 0 4]
  ∧ WeightDistribution.actual_com
      (WeightDistribution.update_sensor_data
         (WeightDistribution.set_sensor_positions
            [(0, 0); (2, 0); (0, 2); (2, 2)] (WeightDistribution.init None))
         [1; 1; 1; 1] None false)
    = (1, 1)
  ∧ WeightDistribution.actual_com
      (WeightDistribution.update_sensor_data
         (WeightDistribution.set_sensor_positions
            [(0, 0); (2, 0); (0, 2); (2, 2)] (WeightDistribution.init None))
         [1; 1; 1; 1; 4] None false)
    = (1 / 2, 1 / 2).
Proof.
  assert (Hlen : (4 < length [1; 1; 1; 1; 4]%R)%nat) by (simpl; lia).
  destruct (surplus_values_dilute_com
              (WeightDistribution.set_sensor_positions
                 [(0, 0); (2, 0); (0, 2); (2, 2)]
                 (WeightDistribution.init None))
              [1; 1; 1; 1; 4] false (0, 0) (2, 0) (0, 2) (2, 2) Hlen
              eq_refl) as (Hstored & _ & Hcom & Hshrink).
  assert (H1 : Rmax 0 1 = 1) by (apply Rmax_right; lra).
  assert (H4 : Rmax 0 4 = 4) by (apply Rmax_right; lra).
  simpl in Hstored, Hcom, Hshrink. rewrite H1, H4 in Hcom, Hshrink.
  split; [exact Hstored|]. split.
  - destruct Hshrink as (Hfour & _); [lra|].
    rewrite Hfour. f_equal; lra.
  - rewrite Hcom by lra. f_equal; lra.
Defined.

(** *** The view transform *)

(** The vertical view coordinate that [transform_point] computes: the
    [* -1] cancels the subtraction from [min_y], leaving [y] itself. *)
Lemma transform_point_vertical (point : R * R)
    (scale offset_x offset_y min_x min_y : R) :
  (WeightDistribution.transform_point point scale offset_x offset_y
     min_x min_y).2
  = offset_y + point.2 * scale.
Proof. unfold WeightDistribution.transform_point. simpl. lra. Qed.

(** With a positive scale a larger data [y] gives a larger view [y]: the
    axis is not flipped. *)
Lemma transform_point_increasing (x1 y1 x2 y2 : R)
    (scale offset_x offset_y min_x min_y : R) :
  0 < scale → y1 < y2 →
  (WeightDistribution.transform_point (x1, y1) scale offset_x offset_y
     min_x min_y).2
  < (WeightDistribution.transform_point (x2, y2) scale offset_x offset_y
       min_x min_y).2.
Proof. intros Hs Hy. rewrite !transform_point_vertical. simpl. nra. Qed.

(** The tooltip code of [live_feed.py] inverts the flipped formula
    [offset_y + (2 * min_y - y) * scale] ... *)
Lemma tooltip_data_inverts_flip (vx y scale offset_x offset_y min_x min_y : R) :
  scale ≠ 0 →
  (WeightDistribution.tooltip_data
     (vx, offset_y + (2 * min_y - y) * scale)
     scale offset_x offset_y min_x min_y).2 = y.
Proof.
  intros Hs. unfold WeightDistribution.tooltip_data. simpl. field. exact Hs.
Qed.

(** ... and so does not invert [transform_point]. *)
Lemma tooltip_data_not_inverse :
  (WeightDistribution.tooltip_data
     (WeightDistribution.transform_point (0, 1) 1 0 0 0 0) 1 0 0 0 0).2
  = -1.
Proof.
  unfold WeightDistribution.tooltip_data, WeightDistribution.transform_point.
  simpl. lra.
Qed.

(** C2.  At the point [(0, 1)] with unit scale and zero offsets and
    minima, [transform_point] returns the vertical coordinate [1], where
    the flip formula [offset_y + (2 * min_y - y) * scale] gives [-1]. *)
Theorem transform_point_not_flipped :
  (WeightDistribution.transform_point (0, 1) 1 0 0 0 0).2 = 1
  ∧ (WeightDistribution.transform_point (0, 1) 1 0 0 0 0).2
    ≠ 0 + (2 * 0 - 1) * 1.
Proof.
  rewrite transform_point_vertical. simpl. split; lra.
Qed.

(** ** TrayOptimizer *)

(** C4.  When the available weight is not positive the optimizer returns
    at once: empty trays, empty effect maps, the initial weight as total,
    and the COM of the unmodified inputs as [final_com]. *)
Theorem no_budget_returns_current_state
    (sensor_weights : list R) (sensor_positions : list (R * R))
    (ideal_com : R * R) (bias_settings : gmap string R)
    (general_settings : gmap string (gmap string num))
    (tray_flags : gmap string bool)
    (max_weight : R) (max_weight_unit : string) (threshold : option R) :
  TrayOptimizer.convert_to_grams max_weight max_weight_unit
    - fold_right Rplus 0 sensor_weights <= 0 →
  ∃ r : TrayOptimizer.TrayLayoutResult,
    TrayOptimizer.compute_optimal_tray_layout sensor_weights
      sensor_positions ideal_com bias_settings general_settings tray_flags
      max_weight max_weight_unit threshold = Ok r
    ∧ TrayOptimizer.front_tray r = []
    ∧ TrayOptimizer.back_tray r = []
    ∧ TrayOptimizer.effect_map r
      = {| TrayOptimizer.of_front := []; TrayOptimizer.of_back := [] |}
    ∧ TrayOptimizer.total_weight r = fold_right Rplus 0 sensor_weights
    ∧ TrayOptimizer.final_com r
      = TrayOptimizer.calculate_com sensor_weights sensor_positions.
Proof.
  intros Havail. unfold TrayOptimizer.compute_optimal_tray_layout.
  rewrite leb_true by (rewrite sum_fold_right; exact Havail).
  eexists. split; [reflexivity|]. simpl.
  rewrite sum_fold_right. done.
Qed.

Lemma no_budget_returns_current_state_witness :
  ∃ r : TrayOptimizer.TrayLayoutResult,
    TrayOptimizer.compute_optimal_tray_layout [1000] [(0, 0)] (0, 0) ∅ ∅ ∅
      500 "g" None = Ok r
    ∧ TrayOptimizer.front_tray r = []
    ∧ TrayOptimizer.back_tray r = []
    ∧ TrayOptimizer.effect_map r
      = {| TrayOptimizer.of_front := []; TrayOptimizer.of_back := [] |}
    ∧ TrayOptimizer.total_weight r = fold_right Rplus 0 [1000]
    ∧ TrayOptimizer.final_com r
      = TrayOptimizer.calculate_com [1000] [(0, 0)].
Proof.
  apply no_budget_returns_current_state.
  unfold TrayOptimizer.convert_to_grams, Cal_Math.convert_unit. simpl. lra.
Defined.

(** *** The error monad *)

Lemma bind_Ok {A B} (m : result A) (k : A → result B) (b : B) :
  m ≫= k = Ok b → ∃ a, m = Ok a ∧ k a = Ok b.
Proof. destruct m as [a|e]; simpl; [eauto | discriminate]. Qed.

Lemma bind_Ok_l {A B} (m : result A) (k : A → result B) (a : A) :
  m = Ok a → m ≫= k = k a.
Proof. by intros ->. Qed.

(** Inverts [_ ≫= _ = Ok _] hypotheses. *)
Ltac inv_bind H :=
  let a := fresh "a" in
  let Ha := fresh "H" a in
  apply bind_Ok in H as (a & Ha & H).

(** *** The greedy loop *)

Section PlaceFacts.

Import TrayOptimizer.

(** The loop places a prefix of the candidates, one unit each, and never
    goes past the available weight. *)
Lemma place_prefix (available : R) (candidates : list candidate)
    (st st' : placement) :
  place available candidates st = Ok st' →
  ∃ n : nat,
    (n <= length candidates)%nat
    ∧ used_slots st' = used_slots st ++ take n candidates
    ∧ added_weight st' = added_weight st + effect_weight_grams * INR n
    ∧ (added_weight st <= available → added_weight st' <= available)
    ∧ ((n < length candidates)%nat →
         available < added_weight st' + effect_weight_grams).
Proof.
  revert st. induction candidates as [|s rest IH]; intros st Hplace.
  - injection Hplace as <-. exists 0%nat. simpl.
    rewrite app_nil_r. repeat split; try done; try lra. lia.
  - simpl in Hplace.
    destruct (Py.ltb available _) eqn:Hfull.
    + injection Hplace as <-. exists 0%nat. simpl.
      rewrite app_nil_r. apply ltb_spec in Hfull.
      repeat split; try done; try lra. lia.
    + inv_bind Hplace. inv_bind Hplace.
      apply IH in Hplace as (n & Hn & Hused & Hadded & Hle & Hstop).
      simpl in *. exists (S n).
      assert (Hfit : added_weight st + effect_weight_grams <= available).
      { destruct (Rle_dec (added_weight st + effect_weight_grams) available)
          as [?|Hgt]; [done|].
        rewrite ltb_true in Hfull by lra. discriminate. }
      split; [lia|]. split; [by rewrite Hused, <- app_assoc|].
      split; [rewrite Hadded, S_INR; lra|].
      split; [intros _; by apply Hle|].
      intros Hlt. apply Hstop. lia.
Qed.

End PlaceFacts.

(** *** The two ways the optimizer returns *)

Section OptimizerCases.

Import TrayOptimizer.

Variables (sensor_weights : list R) (sensor_positions : list (R * R)).
Variables (ideal_com : R * R) (bias_settings : gmap string R).
Variables (general_settings : gmap string (gmap string num)).
Variables (tray_flags : gmap string bool).
Variables (max_weight : R) (max_weight_unit : string).
Variable threshold : option R.

Let ideal' : R * R := apply_bias_to_com ideal_com bias_settings.
Let available : R :=
  convert_to_grams max_weight max_weight_unit - Py.sum sensor_weights.
Let original_disp : R :=
  calculate_displacement (calculate_com sensor_weights sensor_positions)
    ideal'.

Abbreviation ranked :=
  (Layout.ranked sensor_weights sensor_positions ideal' threshold).

Lemma compute_cases (r : TrayLayoutResult) :
  compute_optimal_tray_layout sensor_weights sensor_positions ideal_com
    bias_settings general_settings tray_flags max_weight max_weight_unit
    threshold = Ok r →
  (available <= 0
   ∧ r = {| front_tray := []; back_tray := [];
            final_com := calculate_com sensor_weights sensor_positions;
            displacement := original_disp;
            total_weight := Py.sum sensor_weights;
            effect_map := {| of_front := []; of_back := [] |} |})
  ∨ (0 < available
     ∧ ∃ (g : grid) (st : placement) (eff : per_tray (list (list R))),
         build_slots general_settings tray_flags = Ok g
         ∧ place available (ranked (g_slots g))
             {| p_layout := g_layout g; p_effect := g_effect g;
                added_weight := 0; used_slots := [] |} = Ok st
         ∧ normalize (p_effect st) (used_slots st) = Ok eff
         ∧ r = {| front_tray := of_front (p_layout st);
                  back_tray := of_back (p_layout st);
                  final_com :=
                    calculate_com
                      (sensor_weights
                         ++ map (λ _, effect_weight_grams) (used_slots st))
                      (sensor_positions
                         ++ map (λ s : candidate, (x s, y s))
                              (used_slots st));
                  displacement :=
                    calculate_displacement
                      (calculate_com
                         (sensor_weights
                            ++ map (λ _, effect_weight_grams)
                                 (used_slots st))
                         (sensor_positions
                            ++ map (λ s : candidate, (x s, y s))
                                 (used_slots st)))
                      ideal';
                  total_weight := Py.sum sensor_weights + added_weight st;
                  effect_map := eff |}).
Proof.
  unfold compute_optimal_tray_layout. fold ideal' available.
  destruct (Py.leb available 0) eqn:Hav.
  - intros [= <-]. left. apply leb_spec in Hav. done.
  - intros H. right.
    assert (0 < available).
    { destruct (Rlt_dec 0 available); [done|].
      rewrite leb_true in Hav by lra. discriminate. }
    split; [done|].
    inv_bind H. inv_bind H. inv_bind H. injection H as <-.
    eauto 10.
Qed.

(** The same, read forwards: how a run with budget left is assembled. *)
Lemma compute_assemble (g : grid) (st : placement)
    (eff : per_tray (list (list R))) :
  0 < available →
  build_slots general_settings tray_flags = Ok g →
  place available (ranked (g_slots g))
    {| p_layout := g_layout g; p_effect := g_effect g;
       added_weight := 0; used_slots := [] |} = Ok st →
  normalize (p_effect st) (used_slots st) = Ok eff →
  compute_optimal_tray_layout sensor_weights sensor_positions ideal_com
    bias_settings general_settings tray_flags max_weight max_weight_unit
    threshold
  = Ok {| front_tray := of_front (p_layout st);
          back_tray := of_back (p_layout st);
          final_com :=
            calculate_com
              (sensor_weights
                 ++ map (λ _, effect_weight_grams) (used_slots st))
              (sensor_positions
                 ++ map (λ s : candidate, (x s, y s)) (used_slots st));
          displacement :=
            calculate_displacement
              (calculate_com
                 (sensor_weights
                    ++ map (λ _, effect_weight_grams) (used_slots st))
                 (sensor_positions
                    ++ map (λ s : candidate, (x s, y s)) (used_slots st)))
              ideal';
          total_weight := Py.sum sensor_weights + added_weight st;
          effect_map := eff |}.
Proof.
  intros Hav Hg Hst Heff.
  unfold compute_optimal_tray_layout. fold ideal' available.
  rewrite leb_false by done. rewrite Hg. simpl.
  unfold Layout.ranked in Hst. simpl in Hst. rewrite Hst. simpl.
  rewrite Heff. reflexivity.
Qed.

End OptimizerCases.

(** *** Budget *)

(** A call whose sensors already weigh more than the limit returns their
    weight as [total_weight]: 1000 g against a limit of 500 g. *)
Lemma total_weight_exceeds_limit :
  ∃ r : TrayOptimizer.TrayLayoutResult,
    TrayOptimizer.compute_optimal_tray_layout [1000] [(0, 0)] (0, 0) ∅ ∅ ∅
      500 "g" None = Ok r
    ∧ ¬ TrayOptimizer.total_weight r
        <= TrayOptimizer.convert_to_grams 500 "g".
Proof.
  eexists. split.
  - unfold TrayOptimizer.compute_optimal_tray_layout.
    rewrite leb_true; [reflexivity|].
    unfold TrayOptimizer.convert_to_grams, Cal_Math.convert_unit, Py.sum.
    simpl. lra.
  - unfold TrayOptimizer.convert_to_grams, Cal_Math.convert_unit, Py.sum.
    simpl. lra.
Qed.

(** C1 (amended).  For every returned result, [total_weight] exceeds the
    initial sensor weight by a whole number of 113 g units; it stays
    within the limit in grams whenever the initial weight does, and
    equals the initial weight otherwise. *)
Theorem total_weight_budget
    (sensor_weights : list R) (sensor_positions : list (R * R))
    (ideal_com : R * R) (bias_settings : gmap string R)
    (general_settings : gmap string (gmap string num))
    (tray_flags : gmap string bool)
    (max_weight : R) (max_weight_unit : string) (threshold : option R)
    (r : TrayOptimizer.TrayLayoutResult) :
  TrayOptimizer.compute_optimal_tray_layout sensor_weights sensor_positions
    ideal_com bias_settings general_settings tray_flags max_weight
    max_weight_unit threshold = Ok r →
  let initial_weight := fold_right Rplus 0 sensor_weights in
  let max_weight_g :=
    TrayOptimizer.convert_to_grams max_weight max_weight_unit in
  (∃ n : nat,
     TrayOptimizer.total_weight r - initial_weight = 113 * INR n)
  ∧ (initial_weight <= max_weight_g →
     TrayOptimizer.total_weight r <= max_weight_g)
  ∧ (max_weight_g < initial_weight →
     TrayOptimizer.total_weight r = initial_weight).
Proof.
  intros Hr initial_weight max_weight_g.
  subst initial_weight max_weight_g. rewrite <- sum_fold_right.
  apply compute_cases in Hr
    as [[Hav ->] | (Hav & g & st & eff & _ & Hplace & _ & ->)]; simpl.
  - split; [|split].
    + exists 0%nat. simpl. lra.
    + lra.
    + done.
  - apply place_prefix in Hplace as (n & _ & _ & Hadded & Hle & _).
    simpl in Hadded, Hle. unfold TrayOptimizer.effect_weight_grams in *.
    split; [|split].
    + exists n. lra.
    + intros _. apply Rlt_le, Hle in Hav. lra.
    + lra.
Qed.

(** *** Reading and writing cells *)

Section CellFacts.

Import TrayOptimizer Layout.

Context {A : Type}.

Implicit Types (m : list (list A)) (d : per_tray (list (list A))).

Lemma get_set_eq (t : tray_name) (a : list (list A)) d :
  get t (set t a d) = a.
Proof. by destruct t. Qed.

Lemma get_set_ne (t t' : tray_name) (a : list (list A)) d :
  t ≠ t' → get t' (set t a d) = get t' d.
Proof. by destruct t, t'. Qed.

Lemma setitem2_lookup m (i j : nat) (v : A) m' :
  setitem2 m i j v = Ok m' →
  ∀ i' j' : nat,
    m' !! i' ≫= (λ r, r !! j')
    = if decide (i' = i ∧ j' = j) then Some v
      else m !! i' ≫= (λ r, r !! j').
Proof.
  unfold setitem2. destruct (m !! i) as [r|] eqn:Hr; [|discriminate].
  destruct (decide (j < length r)%nat) as [Hj|]; [|discriminate].
  intros [= <-] i' j'.
  destruct (decide (i' = i)) as [->|Hi].
  - rewrite list_lookup_insert_eq by (by eapply lookup_lt_Some). simpl.
    destruct (decide (j' = j)) as [->|Hj'].
    + rewrite list_lookup_insert_eq by done. by rewrite decide_True.
    + rewrite list_lookup_insert_ne by done.
      rewrite decide_False by (intros [_ ?]; done). by rewrite Hr.
  - rewrite list_lookup_insert_ne by done.
    by rewrite decide_False by (intros [? _]; done).
Qed.

Lemma setitem2_defined m (i j : nat) (v : A) :
  is_Some (m !! i ≫= (λ r, r !! j)) → ∃ m', setitem2 m i j v = Ok m'.
Proof.
  unfold setitem2. destruct (m !! i) as [r|]; simpl.
  - intros Hj. apply lookup_lt_is_Some in Hj.
    rewrite decide_True by done. eauto.
  - by intros [? ?].
Qed.

(** Writing one cell of a two-tray dict changes that cell only. *)
Lemma write_cell d (t : tray_name) (i j : nat) (v : A) m' :
  setitem2 (get t d) i j v = Ok m' →
  ∀ k, cell (set t m' d) k
       = if decide (k = (t, i, j)) then Some v else cell d k.
Proof.
  intros Hset [[t' i'] j']. unfold cell. simpl.
  destruct (decide (t = t')) as [<-|Ht].
  - rewrite get_set_eq, (setitem2_lookup _ _ _ _ _ Hset).
    destruct (decide (i' = i ∧ j' = j)) as [[-> ->]|Hne].
    + by rewrite decide_True.
    + rewrite decide_False; [done|]. intros [= -> ->]. naive_solver.
  - rewrite get_set_ne by done.
    rewrite decide_False; [done|]. intros [= -> -> ->]. done.
Qed.

Lemma write_defined d (k : tray_name * nat * nat) (v : A) :
  is_Some (cell d k) → ∃ m', setitem2 (get k.1.1 d) k.1.2 k.2 v = Ok m'.
Proof. apply setitem2_defined. Qed.

Lemma getitem2_cell d (t : tray_name) (i j : nat) :
  getitem2 (get t d) i j
  = match cell d (t, i, j) with
    | Some v => Ok v
    | None => Raise IndexError
    end.
Proof.
  unfold getitem2, cell. simpl.
  destruct (get t d !! i) as [r|]; simpl; [|done].
  by destruct (r !! j).
Qed.

(** A constant matrix built by the two comprehensions. *)
Lemma constant_matrix_lookup {B C} (c : A) (rows : list B) (cols : list C)
    (i j : nat) :
  map (λ _, map (λ _, c) cols) rows !! i ≫= (λ r, r !! j)
  = if decide (i < length rows ∧ j < length cols)%nat then Some c
    else None.
Proof.
  rewrite list_lookup_fmap.
  destruct (rows !! i) as [b|] eqn:Hi; simpl.
  - apply lookup_lt_Some in Hi. rewrite list_lookup_fmap.
    destruct (cols !! j) as [c'|] eqn:Hj; simpl.
    + apply lookup_lt_Some in Hj. by rewrite decide_True.
    + apply lookup_ge_None in Hj. rewrite decide_False; [done|lia].
  - apply lookup_ge_None in Hi. rewrite decide_False; [done|lia].
Qed.

End CellFacts.

(** *** The slot grid *)

Section GridFacts.

Import TrayOptimizer Layout.

Lemma cell_set {A} (t : tray_name) (m : list (list A))
    (d : per_tray (list (list A))) (k : tray_name * nat * nat) :
  cell (set t m d) k
  = if decide (k.1.1 = t) then m !! k.1.2 ≫= (λ r, r !! k.2)
    else cell d k.
Proof.
  destruct k as [[t' i] j]. unfold cell. simpl.
  destruct (decide (t' = t)) as [->|Hne].
  - by rewrite get_set_eq.
  - by rewrite get_set_ne.
Qed.

(** The keys of a grid enumerated row by row are pairwise distinct. *)
Lemma grid_keys_NoDup (name : tray_name) (f : nat → nat → slot)
    (rows cols : list nat) :
  (∀ i j, key (f i j) = (name, i, j)) →
  NoDup rows → NoDup cols →
  NoDup (map key (flat_map (λ i, map (λ j, f i j) cols) rows)).
Proof.
  intros Hkey Hrows Hcols.
  induction Hrows as [|i rows Hi Hrows IH]; simpl; [constructor|].
  rewrite map_app. apply NoDup_app. split; [|split].
  - rewrite map_map.
    rewrite (map_ext (λ j, key (f i j)) (λ j, (name, i, j))
               (λ j, Hkey i j)).
    assert (Inj (=) (=) (λ j : nat, (name, i, j)))
      by (by intros j j' [= ->]).
    by apply (NoDup_fmap_2 (λ j, (name, i, j))).
  - intros k Hk Hk'.
    apply list_elem_of_In, in_map_iff in Hk as (s & <- & Hs).
    apply in_map_iff in Hs as (j & <- & _).
    apply list_elem_of_In, in_map_iff in Hk' as (s' & Heq & Hs').
    apply in_flat_map in Hs' as (i' & Hi' & Hs').
    apply in_map_iff in Hs' as (j' & <- & _).
    rewrite !Hkey in Heq. injection Heq as -> ->.
    apply Hi. by apply list_elem_of_In.
  - exact IH.
Qed.

Lemma range_seq (n : num) (l : list nat) :
  range n = Ok l → l = seq 0 (length l).
Proof.
  destruct n as [z|]; [|discriminate]. intros [= <-].
  by rewrite length_seq.
Qed.

(** What one enabled tray contributes. *)
Lemma tray_grid_spec (name : tray_name) (settings : gmap string num)
    (layout : list (list nat)) (effect : list (list R))
    (slots : list slot) :
  tray_grid name settings = Ok (layout, effect, slots) →
  ∃ nr nc : nat,
    (∀ i j : nat, layout !! i ≫= (λ r, r !! j)
        = if decide (i < nr ∧ j < nc)%nat then Some 0%nat else None)
    ∧ (∀ i j : nat, effect !! i ≫= (λ r, r !! j)
        = if decide (i < nr ∧ j < nc)%nat then Some 0 else None)
    ∧ NoDup (map key slots)
    ∧ (∀ s, s ∈ slots →
         tray s = name ∧ (row s < nr)%nat ∧ (col s < nc)%nat).
Proof.
  unfold tray_grid. intros H.
  do 6 inv_bind H.
  apply bind_Ok in H as (rr & Hrr & H).
  apply bind_Ok in H as (cr & Hcr & H).
  injection H as <- <- <-.
  apply range_seq in Hrr.
  assert (Hcr' : cr = seq 0 (length cr)).
  { destruct (decide (rr = [])); [by injection Hcr as <-|].
    by apply range_seq in Hcr. }
  exists (length rr), (length cr). split; [|split; [|split]].
  - intros i j. apply constant_matrix_lookup.
  - intros i j. apply constant_matrix_lookup.
  - apply (grid_keys_NoDup name); [done| |].
    + rewrite Hrr. apply NoDup_seq.
    + rewrite Hcr'. apply NoDup_seq.
  - intros s Hs.
    apply list_elem_of_In, in_flat_map in Hs as (i & Hi & Hs).
    apply in_map_iff in Hs as (j & <- & Hj). simpl.
    rewrite Hrr in Hi. rewrite Hcr' in Hj.
    apply in_seq in Hi, Hj. split; [done|]. lia.
Qed.

Lemma blank_empty_grid : blank empty_grid.
Proof.
  split; [constructor|]. split.
  - intros s Hs. by apply elem_of_nil in Hs.
  - intros [[[] i] j] v; unfold cell; simpl; discriminate.
Qed.

(** One iteration of the tray loop keeps the grid blank, provided the
    tray was not filled before. *)
Lemma add_tray_blank (general_settings : gmap string (gmap string num))
    (tray_flags : gmap string bool) (name : tray_name) (g0 g : grid) :
  add_tray general_settings tray_flags name g0 = Ok g →
  blank g0 →
  (∀ s, s ∈ g_slots g0 → tray s ≠ name) →
  blank g ∧ (∀ s, s ∈ g_slots g → s ∈ g_slots g0 ∨ tray s = name).
Proof.
  unfold add_tray. destruct (negb _).
  { intros [= <-] Hb _. split; [done|]. auto. }
  intros H (Hnd & Hslots & Hcells) Hother.
  inv_bind H.
  apply bind_Ok in H as ([[layout effect] slots] & Hgrid & H).
  injection H as <-.
  apply tray_grid_spec in Hgrid as (nr & nc & Hlay & Heff & Hnd' & Hin).
  split; [split; [|split]|]; simpl.
  - rewrite map_app. apply NoDup_app. split; [done|]. split; [|done].
    intros k Hk Hk'.
    apply list_elem_of_In, in_map_iff in Hk as (s & <- & Hs).
    apply list_elem_of_In, in_map_iff in Hk' as (s' & Heq & Hs').
    apply list_elem_of_In in Hs, Hs'.
    apply (Hother s Hs). destruct (Hin s' Hs') as [<- _].
    by injection Heq.
  - intros s Hs. rewrite cell_set. simpl.
    apply elem_of_app in Hs as [Hs|Hs].
    + rewrite decide_False by (by apply Hother). by apply Hslots.
    + destruct (Hin s Hs) as (Ht & Hr & Hc).
      rewrite decide_True by done. rewrite Hlay.
      by rewrite decide_True.
  - intros k v. rewrite !cell_set.
    destruct (decide (k.1.1 = name)); [|apply Hcells].
    rewrite Hlay, Heff.
    destruct (decide _); [by intros [= <-] | discriminate].
  - intros s Hs. apply elem_of_app in Hs as [Hs|Hs]; [by left|].
    right. by destruct (Hin s Hs).
Qed.

(** Every grid that [build_slots] returns is blank. *)
Lemma build_slots_blank (general_settings : gmap string (gmap string num))
    (tray_flags : gmap string bool) (g : grid) :
  build_slots general_settings tray_flags = Ok g → blank g.
Proof.
  unfold build_slots. intros H.
  apply bind_Ok in H as (g1 & Hfront & Hback).
  apply add_tray_blank in Hfront as [Hblank Hfrom];
    [|apply blank_empty_grid|intros s Hs; by apply elem_of_nil in Hs].
  apply add_tray_blank in Hback as [Hblank' _]; [done..|].
  intros s Hs.
  destruct (Hfrom s Hs) as [Hnil | ->]; [by apply elem_of_nil in Hnil|done].
Qed.

End GridFacts.

(** *** What the greedy loop and the normalisation write *)

Section WriteFacts.

Import TrayOptimizer Layout.

Lemma keys_cons (c : candidate) (cs : list candidate) :
  keys (c :: cs) = key c :: keys cs.
Proof. reflexivity. Qed.

Lemma elem_of_keys (c : candidate) (cs : list candidate) :
  c ∈ cs → key c ∈ keys cs.
Proof.
  intros Hc. apply list_elem_of_In, in_map_iff. exists c.
  split; [done|]. by apply list_elem_of_In.
Qed.

Lemma keys_take_subseteq (n : nat) (cs : list candidate) k :
  k ∈ keys (take n cs) → k ∈ keys cs.
Proof.
  intros Hk. apply list_elem_of_In, in_map_iff in Hk as (c & <- & Hc).
  apply elem_of_keys. apply list_elem_of_In in Hc.
  apply elem_of_take in Hc as (i & Hi & _).
  by eapply list_elem_of_lookup_2.
Qed.

(** The loop never raises on candidates whose cells exist; it marks the
    cells of the placed prefix and leaves the others alone. *)
Lemma place_cells (available : R) (candidates : list candidate)
    (st : placement) :
  NoDup (keys candidates) →
  (∀ s : candidate, s ∈ candidates →
     is_Some (cell (p_layout st) (key s))
     ∧ is_Some (cell (p_effect st) (key s))) →
  ∃ (st' : placement) (n : nat),
    place available candidates st = Ok st'
    ∧ used_slots st' = used_slots st ++ take n candidates
    ∧ (∀ k, k ∉ keys (take n candidates) →
         cell (p_layout st') k = cell (p_layout st) k
         ∧ cell (p_effect st') k = cell (p_effect st) k)
    ∧ (∀ s : candidate, s ∈ take n candidates →
         cell (p_layout st') (key s) = Some 1%nat
         ∧ cell (p_effect st') (key s) = Some (percent_improvement s)).
Proof.
  revert st. induction candidates as [|s rest IH]; intros st Hnd Hcells.
  { exists st, 0%nat. simpl. rewrite app_nil_r.
    split; [done|]. split; [done|]. split; [done|].
    intros s' Hs. by apply elem_of_nil in Hs. }
  simpl. destruct (Py.ltb available _).
  { exists st, 0%nat. simpl. rewrite app_nil_r.
    split; [done|]. split; [done|]. split; [done|].
    intros s' Hs. by apply elem_of_nil in Hs. }
  rewrite keys_cons in Hnd. apply NoDup_cons in Hnd as [Hfresh Hnd].
  destruct (Hcells s) as [Hlay Heff]; [by left|].
  apply (write_defined _ _ 1%nat) in Hlay as [lay Hlay].
  apply (write_defined _ _ (percent_improvement s)) in Heff as [eff Heff].
  simpl in Hlay, Heff. rewrite Hlay, Heff. simpl.
  pose proof (write_cell _ _ _ _ _ _ Hlay) as Hlay'.
  pose proof (write_cell _ _ _ _ _ _ Heff) as Heff'.
  fold (key s) in Hlay', Heff'.
  edestruct (IH {| p_layout := set (tray s) lay (p_layout st);
                   p_effect := set (tray s) eff (p_effect st);
                   added_weight := added_weight st + effect_weight_grams;
                   used_slots := used_slots st ++ [s] |})
    as (st' & n & Hplace & Hused & Hother & Hmarked); [done| |].
  { intros s' Hs'. simpl. rewrite Hlay', Heff'.
    destruct (decide (key s' = key s)); [by split; eexists|].
    apply Hcells. by right. }
  simpl in *. exists st', (S n). split; [done|].
  split; [by rewrite Hused, <- app_assoc|]. split.
  - intros k Hk.
    change (take (S n) (s :: rest)) with (s :: take n rest) in Hk.
    rewrite keys_cons in Hk.
    apply not_elem_of_cons in Hk as [Hne Hk].
    destruct (Hother k Hk) as [-> ->]. rewrite Hlay', Heff'.
    by rewrite !decide_False by done.
  - intros s' Hs'.
    change (take (S n) (s :: rest)) with (s :: take n rest) in Hs'.
    apply elem_of_cons in Hs' as [->|Hs'].
    + destruct (Hother (key s)) as [-> ->].
      { intros Hin. by apply Hfresh, (keys_take_subseteq n). }
      rewrite Hlay', Heff'. by rewrite !decide_True by done.
    + by apply Hmarked.
Qed.

(** [max(xs)] is an element of a non-empty [xs] and bounds it. *)
Lemma fold_left_max2 (xs : list R) (a : R) :
  (fold_left Py.max2 xs a = a ∨ fold_left Py.max2 xs a ∈ xs)
  ∧ a <= fold_left Py.max2 xs a
  ∧ ∀ x, x ∈ xs → x <= fold_left Py.max2 xs a.
Proof.
  revert a. induction xs as [|x xs IH]; intros a; simpl.
  { split; [by left|]. split; [lra|]. intros x Hx.
    by apply elem_of_nil in Hx. }
  destruct (IH (Py.max2 a x)) as (Hin & Hge & Hall).
  assert (Hmax : a <= Py.max2 a x ∧ x <= Py.max2 a x
                 ∧ (Py.max2 a x = a ∨ Py.max2 a x = x)).
  { unfold Py.max2. destruct (Rlt_dec a x); split; try lra.
    all: split; [lra | auto]. }
  destruct Hmax as (Ha & Hx & Hor). split; [|split].
  - destruct Hin as [Hin|Hin].
    + rewrite Hin. destruct Hor as [->| ->]; [by left|]. right. by left.
    + right. by right.
  - lra.
  - intros z Hz. apply elem_of_cons in Hz as [->|Hz]; [lra|].
    by apply Hall.
Qed.

Lemma max_list_spec (xs : list R) :
  xs ≠ [] →
  ∃ m, Py.max_list xs = Some m ∧ m ∈ xs ∧ ∀ x, x ∈ xs → x <= m.
Proof.
  destruct xs as [|a xs]; [done|]. intros _. simpl.
  destruct (fold_left_max2 xs a) as (Hin & Hge & Hall).
  eexists. split; [done|]. split.
  - destruct Hin as [-> | Hin]; [by left | by right].
  - intros x Hx. apply elem_of_cons in Hx as [->|Hx]; [done|].
    by apply Hall.
Qed.

Lemma read_effect_cell (effect : per_tray (list (list R)))
    (s : candidate) :
  read_effect effect s
  = match cell effect (key s) with
    | Some v => Ok v
    | None => Raise IndexError
    end.
Proof. unfold read_effect. by rewrite getitem2_cell. Qed.

(** The first normalisation loop reads the recorded percents. *)
Lemma read_effects (effect : per_tray (list (list R)))
    (used : list candidate) :
  (∀ s : candidate, s ∈ used →
     cell effect (key s) = Some (percent_improvement s)) →
  mapM (read_effect effect) used = Ok (map percent_improvement used).
Proof.
  induction used as [|s used IH]; intros Hcells; [done|].
  simpl. rewrite read_effect_cell, (Hcells s) by (by left). simpl.
  rewrite IH; [done|]. intros s' Hs'. apply Hcells. by right.
Qed.

(** The second loop divides each used cell once. *)
Lemma divide_used_cells (max_effect : R) (used : list candidate)
    (effect : per_tray (list (list R))) :
  NoDup (keys used) →
  (∀ s : candidate, s ∈ used → is_Some (cell effect (key s))) →
  ∃ effect' : per_tray (list (list R)),
    divide_used max_effect used effect = Ok effect'
    ∧ (∀ k, k ∉ keys used → cell effect' k = cell effect k)
    ∧ (∀ (s : candidate) (v : R), s ∈ used →
         cell effect (key s) = Some v →
         cell effect' (key s)
         = Some (if Rlt_dec 0 v then v / max_effect else v)).
Proof.
  revert effect. induction used as [|s used IH]; intros effect Hnd Hcells.
  { exists effect. split; [done|]. split; [done|].
    intros s v Hs. by apply elem_of_nil in Hs. }
  rewrite keys_cons in Hnd. apply NoDup_cons in Hnd as [Hfresh Hnd].
  cbn [divide_used]. rewrite read_effect_cell.
  destruct (Hcells s) as [v Hv]; [by left|]. rewrite Hv.
  cbn [mbind result_bind].
  unfold Py.ltb. destruct (Rlt_dec 0 v) as [Hpos|Hneg].
  - destruct (write_defined effect (key s) (v / max_effect)) as [m Hm];
      [by rewrite Hv|].
    simpl in Hm. rewrite Hm. cbn [mbind result_bind].
    pose proof (write_cell _ _ _ _ _ _ Hm) as Hm'. fold (key s) in Hm'.
    destruct (IH (set (tray s) m effect)) as (effect' & Hdiv & Hother & Hdone);
      [done| |].
    { intros s' Hs'. rewrite Hm'.
      destruct (decide _); [by eexists|]. apply Hcells. by right. }
    exists effect'. split; [done|]. split.
    + intros k Hk. rewrite keys_cons in Hk.
      apply not_elem_of_cons in Hk as [Hne Hk].
      rewrite Hother, Hm' by done. by rewrite decide_False.
    + intros s' v' Hs' Hv'. apply elem_of_cons in Hs' as [->|Hs'].
      * rewrite Hother, Hm' by done. rewrite decide_True by done.
        rewrite Hv in Hv'. injection Hv' as <-.
        by destruct (Rlt_dec 0 v).
      * apply Hdone; [done|]. rewrite Hm'.
        rewrite decide_False; [done|].
        intros Heq. apply Hfresh. rewrite <- Heq. by apply elem_of_keys.
  - destruct (IH effect) as (effect' & Hdiv & Hother & Hdone); [done| |].
    { intros s' Hs'. apply Hcells. by right. }
    exists effect'. split; [done|]. split.
    + intros k Hk. rewrite keys_cons in Hk.
      apply not_elem_of_cons in Hk as [Hne Hk]. by apply Hother.
    + intros s' v' Hs' Hv'. apply elem_of_cons in Hs' as [->|Hs'].
      * rewrite Hother by done. rewrite Hv in Hv'. injection Hv' as <-.
        rewrite Hv. by destruct (Rlt_dec 0 v).
      * by apply Hdone.
Qed.

End WriteFacts.

(** *** Simulation, sorting and the threshold *)

Section RankFacts.

Import TrayOptimizer Layout.

Variables (sensor_weights : list R) (sensor_positions : list (R * R)).
Variables (ideal : R * R) (original_disp : R).

Let pct : slot → R :=
  percent_of sensor_weights sensor_positions ideal original_disp.
Let mk (s : slot) : candidate :=
  {| the_slot := s; percent_improvement := pct s |}.
Let step := simulate_step sensor_weights sensor_positions ideal original_disp.
Let run_max (m : R) (s : slot) : R := if Py.ltb m (pct s) then pct s else m.

(** The percent of a slot depends on its position only. *)
Lemma percent_of_position (s s' : slot) :
  x s = x s' → y s = y s' → pct s = pct s'.
Proof. intros Hx Hy. unfold pct, percent_of. by rewrite Hx, Hy. Qed.

Lemma simulate_fold (slots : list slot) (acc : list candidate * R) :
  fold_left step slots acc
  = (acc.1 ++ map mk (List.filter (λ s, Py.ltb 0 (pct s)) slots),
     fold_left run_max slots acc.2).
Proof.
  revert acc. induction slots as [|s slots IH]; intros [cs m]; simpl.
  { by rewrite app_nil_r. }
  rewrite IH. unfold step, simulate_step. simpl. fold pct.
  fold (run_max m s). destruct (Py.ltb 0 (pct s)); simpl; [|done].
  by rewrite <- app_assoc.
Qed.

Lemma run_max_spec (slots : list slot) (m0 : R) :
  m0 <= fold_left run_max slots m0
  ∧ (∀ s, s ∈ slots → pct s <= fold_left run_max slots m0)
  ∧ (fold_left run_max slots m0 = m0
     ∨ ∃ s, s ∈ slots ∧ pct s = fold_left run_max slots m0).
Proof.
  revert m0. induction slots as [|s slots IH]; intros m0; simpl.
  { split; [lra|]. split; [|by left].
    intros s Hs. by apply elem_of_nil in Hs. }
  destruct (IH (run_max m0 s)) as (Hge & Hall & Hex).
  assert (Hstep : m0 <= run_max m0 s ∧ pct s <= run_max m0 s
                  ∧ (run_max m0 s = m0 ∨ run_max m0 s = pct s)).
  { unfold run_max, Py.ltb. destruct (Rlt_dec m0 (pct s)).
    all: split; [lra|]; split; [lra | auto]. }
  destruct Hstep as (H1 & H2 & H3). split; [lra|]. split.
  - intros s' Hs'. apply elem_of_cons in Hs' as [->|Hs']; [lra|].
    by apply Hall.
  - destruct Hex as [Heq | (s' & Hs' & Heq)].
    + rewrite Heq. destruct H3 as [-> | ->]; [by left|].
      right. exists s. split; [by left|done].
    + right. exists s'. split; [by right|done].
Qed.

(** The candidates are the slots with a positive percent, in enumeration
    order. *)
Lemma simulate_candidates (slots : list slot) :
  (simulate sensor_weights sensor_positions ideal original_disp slots).1
  = map mk (List.filter (λ s, Py.ltb 0 (pct s)) slots).
Proof. unfold simulate. fold step. by rewrite simulate_fold. Qed.

(** [max_improvement] bounds every percent, is never negative, and is
    attained when it is positive. *)
Lemma simulate_max (slots : list slot) :
  let m :=
    (simulate sensor_weights sensor_positions ideal original_disp slots).2 in
  0 <= m
  ∧ (∀ s, s ∈ slots → pct s <= m)
  ∧ (0 < m → ∃ s, s ∈ slots ∧ pct s = m).
Proof.
  unfold simulate. fold step. rewrite simulate_fold. simpl.
  destruct (run_max_spec slots 0) as (Hge & Hall & Hex).
  split; [done|]. split; [done|].
  intros Hpos. destruct Hex as [Heq|Hex]; [lra|done].
Qed.

End RankFacts.

Section SortFacts.

Import TrayOptimizer Layout.

(** Descending order of the sort key. *)
Let before (a b : candidate) : Prop :=
  percent_improvement b <= percent_improvement a.

Lemma insert_desc_perm (c : candidate) (l : list candidate) :
  Permutation (insert_desc c l) (c :: l).
Proof.
  induction l as [|d l IH]; simpl; [done|].
  destruct (Py.ltb _ _); [|done].
  rewrite IH. apply perm_swap.
Qed.

Lemma sort_desc_perm (l : list candidate) : Permutation (sort_desc l) l.
Proof.
  induction l as [|c l IH]; simpl; [done|].
  rewrite insert_desc_perm. by constructor.
Qed.

Lemma insert_desc_sorted (c : candidate) (l : list candidate) :
  StronglySorted before l → StronglySorted before (insert_desc c l).
Proof.
  induction 1 as [|d l Hl IH Hd]; simpl.
  { repeat constructor. }
  unfold Py.ltb.
  destruct (Rlt_dec (percent_improvement c) (percent_improvement d)).
  - constructor; [done|].
    rewrite insert_desc_perm. constructor; [unfold before; lra | done].
  - constructor; [by constructor|].
    constructor; [unfold before; lra|].
    eapply Forall_impl; [exact Hd|]. unfold before. intros; simpl in *. lra.
Qed.

Lemma sort_desc_sorted (l : list candidate) :
  StronglySorted before (sort_desc l).
Proof.
  induction l as [|c l IH]; simpl; [constructor|].
  by apply insert_desc_sorted.
Qed.

(** The sort is stable: among equal keys the earlier element stays
    first. *)
Lemma insert_desc_stable (c : candidate) (l : list candidate) :
  Forall (λ d, percent_improvement d <= percent_improvement c) l →
  insert_desc c l = c :: l.
Proof.
  destruct l as [|d l]; [done|]. intros Hall. simpl.
  apply Forall_cons in Hall as [Hd _]. by rewrite ltb_false.
Qed.

(** The first element of the sorted list has the largest key. *)
Lemma sort_desc_head (l : list candidate) (h : candidate)
    (t : list candidate) :
  sort_desc l = h :: t →
  ∀ c, c ∈ l → percent_improvement c <= percent_improvement h.
Proof.
  intros Hsort c Hc.
  pose proof (sort_desc_sorted l) as Hs. rewrite Hsort in Hs.
  apply StronglySorted_inv in Hs as [_ Hall].
  rewrite <- (sort_desc_perm l), Hsort in Hc.
  apply elem_of_cons in Hc as [->|Hc]; [lra|].
  rewrite Forall_forall in Hall. by apply Hall.
Qed.

(** The threshold block is a filter, possibly the trivial one. *)
Lemma apply_threshold_filter (threshold : option R) (max_improvement : R)
    (l : list candidate) :
  ∃ keep : candidate → bool,
    apply_threshold threshold max_improvement l = List.filter keep l.
Proof.
  assert (Hid : List.filter (λ _ : candidate, true) l = l).
  { induction l as [|c l IH]; simpl; [done|]. by rewrite IH. }
  unfold apply_threshold. destruct threshold as [th|]; [|by eexists].
  destruct (Py.ltb 0 th && Py.ltb 0 max_improvement); by eexists.
Qed.

Lemma NoDup_map_filter {A B} (f : A → B) (keep : A → bool) (l : list A) :
  NoDup (map f l) → NoDup (map f (List.filter keep l)).
Proof.
  induction l as [|a l IH]; simpl; [done|].
  intros [Ha Hl]%NoDup_cons.
  destruct (keep a); [|by apply IH].
  simpl. apply NoDup_cons. split; [|by apply IH].
  intros Hin. apply Ha.
  apply list_elem_of_In, in_map_iff in Hin as (a' & Heq & Ha').
  apply filter_In in Ha' as [Ha' _].
  rewrite <- Heq. apply list_elem_of_In, in_map. done.
Qed.

Section Ranked.

Variables (sensor_weights : list R) (sensor_positions : list (R * R)).
Variables (ideal : R * R) (threshold : option R).

Let original_disp : R :=
  calculate_displacement (calculate_com sensor_weights sensor_positions)
    ideal.
Let pct : slot → R :=
  percent_of sensor_weights sensor_positions ideal original_disp.

(** Every ranked candidate is a slot of the grid with a positive
    percent, recorded as computed by the simulation. *)
Lemma ranked_elem (slots : list slot) (c : candidate) :
  c ∈ ranked sensor_weights sensor_positions ideal threshold slots →
  the_slot c ∈ slots
  ∧ percent_improvement c = pct c
  ∧ 0 < percent_improvement c.
Proof.
  unfold ranked. fold original_disp.
  destruct (apply_threshold_filter threshold
    (simulate sensor_weights sensor_positions ideal original_disp slots).2
    (sort_desc
       (simulate sensor_weights sensor_positions ideal original_disp
          slots).1)) as [keep ->].
  intros Hc. apply list_elem_of_In, filter_In in Hc as [Hc _].
  apply list_elem_of_In in Hc.
  rewrite sort_desc_perm, simulate_candidates in Hc.
  apply list_elem_of_In, in_map_iff in Hc as (s & <- & Hs).
  apply filter_In in Hs as [Hs Hpos]. simpl.
  apply ltb_spec in Hpos. split; [by apply list_elem_of_In|done].
Qed.

Lemma ranked_NoDup (slots : list slot) :
  NoDup (map key slots) →
  NoDup (keys (ranked sensor_weights sensor_positions ideal threshold
                 slots)).
Proof.
  intros Hnd. unfold ranked. fold original_disp.
  destruct (apply_threshold_filter threshold
    (simulate sensor_weights sensor_positions ideal original_disp slots).2
    (sort_desc
       (simulate sensor_weights sensor_positions ideal original_disp
          slots).1)) as [keep ->].
  unfold keys. apply NoDup_map_filter.
  rewrite sort_desc_perm, simulate_candidates, map_map. simpl.
  by apply NoDup_map_filter.
Qed.

End Ranked.

End SortFacts.

Section NormalizeFacts.

Import TrayOptimizer Layout.

(** Normalisation never raises on cells that hold positive recorded
    percents; it divides each used cell by the largest of them. *)
Lemma normalize_cells (effect : per_tray (list (list R)))
    (used : list candidate) :
  NoDup (keys used) →
  (∀ s : candidate, s ∈ used →
     cell effect (key s) = Some (percent_improvement s)
     ∧ 0 < percent_improvement s) →
  ∃ effect' : per_tray (list (list R)),
    normalize effect used = Ok effect'
    ∧ (∀ k, k ∉ keys used → cell effect' k = cell effect k)
    ∧ (used ≠ [] →
       ∃ best : candidate,
         best ∈ used
         ∧ ∀ s : candidate, s ∈ used →
             percent_improvement s <= percent_improvement best
             ∧ cell effect' (key s)
               = Some (percent_improvement s / percent_improvement best)).
Proof.
  intros Hnd Hcells. unfold normalize.
  rewrite read_effects by (intros s Hs; by apply Hcells).
  cbn [mbind result_bind].
  destruct used as [|s0 used'] eqn:Hused.
  { exists effect. split; [done|]. split; [done|]. done. }
  rewrite <- Hused in *.
  destruct (max_list_spec (map percent_improvement used))
    as (mx & -> & Hin & Hmax).
  { rewrite Hused. done. }
  apply list_elem_of_In, in_map_iff in Hin as (best & <- & Hbest).
  apply list_elem_of_In in Hbest.
  destruct (divide_used_cells (percent_improvement best) used effect)
    as (effect' & -> & Hother & Hdone); [done| |].
  { intros s Hs. destruct (Hcells s Hs) as [-> _]. by eexists. }
  exists effect'. split; [done|]. split; [done|].
  intros _. exists best. split; [done|]. intros s Hs. split.
  - apply Hmax. apply list_elem_of_In, in_map. by apply list_elem_of_In.
  - destruct (Hcells s Hs) as [Hcell Hpos].
    rewrite (Hdone s _ Hs Hcell).
    by destruct (Rlt_dec 0 (percent_improvement s)).
Qed.

End NormalizeFacts.

(** *** A run with budget left, end to end *)

Section OptimizerRun.

Import TrayOptimizer Layout.

Variables (sensor_weights : list R) (sensor_positions : list (R * R)).
Variables (ideal_com : R * R) (bias_settings : gmap string R).
Variables (general_settings : gmap string (gmap string num)).
Variables (tray_flags : gmap string bool).
Variables (max_weight : R) (max_weight_unit : string).
Variable threshold : option R.

Let ideal' : R * R := apply_bias_to_com ideal_com bias_settings.
Let available : R :=
  convert_to_grams max_weight max_weight_unit - Py.sum sensor_weights.

Lemma layout_eta {A} (d : per_tray A) :
  {| of_front := of_front d; of_back := of_back d |} = d.
Proof. by destruct d. Qed.

Lemma NoDup_keys_take (n : nat) (cs : list candidate) :
  NoDup (keys cs) → NoDup (keys (take n cs)).
Proof.
  intros Hnd. unfold keys. rewrite <- firstn_map.
  eapply sublist_NoDup; [exact Hnd|]. apply sublist_take.
Qed.

(** Once the grid is built the optimizer returns: it places a prefix of
    the ranked candidates, as long as one more unit fits, marks their
    cells, and divides their recorded percents by the largest. *)
Lemma optimizer_run (g : grid) :
  0 < available →
  build_slots general_settings tray_flags = Ok g →
  let candidates :=
    ranked sensor_weights sensor_positions ideal' threshold (g_slots g) in
  ∃ (n : nat) (r : TrayLayoutResult),
    let used := take n candidates in
    compute_optimal_tray_layout sensor_weights sensor_positions ideal_com
      bias_settings general_settings tray_flags max_weight max_weight_unit
      threshold = Ok r
    ∧ (n <= length candidates)%nat
    ∧ effect_weight_grams * INR n <= available
    ∧ ((n < length candidates)%nat →
       available < effect_weight_grams * INR n + effect_weight_grams)
    ∧ total_weight r = Py.sum sensor_weights + effect_weight_grams * INR n
    ∧ final_com r
      = calculate_com
          (sensor_weights ++ map (λ _, effect_weight_grams) used)
          (sensor_positions ++ map (λ s : candidate, (x s, y s)) used)
    ∧ displacement r = calculate_displacement (final_com r) ideal'
    ∧ (∀ k, k ∉ keys used →
         cell (layout r) k = cell (g_layout g) k
         ∧ cell (effect_map r) k = cell (g_effect g) k)
    ∧ (∀ s : candidate, s ∈ used → cell (layout r) (key s) = Some 1%nat)
    ∧ (used ≠ [] →
       ∃ best : candidate,
         best ∈ used
         ∧ ∀ s : candidate, s ∈ used →
             0 < percent_improvement s <= percent_improvement best
             ∧ cell (effect_map r) (key s)
               = Some (percent_improvement s / percent_improvement best)).
Proof.
  intros Hav Hg candidates.
  pose proof (build_slots_blank _ _ _ Hg) as (Hnd & Hslots & Hcells).
  assert (Hcand : ∀ c : candidate, c ∈ candidates →
            cell (g_layout g) (key c) = Some 0%nat
            ∧ cell (g_effect g) (key c) = Some 0
            ∧ 0 < percent_improvement c).
  { intros c Hc. apply ranked_elem in Hc as (Hc & _ & Hpos).
    pose proof (Hslots _ Hc) as Hcell.
    destruct (Hcells _ _ Hcell) as [_ Heff]. done. }
  assert (Hndc : NoDup (keys candidates)) by (by apply ranked_NoDup).
  destruct (place_cells available candidates
              {| p_layout := g_layout g; p_effect := g_effect g;
                 added_weight := 0; used_slots := [] |} Hndc)
    as (st & n' & Hplace & Hused' & Hother & Hmarked).
  { intros c Hc. cbn [p_layout p_effect].
    destruct (Hcand c Hc) as (-> & -> & _). split; by eexists. }
  destruct (place_prefix _ _ _ _ Hplace)
    as (n & Hn & Hused & Hadded & Hfit & Hstop).
  simpl in Hused', Hused, Hadded, Hfit, Hother.
  assert (Htake : take n' candidates = take n candidates)
    by (by rewrite <- Hused', Hused).
  rewrite Htake in Hother, Hmarked. clear Hused' Htake n'.
  destruct (normalize_cells (p_effect st) (used_slots st))
    as (eff & Hnorm & Hkeep & Hbest).
  { rewrite Hused. by apply NoDup_keys_take. }
  { intros s Hs. rewrite Hused in Hs. split; [by apply Hmarked|].
    apply Hcand. apply elem_of_take in Hs as (i & Hi & _).
    by eapply list_elem_of_lookup_2. }
  exists n. eexists. cbv zeta. split.
  { apply (compute_assemble _ _ _ _ _ _ _ _ _ g st eff); done. }
  unfold layout.
  cbn [total_weight final_com displacement effect_map front_tray
       back_tray].
  rewrite layout_eta, Hused.
  split; [done|]. split; [lra|]. split; [intros Hlt; apply Hstop in Hlt; lra|].
  split; [lra|]. split; [done|]. split; [done|]. split.
  - intros k Hk. destruct (Hother k Hk) as [-> <-]. split; [done|].
    apply Hkeep. by rewrite Hused.
  - split; [intros s Hs; by apply Hmarked|].
    intros Hne. rewrite Hused in Hbest.
    destruct (Hbest Hne) as (best & Hin & Hall).
    exists best. split; [done|]. intros s Hs.
    destruct (Hall s Hs) as [Hle Hcell]. split; [|done].
    split; [|done]. apply Hcand.
    apply elem_of_take in Hs as (i & Hi & _).
    by eapply list_elem_of_lookup_2.
Qed.

End OptimizerRun.

(** *** The effect map *)

Section EffectMap.

Import TrayOptimizer Layout.


End EffectMap.

(** *** Failure modes *)

Section FailureModes.

Import TrayOptimizer Layout.

(** Membership in an explicit list. *)
Ltac in_list := apply list_elem_of_In; simpl; tauto.

(** A settings dict that lacks a required key makes [tray_grid] raise the
    [KeyError] of the first key it misses, in reading order. *)
Lemma tray_grid_missing (name : tray_name) (settings : gmap string num)
    (k : string) :
  k ∈ required_keys → settings !! k = None →
  ∃ k', k' ∈ required_keys ∧ settings !! k' = None
        ∧ tray_grid name settings = Raise (KeyError k').
Proof.
  intros Hk Hnone. unfold tray_grid, getitem.
  destruct (settings !! "rows") eqn:H1; simpl;
    [|exists "rows"%string; split; [in_list|done]].
  destruct (settings !! "columns") eqn:H2; simpl;
    [|exists "columns"%string; split; [in_list|done]].
  destruct (settings !! "y_position") eqn:H3; simpl;
    [|exists "y_position"%string; split; [in_list|done]].
  destruct (settings !! "cell_width") eqn:H4; simpl;
    [|exists "cell_width"%string; split; [in_list|done]].
  destruct (settings !! "cell_height") eqn:H5; simpl;
    [|exists "cell_height"%string; split; [in_list|done]].
  destruct (settings !! "wall_thickness") eqn:H6; simpl;
    [|exists "wall_thickness"%string; split; [in_list|done]].
  unfold required_keys in Hk.
  repeat (apply elem_of_cons in Hk as [->|Hk]; [congruence|]).
  by apply elem_of_nil in Hk.
Qed.

(** The optimizer returns whenever there is no budget or the grid can be
    built, whatever the lengths of the two sensor lists. *)
Lemma optimizer_returns
    (sensor_weights : list R) (sensor_positions : list (R * R))
    (ideal_com : R * R) (bias_settings : gmap string R)
    (general_settings : gmap string (gmap string num))
    (tray_flags : gmap string bool)
    (max_weight : R) (max_weight_unit : string) (threshold : option R)
    (g : grid) :
  build_slots general_settings tray_flags = Ok g →
  ∃ r, compute_optimal_tray_layout sensor_weights sensor_positions
         ideal_com bias_settings general_settings tray_flags max_weight
         max_weight_unit threshold = Ok r.
Proof.
  intros Hg.
  destruct (Rle_dec (convert_to_grams max_weight max_weight_unit
                     - Py.sum sensor_weights) 0) as [Hle|Hgt].
  - unfold compute_optimal_tray_layout. rewrite leb_true by done. eauto.
  - destruct (optimizer_run sensor_weights sensor_positions ideal_com
                bias_settings general_settings tray_flags max_weight
                max_weight_unit threshold g) as (n & r & Hr & _);
      [lra|done|]. eauto.
Qed.

(** Two weights against one position: the optimizer returns a result. *)
Lemma mismatched_lengths_return :
  length ([100; 50] : list R) ≠ length ([(0, 0)] : list (R * R))
  ∧ ∃ r, compute_optimal_tray_layout [100; 50] [(0, 0)] (0, 0) ∅ ∅ ∅
           500 "g" None = Ok r.
Proof.
  split; [simpl; lia|].
  by apply (optimizer_returns _ _ _ _ _ _ _ _ _ empty_grid).
Qed.

(** C6 (amended).  With budget left, an enabled tray whose settings lack
    a required key makes the call raise the [KeyError] of a missing key,
    with no result (for the back tray: provided the front tray was read
    without error); and whenever the slot grid can be built the call
    returns a result, whatever the lengths of [sensor_weights] and
    [sensor_positions]. *)
Theorem optimizer_failure_modes
    (sensor_weights : list R) (sensor_positions : list (R * R))
    (ideal_com : R * R) (bias_settings : gmap string R)
    (general_settings : gmap string (gmap string num))
    (tray_flags : gmap string bool)
    (max_weight : R) (max_weight_unit : string) (threshold : option R) :
  0 < convert_to_grams max_weight max_weight_unit
      - fold_right Rplus 0 sensor_weights →
  (∀ (name : tray_name) (settings : gmap string num) (k : string),
     default false (tray_flags !! flag_key name) = true →
     general_settings !! settings_key name = Some settings →
     k ∈ required_keys → settings !! k = None →
     (name = back →
      ∃ g1, add_tray general_settings tray_flags front empty_grid = Ok g1) →
     ∃ k', k' ∈ required_keys ∧ settings !! k' = None
           ∧ compute_optimal_tray_layout sensor_weights sensor_positions
               ideal_com bias_settings general_settings tray_flags
               max_weight max_weight_unit threshold
             = Raise (KeyError k'))
  ∧ (∀ g : grid,
       build_slots general_settings tray_flags = Ok g →
       ∃ r, compute_optimal_tray_layout sensor_weights sensor_positions
              ideal_com bias_settings general_settings tray_flags
              max_weight max_weight_unit threshold = Ok r).
Proof.
  intros Hav. rewrite <- sum_fold_right in Hav. split.
  - intros name settings k Hflag Hsettings Hk Hnone Hfront.
    destruct (tray_grid_missing name settings k Hk Hnone)
      as (k' & Hk' & Hnone' & Hraise).
    exists k'. split; [done|]. split; [done|].
    unfold compute_optimal_tray_layout. rewrite leb_false by done.
    assert (Hadd : ∀ g0, add_tray general_settings tray_flags name g0
                         = Raise (KeyError k')).
    { intros g0. unfold add_tray, getitem.
      by rewrite Hflag, Hsettings; simpl; rewrite Hraise. }
    unfold build_slots. destruct name.
    + by rewrite Hadd.
    + destruct Hfront as [g1 ->]; [done|]. simpl. by rewrite Hadd.
  - intros g Hg. by eapply optimizer_returns.
Qed.

Lemma optimizer_failure_modes_witness :
  ∃ r, compute_optimal_tray_layout [100; 50] [(0, 0)] (0, 0) ∅ ∅ ∅
         500 "g" None = Ok r.
Proof.
  assert (Hav : 0 < convert_to_grams 500 "g"
                    - fold_right Rplus 0 [100; 50]).
  { unfold convert_to_grams, Cal_Math.convert_unit. simpl. lra. }
  destruct (optimizer_failure_modes [100; 50] [(0, 0)] (0, 0) ∅ ∅ ∅
              500 "g" None Hav) as [_ Hreturns].
  apply (Hreturns empty_grid). reflexivity.
Defined.

End FailureModes.

(** ** The worked configuration, step by step *)

Section WorkedConfiguration.

Import TrayOptimizer Layout.

(** Evaluating a COM and a displacement to closed values. *)
Lemma calculate_com_eval (ws : list R) (ps : list (R * R))
    (total cx cy : R) :
  Py.sum ws = total → total ≠ 0 →
  Py.sum (map (λ wp, wp.1 * wp.2.1) (zip ws ps)) = cx * total →
  Py.sum (map (λ wp, wp.1 * wp.2.2) (zip ws ps)) = cy * total →
  calculate_com ws ps = (cx, cy).
Proof.
  intros Ht Hne Hx Hy. unfold calculate_com.
  rewrite Ht, eqb_false by done. rewrite Hx, Hy. f_equal; field; done.
Qed.

Lemma calculate_displacement_eval (a i : R * R) (d : R) :
  0 <= d → (a.1 - i.1) ^ 2 + (a.2 - i.2) ^ 2 = d ^ 2 →
  calculate_displacement a i = d.
Proof.
  intros Hd Heq. unfold calculate_displacement. rewrite Heq.
  by apply sqrt_pow2.
Qed.

Ltac eval_sum := unfold Py.sum, effect_weight_grams; simpl; lra.

Lemma scenario_ideal :
  apply_bias_to_com Scenario.ideal_com ∅ = (0, 1).
Proof.
  unfold apply_bias_to_com, Scenario.ideal_com.
  rewrite !lookup_empty. simpl. f_equal; lra.
Qed.

Lemma scenario_available (max_weight : R) :
  convert_to_grams max_weight "g" - Py.sum Scenario.sensor_weights
  = max_weight - 113.
Proof. unfold convert_to_grams, Cal_Math.convert_unit. eval_sum. Qed.

(** The grid: one slot per enabled tray, on the y axis. *)
Lemma tray_grid_one_cell (name : tray_name) (y_position : R) :
  tray_grid name (Scenario.one_cell y_position)
  = Ok ([[0%nat]], [[0]], [Scenario.slot_at name y_position]).
Proof. vm_compute. repeat f_equal; lra. Qed.

Lemma scenario_grid_front :
  build_slots Scenario.general_settings Scenario.front_only
  = Ok {| g_layout := {| of_front := [[0%nat]]; of_back := [] |};
          g_effect := {| of_front := [[0]]; of_back := [] |};
          g_slots := [Scenario.slot_at front 2] |}.
Proof.
  unfold build_slots, add_tray.
  replace (Scenario.front_only !! flag_key front) with (Some true)
    by reflexivity.
  replace (Scenario.front_only !! flag_key back) with (@None bool)
    by reflexivity.
  replace (getitem Scenario.general_settings (settings_key front))
    with (Ok (Scenario.one_cell 2)) by reflexivity.
  cbn [default negb mbind result_bind].
  rewrite tray_grid_one_cell. reflexivity.
Qed.

Lemma scenario_grid_both :
  build_slots Scenario.general_settings Scenario.both_trays
  = Ok {| g_layout := {| of_front := [[0%nat]]; of_back := [[0%nat]] |};
          g_effect := {| of_front := [[0]]; of_back := [[0]] |};
          g_slots := [Scenario.slot_at front 2; Scenario.slot_at back 3] |}.
Proof.
  unfold build_slots, add_tray.
  replace (Scenario.both_trays !! flag_key front) with (Some true)
    by reflexivity.
  replace (Scenario.both_trays !! flag_key back) with (Some true)
    by reflexivity.
  replace (getitem Scenario.general_settings (settings_key front))
    with (Ok (Scenario.one_cell 2)) by reflexivity.
  replace (getitem Scenario.general_settings (settings_key back))
    with (Ok (Scenario.one_cell 3)) by reflexivity.
  cbn [default negb mbind result_bind].
  rewrite !tray_grid_one_cell. reflexivity.
Qed.

(** The sensor alone: COM at the origin, one unit away from the ideal. *)
Lemma scenario_original_disp :
  calculate_displacement
    (calculate_com Scenario.sensor_weights Scenario.sensor_positions) (0, 1)
  = 1.
Proof.
  rewrite (calculate_com_eval _ _ 113 0 0) by eval_sum.
  apply calculate_displacement_eval; simpl; lra.
Qed.

(** A unit in the front slot moves the COM onto the ideal; a unit in the
    back slot moves it half a unit past. *)
Lemma scenario_percent_front :
  percent_of Scenario.sensor_weights Scenario.sensor_positions (0, 1) 1
    (Scenario.slot_at front 2) = 1.
Proof.
  unfold percent_of. rewrite eqb_false by lra.
  rewrite (calculate_com_eval _ _ 226 0 1) by eval_sum.
  rewrite (calculate_displacement_eval _ _ 0) by (simpl; lra).
  lra.
Qed.

Lemma scenario_percent_back :
  percent_of Scenario.sensor_weights Scenario.sensor_positions (0, 1) 1
    (Scenario.slot_at back 3) = 1 / 2.
Proof.
  unfold percent_of. rewrite eqb_false by lra.
  rewrite (calculate_com_eval _ _ 226 0 (3 / 2)) by eval_sum.
  rewrite (calculate_displacement_eval _ _ (1 / 2)) by (simpl; lra).
  lra.
Qed.

Lemma scenario_ranked_front :
  ranked Scenario.sensor_weights Scenario.sensor_positions (0, 1) None
    [Scenario.slot_at front 2]
  = [Scenario.front_slot].
Proof.
  unfold ranked. rewrite scenario_original_disp, simulate_candidates.
  cbn [List.filter]. rewrite scenario_percent_front, ltb_true by lra.
  cbn [map apply_threshold sort_desc fold_right insert_desc].
  by rewrite scenario_percent_front.
Qed.

Lemma scenario_ranked_both :
  ranked Scenario.sensor_weights Scenario.sensor_positions (0, 1) None
    [Scenario.slot_at front 2; Scenario.slot_at back 3]
  = [Scenario.front_slot; Scenario.back_slot].
Proof.
  unfold ranked. rewrite scenario_original_disp, simulate_candidates.
  cbn [List.filter].
  rewrite scenario_percent_front, scenario_percent_back.
  rewrite !ltb_true by lra.
  cbn [map apply_threshold sort_desc fold_right insert_desc
       percent_improvement].
  rewrite scenario_percent_front, scenario_percent_back.
  by rewrite ltb_false by lra.
Qed.

(** Equality of structures that differ in real-valued leaves only. *)
Ltac req :=
  lazymatch goal with
  | |- @eq R _ _ => lra
  | |- _ => first [reflexivity | f_equal; req]
  end.

Lemma max2_eval (a b m : R) :
  (b <= a ∧ m = a) ∨ (a < b ∧ m = b) → Py.max2 a b = m.
Proof.
  unfold Py.max2. destruct (Rlt_dec a b); intros [[? ->]|[? ->]]; lra.
Qed.

(** The greedy loop, with room for one unit and for two. *)
Lemma scenario_place_front (available : R) :
  113 <= available →
  place available [Scenario.front_slot]
    {| p_layout := {| of_front := [[0%nat]]; of_back := [] |};
       p_effect := {| of_front := [[0]]; of_back := [] |};
       added_weight := 0; used_slots := [] |}
  = Ok {| p_layout := {| of_front := [[1%nat]]; of_back := [] |};
          p_effect := {| of_front := [[1]]; of_back := [] |};
          added_weight := 0 + 113;
          used_slots := [Scenario.front_slot] |}.
Proof.
  intros Hav. unfold place. cbn [added_weight].
  unfold effect_weight_grams. by rewrite ltb_false by lra.
Qed.

Lemma scenario_place_both (available : R) :
  226 <= available →
  place available [Scenario.front_slot; Scenario.back_slot]
    {| p_layout := {| of_front := [[0%nat]]; of_back := [[0%nat]] |};
       p_effect := {| of_front := [[0]]; of_back := [[0]] |};
       added_weight := 0; used_slots := [] |}
  = Ok {| p_layout := {| of_front := [[1%nat]]; of_back := [[1%nat]] |};
          p_effect := {| of_front := [[1]]; of_back := [[1 / 2]] |};
          added_weight := 0 + 113 + 113;
          used_slots := [Scenario.front_slot; Scenario.back_slot] |}.
Proof.
  intros Hav. unfold place. cbn [added_weight].
  unfold effect_weight_grams.
  rewrite ltb_false by lra. cbn. by rewrite ltb_false by lra.
Qed.

Lemma scenario_normalize_front :
  normalize {| of_front := [[1]]; of_back := [] |} [Scenario.front_slot]
  = Ok {| of_front := [[1]]; of_back := [] |}.
Proof.
  unfold normalize. cbn.
  rewrite !ltb_true by lra. rewrite !decide_True by lia. cbn. req.
Qed.

Lemma scenario_normalize_both :
  normalize {| of_front := [[1]]; of_back := [[1 / 2]] |}
    [Scenario.front_slot; Scenario.back_slot]
  = Ok {| of_front := [[1]]; of_back := [[1 / 2]] |}.
Proof.
  unfold normalize. cbn.
  rewrite (max2_eval 1 (1 / 2) 1) by (left; lra).
  rewrite !ltb_true by lra. rewrite !decide_True by lia. cbn. req.
Qed.

(** With 339 g allowed and only the front tray enabled, one unit lands in
    the front slot and the COM sits on the ideal. *)
Lemma scenario_front_only :
  Scenario.run Scenario.front_only 339
  = Ok {| front_tray := [[1%nat]]; back_tray := [];
          final_com := (0, 1); displacement := 0;
          total_weight := 226;
          effect_map := {| of_front := [[1]]; of_back := [] |} |}.
Proof.
  unfold Scenario.run.
  erewrite compute_assemble; cycle 1.
  - rewrite scenario_available. lra.
  - apply scenario_grid_front.
  - cbn [g_slots g_layout g_effect].
    rewrite scenario_available, scenario_ideal, scenario_ranked_front.
    apply scenario_place_front. lra.
  - cbn [p_effect used_slots]. apply scenario_normalize_front.
  - cbn [p_layout of_front of_back used_slots added_weight map app].
    rewrite scenario_ideal.
    rewrite (calculate_com_eval _ _ 226 0 1) by eval_sum.
    rewrite (calculate_displacement_eval _ _ 0) by (simpl; lra).
    f_equal. f_equal. eval_sum.
Qed.

(** With the back tray enabled as well, both slots are filled and the
    COM overshoots the ideal by two thirds of a unit. *)
Lemma scenario_both_trays :
  Scenario.run Scenario.both_trays 339
  = Ok {| front_tray := [[1%nat]]; back_tray := [[1%nat]];
          final_com := (0, 5 / 3); displacement := 2 / 3;
          total_weight := 339;
          effect_map := {| of_front := [[1]]; of_back := [[1 / 2]] |} |}.
Proof.
  unfold Scenario.run.
  erewrite compute_assemble; cycle 1.
  - rewrite scenario_available. lra.
  - apply scenario_grid_both.
  - cbn [g_slots g_layout g_effect].
    rewrite scenario_available, scenario_ideal, scenario_ranked_both.
    apply scenario_place_both. lra.
  - cbn [p_effect used_slots]. apply scenario_normalize_both.
  - cbn [p_layout of_front of_back used_slots added_weight map app].
    rewrite scenario_ideal.
    rewrite (calculate_com_eval _ _ 339 0 (5 / 3)) by eval_sum.
    rewrite (calculate_displacement_eval _ _ (2 / 3)) by (simpl; lra).
    f_equal. f_equal. eval_sum.
Qed.

(** With 226 g allowed a single unit fits; the loop stops at the back
    slot. *)
Lemma scenario_place_both_one (available : R) :
  113 <= available < 226 →
  place available [Scenario.front_slot; Scenario.back_slot]
    {| p_layout := {| of_front := [[0%nat]]; of_back := [[0%nat]] |};
       p_effect := {| of_front := [[0]]; of_back := [[0]] |};
       added_weight := 0; used_slots := [] |}
  = Ok {| p_layout := {| of_front := [[1%nat]]; of_back := [[0%nat]] |};
          p_effect := {| of_front := [[1]]; of_back := [[0]] |};
          added_weight := 0 + 113;
          used_slots := [Scenario.front_slot] |}.
Proof.
  intros Hav. unfold place. cbn [added_weight].
  unfold effect_weight_grams.
  rewrite ltb_false by lra. cbn. by rewrite ltb_true by lra.
Qed.

Lemma scenario_normalize_both_one :
  normalize {| of_front := [[1]]; of_back := [[0]] |} [Scenario.front_slot]
  = Ok {| of_front := [[1]]; of_back := [[0]] |}.
Proof.
  unfold normalize. cbn.
  rewrite !ltb_true by lra. rewrite !decide_True by lia. cbn. req.
Qed.

Lemma scenario_front_only_one :
  Scenario.run Scenario.front_only 226
  = Ok {| front_tray := [[1%nat]]; back_tray := [];
          final_com := (0, 1); displacement := 0;
          total_weight := 226;
          effect_map := {| of_front := [[1]]; of_back := [] |} |}.
Proof.
  unfold Scenario.run.
  erewrite compute_assemble; cycle 1.
  - rewrite scenario_available. lra.
  - apply scenario_grid_front.
  - cbn [g_slots g_layout g_effect].
    rewrite scenario_available, scenario_ideal, scenario_ranked_front.
    apply scenario_place_front. lra.
  - cbn [p_effect used_slots]. apply scenario_normalize_front.
  - cbn [p_layout of_front of_back used_slots added_weight map app].
    rewrite scenario_ideal.
    rewrite (calculate_com_eval _ _ 226 0 1) by eval_sum.
    rewrite (calculate_displacement_eval _ _ 0) by (simpl; lra).
    f_equal. f_equal. eval_sum.
Qed.

Lemma scenario_both_trays_one :
  Scenario.run Scenario.both_trays 226
  = Ok {| front_tray := [[1%nat]]; back_tray := [[0%nat]];
          final_com := (0, 1); displacement := 0;
          total_weight := 226;
          effect_map := {| of_front := [[1]]; of_back := [[0]] |} |}.
Proof.
  unfold Scenario.run.
  erewrite compute_assemble; cycle 1.
  - rewrite scenario_available. lra.
  - apply scenario_grid_both.
  - cbn [g_slots g_layout g_effect].
    rewrite scenario_available, scenario_ideal, scenario_ranked_both.
    apply scenario_place_both_one. lra.
  - cbn [p_effect used_slots]. apply scenario_normalize_both_one.
  - cbn [p_layout of_front of_back used_slots added_weight map app].
    rewrite scenario_ideal.
    rewrite (calculate_com_eval _ _ 226 0 1) by eval_sum.
    rewrite (calculate_displacement_eval _ _ 0) by (simpl; lra).
    f_equal. f_equal. eval_sum.
Qed.

End WorkedConfiguration.

(** *** The head of the ranking *)

Section RankedHead.

Import TrayOptimizer Layout.

Variables (sensor_weights : list R) (sensor_positions : list (R * R)).
Variables (ideal : R * R) (threshold : option R).

Let original_disp : R :=
  calculate_displacement (calculate_com sensor_weights sensor_positions)
    ideal.
Let pct : slot → R :=
  percent_of sensor_weights sensor_positions ideal original_disp.
Abbreviation best :=
  (best_improvement sensor_weights sensor_positions ideal).
Abbreviation candidates :=
  (candidates_of sensor_weights sensor_positions ideal).

(** A threshold above 1 rejects even the best candidate. *)
Let admits : Prop := ∀ th, threshold = Some th → th <= 1.

Lemma candidates_bound (slots : list slot) (c : candidate) :
  c ∈ candidates slots →
  0 < percent_improvement c <= best slots.
Proof.
  unfold candidates_of, best_improvement. rewrite simulate_candidates.
  intros Hc. apply list_elem_of_In, in_map_iff in Hc as (s & <- & Hs).
  apply filter_In in Hs as [Hs Hpos]. simpl.
  apply ltb_spec in Hpos. split; [done|].
  apply simulate_max. by apply list_elem_of_In.
Qed.

Lemma best_attained (slots : list slot) :
  0 < best slots →
  ∃ c, c ∈ candidates slots ∧ percent_improvement c = best slots.
Proof.
  unfold candidates_of, best_improvement. intros Hpos.
  destruct (simulate_max sensor_weights sensor_positions ideal
              original_disp slots) as (_ & _ & Hex).
  destruct (Hex Hpos) as (s & Hs & Heq).
  exists {| the_slot := s; percent_improvement := pct s |}.
  split; [|done]. rewrite simulate_candidates.
  apply list_elem_of_In, in_map_iff. exists s. split; [done|].
  apply filter_In. split; [by apply list_elem_of_In|].
  apply ltb_true. fold original_disp. rewrite Heq. exact Hpos.
Qed.

(** The sorted candidates start with one whose percent is the best. *)
Lemma sorted_head (slots : list slot) (h : candidate)
    (t : list candidate) :
  sort_desc (candidates slots) = h :: t →
  percent_improvement h = best slots ∧ 0 < best slots.
Proof.
  intros Hsort.
  assert (Hh : h ∈ candidates slots).
  { rewrite <- (sort_desc_perm (candidates slots)), Hsort. by left. }
  destruct (candidates_bound _ _ Hh) as [Hpos Hle].
  assert (Hbest : 0 < best slots) by lra. split; [|done].
  destruct (best_attained slots Hbest) as (c & Hc & Heq).
  pose proof (sort_desc_head _ _ _ Hsort c Hc). lra.
Qed.

Lemma sorted_nonempty (slots : list slot) :
  0 < best slots → ∃ h t, sort_desc (candidates slots) = h :: t.
Proof.
  intros Hbest. destruct (best_attained slots Hbest) as (c & Hc & _).
  destruct (sort_desc (candidates slots)) as [|h t] eqn:Hsort; [|eauto].
  rewrite <- (sort_desc_perm (candidates slots)), Hsort in Hc.
  by apply elem_of_nil in Hc.
Qed.

(** The ranking is non-empty exactly when some slot improves and the
    threshold admits the best one, which then comes first. *)
Lemma ranked_head (slots : list slot) (h : candidate)
    (t : list candidate) :
  ranked sensor_weights sensor_positions ideal threshold slots = h :: t →
  percent_improvement h = best slots ∧ 0 < best slots ∧ admits.
Proof.
  unfold ranked. fold original_disp.
  change (simulate sensor_weights sensor_positions ideal original_disp
            slots).2 with (best slots).
  change (simulate sensor_weights sensor_positions ideal original_disp
            slots).1 with (candidates slots).
  unfold apply_threshold, admits.
  destruct threshold as [th|].
  2:{ intros Hs. apply sorted_head in Hs as [Hh Hbest].
      split; [done|]. split; [done|]. by intros ? [=]. }
  destruct (Py.ltb 0 th && Py.ltb 0 (best slots)) eqn:Hactive.
  - apply andb_prop in Hactive as [Hth Hbest]. apply ltb_spec in Hth, Hbest.
    destruct (sorted_nonempty slots Hbest) as (h' & t' & Hsort).
    rewrite Hsort. destruct (sorted_head _ _ _ Hsort) as [Hh' _].
    intros Hfilter.
    assert (Hh : h ∈ List.filter
              (λ c, Py.leb (best slots * th) (percent_improvement c))
              (h' :: t')) by (rewrite Hfilter; by left).
    apply list_elem_of_In, filter_In in Hh as [Hh Hkeep].
    apply leb_spec in Hkeep.
    assert (Hle : percent_improvement h <= best slots).
    { apply candidates_bound.
      rewrite <- (sort_desc_perm (candidates slots)), Hsort.
      by apply list_elem_of_In. }
    assert (Hone : th <= 1) by nra.
    simpl in Hfilter. rewrite leb_true in Hfilter by nra.
    injection Hfilter as <- _. split; [done|]. split; [done|].
    by intros ? [= <-].
  - intros Hs. apply sorted_head in Hs as [Hh Hbest].
    split; [done|]. split; [done|]. intros ? [= <-].
    apply andb_false_iff in Hactive as [Hth|Hb].
    + destruct (Rlt_dec 0 th); [by rewrite ltb_true in Hth|lra].
    + by rewrite ltb_true in Hb.
Qed.

Lemma ranked_nonempty (slots : list slot) :
  0 < best slots → admits →
  ∃ h t,
    ranked sensor_weights sensor_positions ideal threshold slots = h :: t.
Proof.
  intros Hbest Hadmits. unfold ranked. fold original_disp.
  change (simulate sensor_weights sensor_positions ideal original_disp
            slots).2 with (best slots).
  change (simulate sensor_weights sensor_positions ideal original_disp
            slots).1 with (candidates slots).
  destruct (sorted_nonempty slots Hbest) as (h & t & Hsort).
  rewrite Hsort. destruct (sorted_head _ _ _ Hsort) as [Hh _].
  unfold apply_threshold. destruct threshold as [th|]; [|eauto].
  destruct (Py.ltb 0 th && Py.ltb 0 (best slots)); [|eauto].
  specialize (Hadmits th eq_refl). simpl.
  rewrite leb_true by nra. eauto.
Qed.

(** More positions can only raise the best single-slot improvement. *)
Lemma best_monotone (slots slots' : list slot) :
  positions slots ⊆ positions slots' → best slots <= best slots'.
Proof.
  intros Hsub.
  destruct (simulate_max sensor_weights sensor_positions ideal
              original_disp slots) as (_ & _ & Hex).
  destruct (simulate_max sensor_weights sensor_positions ideal
              original_disp slots') as (Hnn & Hall & _).
  change (simulate sensor_weights sensor_positions ideal original_disp
            slots).2 with (best slots) in Hex.
  change (simulate sensor_weights sensor_positions ideal original_disp
            slots').2 with (best slots') in Hnn, Hall.
  destruct (Rlt_dec 0 (best slots)) as [Hpos|]; [|lra].
  destruct (Hex Hpos) as (s & Hs & <-).
  assert (Hin : (x s, y s) ∈ positions slots').
  { apply Hsub. apply list_elem_of_In, in_map_iff. exists s.
    split; [done|]. by apply list_elem_of_In. }
  apply list_elem_of_In, in_map_iff in Hin as (s' & Heq & Hs').
  injection Heq as Hx Hy.
  rewrite <- (percent_of_position _ _ _ _ s' s Hx Hy).
  apply Hall. by apply list_elem_of_In.
Qed.

End RankedHead.

(** *** Enabling more slots *)

Section Monotonicity.

Import TrayOptimizer Layout.

(** The displacement after one unit in a candidate's slot, from its
    recorded percent. *)
Lemma one_unit_displacement (sensor_weights : list R)
    (sensor_positions : list (R * R)) (ideal : R * R) (c : candidate) :
  let original_disp :=
    calculate_displacement (calculate_com sensor_weights sensor_positions)
      ideal in
  percent_improvement c
    = percent_of sensor_weights sensor_positions ideal original_disp c →
  0 < percent_improvement c →
  calculate_displacement
    (calculate_com
       (sensor_weights ++ map (λ _, effect_weight_grams) [c])
       (sensor_positions ++ map (λ s : candidate, (x s, y s)) [c]))
    ideal
  = original_disp - percent_improvement c * original_disp.
Proof.
  intros original_disp Hpct Hpos. rewrite Hpct in *. clear Hpct.
  unfold percent_of in *. simpl.
  destruct (Py.eqb original_disp 0) eqn:Hzero; [lra|].
  assert (original_disp ≠ 0).
  { intros Heq. by rewrite eqb_true in Hzero. }
  field. done.
Qed.

Lemma calculate_displacement_nonneg (actual ideal : R * R) :
  0 <= calculate_displacement actual ideal.
Proof. unfold calculate_displacement. apply sqrt_pos. Qed.

Section OneUnit.

Variables (sensor_weights : list R) (sensor_positions : list (R * R)).
Variables (ideal_com : R * R) (bias_settings : gmap string R).
Variables (general_settings : gmap string (gmap string num)).
Variables (tray_flags : gmap string bool).
Variables (max_weight : R) (max_weight_unit : string).
Variable threshold : option R.

Let ideal' : R * R := apply_bias_to_com ideal_com bias_settings.
Let available : R :=
  convert_to_grams max_weight max_weight_unit - Py.sum sensor_weights.
Let original_disp : R :=
  calculate_displacement (calculate_com sensor_weights sensor_positions)
    ideal'.
Let admits : Prop := ∀ th, threshold = Some th → th <= 1.

Abbreviation best :=
  (best_improvement sensor_weights sensor_positions ideal').

(** With room for at most one unit, the final displacement is the
    original one, or the original one reduced by the best single-slot
    improvement; the latter whenever a unit fits, some slot improves and
    the threshold admits it. *)
Lemma one_unit_run (g : grid) (r : TrayLayoutResult) :
  0 < available < 2 * effect_weight_grams →
  build_slots general_settings tray_flags = Ok g →
  compute_optimal_tray_layout sensor_weights sensor_positions ideal_com
    bias_settings general_settings tray_flags max_weight max_weight_unit
    threshold = Ok r →
  let reduced := original_disp - best (g_slots g) * original_disp in
  (displacement r = original_disp
   ∨ (displacement r = reduced ∧ 0 < best (g_slots g) ∧ admits
      ∧ effect_weight_grams <= available))
  ∧ (effect_weight_grams <= available → 0 < best (g_slots g) → admits →
     displacement r = reduced).
Proof.
  intros [Hav Hroom] Hg Hr reduced.
  destruct (optimizer_run sensor_weights sensor_positions ideal_com
              bias_settings general_settings tray_flags max_weight
              max_weight_unit threshold g Hav Hg)
    as (n & r' & Hr' & Hn & Hfit & Hstop & _ & Hcom & Hdisp & _).
  cbv zeta in Hr', Hn, Hfit, Hstop, Hcom, Hdisp.
  rewrite Hr in Hr'. injection Hr' as <-.
  fold ideal' available in Hn, Hfit, Hstop, Hcom, Hdisp.
  rewrite Hcom in Hdisp. clear Hcom.
  unfold effect_weight_grams in Hroom, Hfit, Hstop |- *.
  assert (Hn2 : (n < 2)%nat).
  { apply INR_lt. simpl. lra. }
  set (candidates := ranked sensor_weights sensor_positions ideal'
                       threshold (g_slots g)) in *.
  assert (Hnone : take n candidates = [] →
                  displacement r = original_disp).
  { intros Hnil. rewrite Hdisp, Hnil. simpl. by rewrite !app_nil_r. }
  assert (Hone : ∀ h t, candidates = h :: t → n = 1%nat →
                 displacement r = reduced ∧ 0 < best (g_slots g) ∧ admits).
  { intros h t Hcands ->.
    destruct (ranked_head _ _ _ _ _ _ _ Hcands) as (Hh & Hbest & Hadm).
    split; [|done]. rewrite Hdisp, Hcands.
    change (take 1 (h :: t)) with [h].
    assert (Hh' : h ∈ candidates) by (rewrite Hcands; by left).
    apply ranked_elem in Hh' as (_ & Hpct & Hpos).
    rewrite one_unit_displacement by done.
    fold original_disp. subst reduced. by rewrite Hh. }
  split.
  - destruct candidates as [|h t] eqn:Hcands.
    { left. apply Hnone. by destruct n. }
    destruct n as [|[|n]]; [left; by apply Hnone| |lia].
    right. destruct (Hone h t eq_refl eq_refl) as (? & ? & ?).
    repeat split; try done. simpl in Hfit. lra.
  - intros Hunit Hbest Hadm.
    destruct (ranked_nonempty sensor_weights sensor_positions ideal'
                threshold (g_slots g) Hbest Hadm) as (h & t & Hcands).
    fold candidates in Hcands.
    destruct n as [|[|n]]; [|by eapply Hone|lia].
    rewrite Hcands in Hstop. simpl in Hstop.
    assert (0 < S (length t))%nat as Hlt by lia. apply Hstop in Hlt. lra.
Qed.

End OneUnit.

End Monotonicity.

Section MoreSlots.

Import TrayOptimizer Layout.

(** Enabling the back tray of the worked configuration adds a slot and
    keeps the front one, the budget of 339 g is the same, and the final
    displacement grows from 0 to 2/3. *)
Lemma more_slots_larger_displacement :
  ∃ (g_sub g_sup : grid) (r_sub r_sup : TrayLayoutResult),
    build_slots Scenario.general_settings Scenario.front_only = Ok g_sub
    ∧ build_slots Scenario.general_settings Scenario.both_trays = Ok g_sup
    ∧ g_slots g_sub ⊆ g_slots g_sup
    ∧ Scenario.run Scenario.front_only 339 = Ok r_sub
    ∧ Scenario.run Scenario.both_trays 339 = Ok r_sup
    ∧ displacement r_sub < displacement r_sup.
Proof.
  do 4 eexists.
  split; [apply scenario_grid_front|].
  split; [apply scenario_grid_both|].
  split; [|split; [apply scenario_front_only|]].
  - simpl. intros s Hs. apply list_elem_of_singleton in Hs as ->. by left.
  - split; [apply scenario_both_trays|]. simpl. lra.
Qed.

(** C3 (amended).  When the available weight leaves room for at most one
    113 g unit, a grid whose slot positions include those of another
    never yields a greater final displacement than that other grid, all
    other inputs being equal. *)
Theorem one_unit_more_slots_no_worse
    (sensor_weights : list R) (sensor_positions : list (R * R))
    (ideal_com : R * R) (bias_settings : gmap string R)
    (settings_sub settings_sup : gmap string (gmap string num))
    (flags_sub flags_sup : gmap string bool)
    (max_weight : R) (max_weight_unit : string) (threshold : option R)
    (g_sub g_sup : grid) (r_sub r_sup : TrayLayoutResult) :
  build_slots settings_sub flags_sub = Ok g_sub →
  build_slots settings_sup flags_sup = Ok g_sup →
  positions (g_slots g_sub) ⊆ positions (g_slots g_sup) →
  convert_to_grams max_weight max_weight_unit
    - fold_right Rplus 0 sensor_weights < 2 * 113 →
  compute_optimal_tray_layout sensor_weights sensor_positions ideal_com
    bias_settings settings_sub flags_sub max_weight max_weight_unit
    threshold = Ok r_sub →
  compute_optimal_tray_layout sensor_weights sensor_positions ideal_com
    bias_settings settings_sup flags_sup max_weight max_weight_unit
    threshold = Ok r_sup →
  displacement r_sup <= displacement r_sub.
Proof.
  intros Hsub Hsup Hincl Hroom Hrsub Hrsup.
  rewrite <- sum_fold_right in Hroom.
  destruct (Rle_dec (convert_to_grams max_weight max_weight_unit
                     - Py.sum sensor_weights) 0) as [Hnone|Hsome].
  { apply compute_cases in Hrsub as [[_ ->] | [Hav _]]; [|lra].
    apply compute_cases in Hrsup as [[_ ->] | [Hav _]]; [|lra].
    simpl. lra. }
  assert (Hav : 0 < convert_to_grams max_weight max_weight_unit
                    - Py.sum sensor_weights
                < 2 * effect_weight_grams)
    by (unfold effect_weight_grams; lra).
  destruct (one_unit_run sensor_weights sensor_positions ideal_com
              bias_settings settings_sub flags_sub max_weight
              max_weight_unit threshold g_sub r_sub Hav Hsub Hrsub)
    as [Hcase_sub _].
  destruct (one_unit_run sensor_weights sensor_positions ideal_com
              bias_settings settings_sup flags_sup max_weight
              max_weight_unit threshold g_sup r_sup Hav Hsup Hrsup)
    as [Hcase_sup Hreduced].
  pose proof (best_monotone sensor_weights sensor_positions
                (apply_bias_to_com ideal_com bias_settings)
                _ _ Hincl) as Hbest.
  pose proof (calculate_displacement_nonneg
                (calculate_com sensor_weights sensor_positions)
                (apply_bias_to_com ideal_com bias_settings)) as Hnn.
  destruct Hcase_sub as [-> | (-> & Hpos & Hadm & Hunit)].
  - destruct Hcase_sup as [-> | (-> & Hpos & _)]; [lra|nra].
  - rewrite Hreduced; [nra|done|lra|done].
Qed.

Lemma one_unit_more_slots_no_worse_witness :
  ∃ r_sub r_sup : TrayLayoutResult,
    Scenario.run Scenario.front_only 226 = Ok r_sub
    ∧ Scenario.run Scenario.both_trays 226 = Ok r_sup
    ∧ displacement r_sup <= displacement r_sub.
Proof.
  do 2 eexists.
  split; [apply scenario_front_only_one|].
  split; [apply scenario_both_trays_one|].
  apply (one_unit_more_slots_no_worse Scenario.sensor_weights
           Scenario.sensor_positions Scenario.ideal_com ∅
           Scenario.general_settings Scenario.general_settings
           Scenario.front_only Scenario.both_trays 226 "g" None _ _ _ _
           scenario_grid_front scenario_grid_both);
    [| |apply scenario_front_only_one|apply scenario_both_trays_one].
  - simpl. intros p Hp. apply list_elem_of_singleton in Hp as ->. by left.
  - unfold convert_to_grams, Cal_Math.convert_unit,
      Scenario.sensor_weights. simpl. lra.
Defined.

End MoreSlots.

(** ** The claims on the worked configuration *)

Section WorkedClaims.

Import TrayOptimizer Layout.

Lemma total_weight_budget_witness :
  (∃ n : nat, 339 - fold_right Rplus 0 Scenario.sensor_weights = 113 * INR n)
  ∧ (fold_right Rplus 0 Scenario.sensor_weights <= convert_to_grams 339 "g" →
     339 <= convert_to_grams 339 "g").
Proof.
  destruct (total_weight_budget Scenario.sensor_weights
              Scenario.sensor_positions Scenario.ideal_com ∅
              Scenario.general_settings Scenario.both_trays 339 "g" None _
              scenario_both_trays) as (Hunits & Hlimit & _).
  split; [exact Hunits | exact Hlimit].
Defined.


End WorkedClaims.

(** * Further properties of the calibration helper *)

Section ConversionFacts.

Import Cal_Math.

(** X1.  A target unit outside g, kg, oz, lb and lbs is no error: the
    value comes back in grams. *)
Theorem convert_unit_unknown_target (x : R) (from_unit to_unit : string) :
  to_unit ∉ ["g"; "kg"; "oz"; "lb"; "lbs"]%string →
  convert_unit x from_unit to_unit = convert_unit x from_unit "g".
Proof.
  intros Hnot. unfold convert_unit.
  assert (Hne : ∀ u, u ∈ ["g"; "kg"; "oz"; "lb"; "lbs"]%string →
                     (to_unit =? u)%string = false).
  { intros u Hu. apply String.eqb_neq. by intros ->. }
  rewrite !Hne by (apply list_elem_of_In; simpl; tauto).
  reflexivity.
Qed.

Lemma convert_unit_unknown_target_witness :
  convert_unit 2 "kg" "stone" = convert_unit 2 "kg" "g".
Proof.
  apply convert_unit_unknown_target.
  intros Hin. apply list_elem_of_In in Hin. simpl in Hin.
  repeat destruct Hin as [Hin|Hin]; try discriminate. done.
Defined.

(** X2.  Between any two recognised units, converting there and back
    returns the value within a relative error of [2e-6]. *)
Theorem convert_unit_pair_round_trip (x : R) (A B : string) :
  known_unit A → known_unit B →
  Rabs (convert_unit (convert_unit x A B) B A - x) <= 2e-6 * Rabs x.
Proof.
  intros HA HB.
  destruct (Rle_dec 0 x) as [Hx|Hx].
  - rewrite (Rabs_pos_eq x) by done. apply Rabs_le.
    destruct HA as [-> | [-> | [-> | ->]]],
             HB as [-> | [-> | [-> | ->]]];
      unfold convert_unit; simpl; lra.
  - rewrite (Rabs_left x) by lra. apply Rabs_le.
    destruct HA as [-> | [-> | [-> | ->]]],
             HB as [-> | [-> | [-> | ->]]];
      unfold convert_unit; simpl; lra.
Qed.

Lemma convert_unit_pair_round_trip_witness :
  Rabs (convert_unit (convert_unit 16 "oz" "lb") "lb" "oz" - 16)
    <= 2e-6 * Rabs 16.
Proof.
  apply convert_unit_pair_round_trip.
  - right; right; left; reflexivity.
  - right; right; right; reflexivity.
Defined.

(** The bound [1e-6] of the gram round trip does not extend to every
    pair: ounces to pounds and back loses more. *)
Lemma oz_lb_round_trip_error :
  1e-6 * Rabs 16
  < Rabs (convert_unit (convert_unit 16 "oz" "lb") "lb" "oz" - 16).
Proof.
  unfold convert_unit. simpl.
  rewrite (Rabs_pos_eq 16) by lra. rewrite Rabs_left; lra.
Qed.

(** X3.  Conversion is linear in the value, for every pair of unit
    strings. *)
Theorem convert_unit_linear (a x y : R) (from_unit to_unit : string) :
  convert_unit (a * x + y) from_unit to_unit
  = a * convert_unit x from_unit to_unit
    + convert_unit y from_unit to_unit.
Proof.
  unfold convert_unit.
  repeat match goal with
         | |- context [if ?b then _ else _] => destruct b
         end; lra.
Qed.

(** X4.  The display's own converter computes what [convert_unit]
    computes, element by element, for every unit string but ["lbs"]. *)
Theorem simple_unit_conversion_agrees (values : list R)
    (from_unit to_unit : string) :
  from_unit ≠ "lbs"%string → to_unit ≠ "lbs"%string →
  LiveFeed.simple_unit_conversion values from_unit to_unit
  = map (λ v, convert_unit v from_unit to_unit) values.
Proof.
  intros Hfrom Hto. apply String.eqb_neq in Hfrom, Hto.
  unfold LiveFeed.simple_unit_conversion. apply map_ext. intros v.
  unfold convert_unit. rewrite Hfrom, Hto, !orb_false_r.
  destruct (to_unit =? "g")%string eqn:Hg; [|done].
  apply String.eqb_eq in Hg as ->. reflexivity.
Qed.

Lemma simple_unit_conversion_agrees_witness :
  LiveFeed.simple_unit_conversion [1; 2] "kg" "oz"
  = map (λ v, convert_unit v "kg" "oz") [1; 2].
Proof. apply simple_unit_conversion_agrees; discriminate. Defined.

(** On ["lbs"] the two differ: [convert_unit] reads pounds, the display
    leaves the value alone. *)
Lemma simple_unit_conversion_lbs :
  LiveFeed.simple_unit_conversion [1] "lbs" "g" = [1]
  ∧ convert_unit 1 "lbs" "g" = 1 * 453.592.
Proof. split; reflexivity. Qed.

End ConversionFacts.

Section ApplyFacts.

Import Cal_Math.

(** The reading that [apply] returns for one sensor. *)
Lemma apply_from_lookup (cals : list calibration) (k i : nat)
    (values : list R) (unit : string) :
  apply_from cals k values unit !! i
  = (λ value,
       convert_unit
         match cals !! (k + i)%nat with
         | Some cal =>
             default 1 (slope cal) * value + default 0 (intercept cal)
         | None => value
         end "g" unit) <$> values !! i.
Proof.
  revert k i. induction values as [|v vs IH]; intros k i; [done|].
  destruct i as [|i]; simpl.
  - by rewrite Nat.add_0_r.
  - rewrite IH. by replace (S k + i)%nat with (k + S i)%nat by lia.
Qed.

Lemma apply_lookup (self : CalibrationData) (i : nat) (values : list R)
    (unit : string) :
  apply self values unit !! i
  = (λ value,
       convert_unit
         match calibrations self !! i with
         | Some cal =>
             default 1 (slope cal) * value + default 0 (intercept cal)
         | None => value
         end "g" unit) <$> values !! i.
Proof. unfold apply. by rewrite apply_from_lookup. Qed.

Lemma apply_length (self : CalibrationData) (values : list R)
    (unit : string) :
  length (apply self values unit) = length values.
Proof. apply apply_from_length. Qed.

(** X5.  A fresh [CalibrationData] leaves readings in grams untouched,
    however many there are. *)
Theorem apply_init_identity (values : list R) :
  apply init values "g" = values.
Proof.
  apply list_eq. intros i. rewrite apply_lookup.
  destruct (values !! i) as [v|]; [|done]. simpl.
  rewrite convert_unit_g_g. f_equal.
  change [default_calibration; default_calibration; default_calibration;
          default_calibration] with (replicate 4 default_calibration).
  destruct (replicate 4 default_calibration !! i) as [cal|] eqn:Hcal;
    [|done].
  apply lookup_replicate in Hcal as [-> _]. simpl. lra.
Qed.

(** X6.  Asking [apply] for another unit is asking for grams and
    converting the result. *)
Theorem apply_then_convert (self : CalibrationData) (values : list R)
    (unit : string) :
  apply self values unit
  = map (λ grams, convert_unit grams "g" unit) (apply self values "g").
Proof.
  apply list_eq. intros i.
  rewrite list_lookup_fmap, !apply_lookup.
  by destruct (values !! i).
Qed.

End ApplyFacts.

Section FitFacts.

Import Cal_Math.

Lemma valid_index (self : CalibrationData) (sensor_index : Z) :
  (0 <= sensor_index < Z.of_nat (length (calibrations self)))%Z →
  ((sensor_index <? 0)
   || (Z.of_nat (length (calibrations self)) <=? sensor_index))%Z = false
  ∧ (Z.to_nat sensor_index < length (calibrations self))%nat.
Proof.
  intros [Hlo Hhi]. split; [|lia].
  apply orb_false_iff. split; [apply Z.ltb_ge | apply Z.leb_gt]; lia.
Qed.

(** X7.  Whatever the index and the points, [set_sensor_calibration]
    keeps the number of calibrations and the [loaded] flag and touches no
    sensor but the addressed one; an index out of range changes nothing
    and is answered with [False]. *)
Theorem set_sensor_calibration_frame
    (polyfit : list R → list R → result (R * R)) (self : CalibrationData)
    (sensor_index : Z) (points : list (R * R * string)) :
  let self' := (set_sensor_calibration polyfit self sensor_index points).1 in
  length (calibrations self') = length (calibrations self)
  ∧ loaded self' = loaded self
  ∧ (∀ j : nat, j ≠ Z.to_nat sensor_index →
       calibrations self' !! j = calibrations self !! j)
  ∧ ((sensor_index < 0
      ∨ Z.of_nat (length (calibrations self)) <= sensor_index)%Z →
     set_sensor_calibration polyfit self sensor_index points
     = (self, false)).
Proof.
  unfold set_sensor_calibration.
  destruct ((sensor_index <? 0)
            || (Z.of_nat (length (calibrations self)) <=? sensor_index))%Z
    eqn:Hrange.
  { simpl. done. }
  apply orb_false_iff in Hrange as [Hlo%Z.ltb_ge Hhi%Z.leb_gt].
  assert (Hframe : ∀ cal,
    let self' := set_calibration (Z.to_nat sensor_index) cal self in
    length (calibrations self') = length (calibrations self)
    ∧ loaded self' = loaded self
    ∧ ∀ j : nat, j ≠ Z.to_nat sensor_index →
        calibrations self' !! j = calibrations self !! j).
  { intros cal. simpl. rewrite length_insert. split; [done|].
    split; [done|]. intros j Hj. by rewrite list_lookup_insert_ne. }
  assert (Hin : ¬ (sensor_index < 0
                   ∨ Z.of_nat (length (calibrations self))
                     <= sensor_index)%Z) by lia.
  destruct (length points <? 2)%nat.
  { destruct (Hframe default_calibration) as (? & ? & ?). simpl.
    repeat split; try done; intros; lia. }
  destruct (polyfit _ _) as [[slope intercept]|e].
  - destruct (Hframe {| slope := Some slope; intercept := Some intercept;
                        unit := "g"; calibration_points := points |})
      as (? & ? & ?). simpl. repeat split; try done; intros; lia.
  - destruct (Hframe default_calibration) as (? & ? & ?). simpl.
    repeat split; try done; intros; lia.
Qed.

Lemma set_sensor_calibration_frame_witness :
  set_sensor_calibration (λ _ _, Ok (2, 1)) init 7 [] = (init, false).
Proof.
  destruct (set_sensor_calibration_frame (λ _ _, Ok (2, 1)) init 7 [])
    as (_ & _ & _ & H).
  apply H. right. simpl. lia.
Defined.

(** The weights in grams and the raw values handed to the fit. *)
Lemma fit_arguments (points : list (R * R * string)) :
  map fst (map (λ p, (p.1.1, convert_unit p.1.2 p.2 "g")) points)
  = map (λ p, p.1.1) points
  ∧ map snd (map (λ p, (p.1.1, convert_unit p.1.2 p.2 "g")) points)
    = map (λ p, convert_unit p.1.2 p.2 "g") points.
Proof. by rewrite !map_map. Qed.

(** X8.  A fit attempt with fewer than two points, or one whose
    regression raises, wipes the sensor's calibration: the call answers
    [False], the sensor holds the identity, and its reading in grams is
    the raw value again. *)
Theorem failed_fit_resets_sensor
    (polyfit : list R → list R → result (R * R)) (self : CalibrationData)
    (sensor_index : Z) (points : list (R * R * string))
    (values : list R) :
  (0 <= sensor_index < Z.of_nat (length (calibrations self)))%Z →
  ((length points < 2)%nat
   ∨ ∃ e, polyfit (map (λ p, p.1.1) points)
            (map (λ p, convert_unit p.1.2 p.2 "g") points) = Raise e) →
  let fit := set_sensor_calibration polyfit self sensor_index points in
  fit.2 = false
  ∧ get_calibration_params fit.1 sensor_index = Some default_calibration
  ∧ apply fit.1 values "g" !! Z.to_nat sensor_index
    = values !! Z.to_nat sensor_index.
Proof.
  intros Hrange Hfail.
  destruct (valid_index self sensor_index Hrange) as [Hvalid Hlt].
  assert (Hreset :
    set_sensor_calibration polyfit self sensor_index points
    = (set_calibration (Z.to_nat sensor_index) default_calibration self,
       false)).
  { unfold set_sensor_calibration. rewrite Hvalid.
    destruct (Nat.ltb_spec (length points) 2) as [_|Hlen]; [done|].
    destruct Hfail as [Hshort | [e He]]; [lia|].
    destruct (fit_arguments points) as [-> ->]. by rewrite He. }
  cbv zeta. rewrite Hreset. simpl. split; [done|].
  unfold get_calibration_params, set_calibration. simpl.
  rewrite length_insert, Hvalid.
  rewrite list_lookup_insert_eq by done. split; [done|].
  rewrite apply_lookup. simpl. rewrite list_lookup_insert_eq by done.
  destruct (values !! Z.to_nat sensor_index) as [v|]; [|done].
  simpl. rewrite convert_unit_g_g. f_equal. lra.
Qed.

Lemma failed_fit_resets_sensor_witness :
  (set_sensor_calibration (λ _ _, Ok (2, 1)) init 0 [(10, 5, "g")]).2
  = false.
Proof.
  destruct (failed_fit_resets_sensor (λ _ _, Ok (2, 1)) init 0
              [(10, 5, "g"%string)] []) as [H _].
  - simpl. lia.
  - left. simpl. lia.
  - exact H.
Defined.

(** X9.  A fit that succeeds answers [True], stores the fitted line with
    the points as given, makes [apply] return [slope * raw + intercept]
    grams for that sensor, and makes [is_loaded] true. *)
Theorem successful_fit_stored
    (polyfit : list R → list R → result (R * R)) (self : CalibrationData)
    (sensor_index : Z) (points : list (R * R * string))
    (slope intercept : R) (values : list R) :
  (0 <= sensor_index < Z.of_nat (length (calibrations self)))%Z →
  (2 <= length points)%nat →
  polyfit (map (λ p, p.1.1) points)
    (map (λ p, convert_unit p.1.2 p.2 "g") points)
  = Ok (slope, intercept) →
  let fit := set_sensor_calibration polyfit self sensor_index points in
  fit.2 = true
  ∧ get_calibration_params fit.1 sensor_index
    = Some {| Cal_Math.slope := Some slope;
              Cal_Math.intercept := Some intercept;
              unit := "g"; calibration_points := points |}
  ∧ apply fit.1 values "g" !! Z.to_nat sensor_index
    = (λ raw, slope * raw + intercept) <$> values !! Z.to_nat sensor_index
  ∧ is_loaded fit.1 = true.
Proof.
  intros Hrange Hlen Hfit.
  destruct (valid_index self sensor_index Hrange) as [Hvalid Hlt].
  assert (Hstored :
    set_sensor_calibration polyfit self sensor_index points
    = (set_calibration (Z.to_nat sensor_index)
         {| Cal_Math.slope := Some slope;
            Cal_Math.intercept := Some intercept;
            unit := "g"; calibration_points := points |} self,
       true)).
  { unfold set_sensor_calibration. rewrite Hvalid.
    destruct (Nat.ltb_spec (length points) 2) as [?|_]; [lia|].
    destruct (fit_arguments points) as [-> ->]. by rewrite Hfit. }
  cbv zeta. rewrite Hstored. simpl. split; [done|].
  unfold get_calibration_params, set_calibration. simpl.
  rewrite length_insert, Hvalid.
  rewrite list_lookup_insert_eq by done. split; [done|]. split.
  - rewrite apply_lookup. simpl. rewrite list_lookup_insert_eq by done.
    by destruct (values !! Z.to_nat sensor_index).
  - unfold is_loaded. simpl. destruct (loaded self); [done|].
    apply existsb_exists. eexists. split.
    + apply list_elem_of_In. eapply list_elem_of_lookup_2.
      by apply list_lookup_insert_eq.
    + simpl. apply orb_true_iff. right. apply Nat.ltb_lt. lia.
Qed.

Lemma successful_fit_stored_witness :
  is_loaded
    (set_sensor_calibration (λ _ _, Ok (2, 1)) init 0
       [(10, 21, "g"); (20, 41, "g")]).1 = true.
Proof.
  destruct (successful_fit_stored (λ _ _, Ok (2, 1)) init 0
              [(10, 21, "g"%string); (20, 41, "g"%string)] 2 1 [])
    as (_ & _ & _ & H).
  - simpl. lia.
  - simpl. lia.
  - reflexivity.
  - exact H.
Defined.

End FitFacts.

Section FitQuality.

Import Cal_Math.

Lemma sum_zero_all_zero (xs : list R) :
  Forall (λ x, 0 <= x) xs → Py.sum xs = 0 → Forall (λ x, x = 0) xs.
Proof.
  induction 1 as [|x xs Hx Hxs IH]; [constructor|].
  rewrite sum_cons. intros Hsum. pose proof (sum_nonneg xs Hxs).
  constructor; [lra|]. apply IH. lra.
Qed.

Lemma squares_nonneg {A} (f : A → R) (l : list A) :
  Forall (λ x, 0 <= x) (map (λ a, f a ^ 2) l).
Proof.
  apply Forall_forall. intros x Hx.
  apply list_elem_of_In, in_map_iff in Hx as (a & <- & _).
  apply pow2_ge_0.
Qed.

Lemma residuals_nonneg (ys ps : list R) :
  Forall (λ x, 0 <= x) (zip_with (λ y p, (y - p) ^ 2) ys ps).
Proof.
  revert ps. induction ys as [|y ys IH]; intros [|p ps]; simpl;
    try constructor; [apply pow2_ge_0 | apply IH].
Qed.

(** An exact fit leaves no residual. *)
Lemma exact_fit_no_residual (slope intercept : R) (xs ys : list R) :
  Forall2 (λ x y, y = slope * x + intercept) xs ys →
  Py.sum (zip_with (λ y p, (y - p) ^ 2) ys
            (map (λ x, slope * x + intercept) xs)) = 0.
Proof.
  induction 1 as [|x y xs ys Hxy _ IH]; [done|].
  cbn [map zip_with]. rewrite sum_cons, IH, Hxy. lra.
Qed.

(** Equal targets have no variation. *)
Lemma flat_no_variation (c : R) (ys : list R) :
  Forall (λ y, y = c) ys → Py.sum (map (λ y, (y - c) ^ 2) ys) = 0.
Proof.
  induction 1 as [|y l Hy _ IH]; [done|].
  cbn [map]. rewrite sum_cons, IH, Hy. lra.
Qed.

(** X10.  The fit quality never exceeds 1.  A line through all the points
    scores exactly 1 when the target weights differ from their mean
    somewhere; when all target weights are equal the score is 0, even for
    a line through all the points. *)
Theorem r_squared_range (slope intercept : R) (xs ys : list R) :
  r_squared slope intercept xs ys <= 1
  ∧ (Forall2 (λ x y, y = slope * x + intercept) xs ys →
     (∃ y, y ∈ ys ∧ y ≠ mean ys) →
     r_squared slope intercept xs ys = 1)
  ∧ ((∀ y, y ∈ ys → y = mean ys) →
     r_squared slope intercept xs ys = 0).
Proof.
  unfold r_squared.
  set (ss_total := Py.sum (map (λ y, (y - mean ys) ^ 2) ys)).
  set (ss_residual := Py.sum (zip_with _ _ _)).
  assert (Htot : 0 <= ss_total) by apply sum_nonneg, squares_nonneg.
  assert (Hres : 0 <= ss_residual) by apply sum_nonneg, residuals_nonneg.
  split; [|split].
  - unfold Py.eqb. destruct (Req_dec_T ss_total 0); [lra|].
    assert (0 <= ss_residual / ss_total); [|lra].
    apply Rmult_le_pos; [done|]. apply Rlt_le, Rinv_0_lt_compat. lra.
  - intros Hfit (y & Hy & Hne).
    assert (ss_total ≠ 0) as Hnz.
    { intros Hzero. apply sum_zero_all_zero in Hzero;
        [|apply squares_nonneg].
      rewrite Forall_forall in Hzero.
      specialize (Hzero ((y - mean ys) ^ 2)).
      assert ((y - mean ys) ^ 2 = 0) as Hsq.
      { apply Hzero, list_elem_of_In, in_map_iff. exists y.
        split; [done|]. by apply list_elem_of_In. }
      apply Hne. nra. }
    rewrite eqb_false by done. subst ss_residual.
    rewrite exact_fit_no_residual by done. field. done.
  - intros Hflat. rewrite eqb_true; [done|].
    subst ss_total. clear Htot.
    apply flat_no_variation. by apply Forall_forall.
Qed.

Lemma r_squared_range_witness : r_squared 0 5 [1; 2] [5; 5] = 0.
Proof.
  destruct (r_squared_range 0 5 [1; 2] [5; 5]) as (_ & _ & H).
  apply H. intros y Hy. apply list_elem_of_In in Hy. simpl in Hy.
  unfold mean, Py.sum. simpl. destruct Hy as [<-|[<-|[]]]; lra.
Defined.

End FitQuality.

Section LegacyFacts.

Import Cal_Math.

(** X11.  Converting a legacy list keeps its length and its meaning: the
    reading in grams of sensor [i] is [(raw - zero_offset) * scale_factor]
    for a dict or tuple entry (absent dict keys counting as offset 0 and
    scale 1), and the raw value itself for any other entry. *)
Theorem convert_v1_format_line (self : CalibrationData)
    (old_calibrations : list legacy_entry) (i : nat) (cal : legacy_entry)
    (values : list R) :
  old_calibrations !! i = Some cal →
  length (calibrations (_convert_v1_format self old_calibrations))
  = length old_calibrations
  ∧ apply (_convert_v1_format self old_calibrations) values "g" !! i
    = (λ raw, (raw - (legacy_line cal).1) * (legacy_line cal).2)
        <$> values !! i.
Proof.
  intros Hcal. unfold _convert_v1_format. simpl.
  rewrite length_map. split; [done|].
  rewrite apply_lookup. simpl. rewrite list_lookup_fmap, Hcal. simpl.
  destruct (values !! i) as [raw|]; [|done]. simpl.
  rewrite convert_unit_g_g. f_equal.
  destruct cal as [zero_offset scale_factor u | zero_offset scale_factor u |];
    simpl; lra.
Qed.

Lemma convert_v1_format_line_witness :
  apply (_convert_v1_format init [LegacyDict (Some 3) (Some 2) None])
    [10] "g" !! 0%nat
  = Some ((10 - 3) * 2).
Proof.
  destruct (convert_v1_format_line init [LegacyDict (Some 3) (Some 2) None]
              0 (LegacyDict (Some 3) (Some 2) None) [10] eq_refl)
    as [_ H].
  exact H.
Defined.

Lemma ensure_four_fixed (self : CalibrationData) :
  length (calibrations self) = 4%nat →
  _ensure_four_calibrations self = self.
Proof.
  intros Hlen. unfold _ensure_four_calibrations.
  destruct (Nat.ltb_spec 4 (length (calibrations self))); [lia|].
  rewrite Hlen. simpl. rewrite app_nil_r. by destruct self.
Qed.

(** X12.  [_ensure_four_calibrations] always leaves exactly four
    calibrations: the first four given ones in order, then identities;
    doing it twice changes nothing more. *)
Theorem ensure_four_calibrations_spec (self : CalibrationData) :
  let self' := _ensure_four_calibrations self in
  length (calibrations self') = 4%nat
  ∧ (∀ i : nat, (i < 4)%nat →
       calibrations self' !! i
       = Some (default default_calibration (calibrations self !! i)))
  ∧ _ensure_four_calibrations self' = self'.
Proof.
  assert (Hlen : ∀ s, length (calibrations (_ensure_four_calibrations s))
                      = 4%nat).
  { intros s. unfold _ensure_four_calibrations. simpl.
    rewrite length_app, length_replicate.
    destruct (Nat.ltb_spec 4 (length (calibrations s))).
    - rewrite length_take. lia.
    - lia. }
  cbv zeta. split; [apply Hlen|]. split.
  - intros i Hi. unfold _ensure_four_calibrations. simpl.
    destruct (Nat.ltb_spec 4 (length (calibrations self))) as [Hlong|Hshort].
    + rewrite lookup_app_l by (rewrite length_take; lia).
      rewrite lookup_take_lt by done.
      destruct (calibrations self !! i) eqn:Hl; [done|].
      apply lookup_ge_None in Hl. lia.
    + destruct (calibrations self !! i) as [cal|] eqn:Hl.
      * by rewrite lookup_app_l by (by eapply lookup_lt_Some).
      * apply lookup_ge_None in Hl. rewrite lookup_app_r by done.
        simpl. apply lookup_replicate. split; [done|]. lia.
  - apply ensure_four_fixed, Hlen.
Qed.

Lemma ensure_four_calibrations_spec_witness :
  calibrations
    (_ensure_four_calibrations (_convert_v1_format init [LegacyOther]))
    !! 2%nat
  = Some (default default_calibration
            (calibrations (_convert_v1_format init [LegacyOther]) !! 2%nat)).
Proof.
  apply (ensure_four_calibrations_spec
           (_convert_v1_format init [LegacyOther])).
  lia.
Defined.

End LegacyFacts.

(** * Further properties of the weight-distribution engine *)

Section EngineInvariants.

Import WeightDistribution.

Lemma calculate_displacement_consistent (self : t) :
  consistent (calculate_displacement self).
Proof. reflexivity. Qed.

Lemma calculate_com_consistent (self : t) :
  consistent self → consistent (calculate_com self).
Proof.
  intros Hc. unfold calculate_com.
  destruct (Py.leb _ _); [destruct (_ <? _)%nat|]; try done.
Qed.

Lemma tared_nonneg (calibrated tare : list R) :
  Forall (λ w, 0 <= w)
    (map (λ ct, Py.max2 0 (ct.1 - ct.2)) (zip calibrated tare)).
Proof.
  apply Forall_forall. intros w Hw.
  apply list_elem_of_In, in_map_iff in Hw as (ct & <- & _).
  rewrite max2_Rmax. apply Rmax_l.
Qed.

(** X13.  The engine never stores a negative weight: [update_sensor_data]
    keeps the weights non-negative whatever the values, the tare vector
    and the flag, and the other updates leave the weights alone. *)
Theorem weights_stay_nonneg (self : t) (values : list R)
    (tare_values : option (list R)) (pre_calibrated : bool)
    (positions : list (R * R)) (com_pos : R * R) :
  nonneg_weights self →
  nonneg_weights (update_sensor_data self values tare_values pre_calibrated)
  ∧ nonneg_weights (update_sensor_positions self positions)
  ∧ nonneg_weights (update_ideal_com self com_pos).
Proof.
  intros Hnn. unfold nonneg_weights in *. split; [|split].
  - destruct (Nat.lt_ge_cases (length values) 4) as [Hshort|Hlong].
    + unfold update_sensor_data.
      by destruct (Nat.ltb_spec (length values) 4); [|lia].
    + rewrite update_sensor_data_stored by done.
      destruct (tare_given tare_values);
        [apply tared_nonneg | apply untared_nonneg].
  - unfold update_sensor_positions. simpl.
    by rewrite calculate_com_weights.
  - unfold update_ideal_com. by destruct (negb _).
Qed.

Lemma weights_stay_nonneg_witness :
  nonneg_weights (update_sensor_data (init None) [-5; 2; -3; 4] None false).
Proof.
  apply (weights_stay_nonneg (init None) [-5; 2; -3; 4] None false []
           (0, 0)).
  unfold nonneg_weights. simpl. repeat constructor; lra.
Defined.

(** X14.  The stored displacement stays the difference of the stored
    COMs under [update_sensor_data] and [update_sensor_positions]; under
    [update_ideal_com] it does so exactly when the actual COM is not the
    origin or the displacement already was minus the new ideal COM. *)
Theorem displacement_stays_consistent (self : t) (values : list R)
    (tare_values : option (list R)) (pre_calibrated : bool)
    (positions : list (R * R)) (com_pos : R * R) :
  consistent self →
  consistent (update_sensor_data self values tare_values pre_calibrated)
  ∧ consistent (update_sensor_positions self positions)
  ∧ (consistent (update_ideal_com self com_pos)
     ↔ is_origin (actual_com self) = false
       ∨ displacement self = (0 - com_pos.1, 0 - com_pos.2)).
Proof.
  intros Hc. split; [|split].
  - unfold update_sensor_data. destruct (_ <? _)%nat; [done|].
    by apply calculate_com_consistent.
  - unfold update_sensor_positions.
    by apply (calculate_com_consistent (set_sensor_positions _ _)).
  - unfold update_ideal_com. simpl.
    destruct (is_origin (actual_com self)) eqn:Horigin; simpl.
    + unfold consistent. simpl.
      apply andb_prop in Horigin as [Hx Hy].
      unfold Py.eqb in Hx, Hy.
      destruct (Req_dec_T _ _) as [Hx0 | ]; [|done].
      destruct (Req_dec_T _ _) as [Hy0 | ]; [|done].
      rewrite Hx0, Hy0.
      split; [intros Hd; by right | by intros [? | Hd]].
    + split; [by left|]. intros _. apply calculate_displacement_consistent.
Qed.

Lemma displacement_stays_consistent_witness :
  consistent (update_sensor_positions (init None) [(1, 2); (3, 4)]).
Proof.
  apply (displacement_stays_consistent (init None) [] None false
           [(1, 2); (3, 4)] (0, 0)).
  unfold consistent. simpl. f_equal; lra.
Defined.

(** From the initial state a new ideal COM is not reflected in the
    displacement: the actual COM is the origin, so nothing is
    recomputed. *)
Lemma update_ideal_com_stale :
  displacement (update_ideal_com (init None) (1, 2)) = (0, 0)
  ∧ emitted (update_ideal_com (init None) (1, 2)) = [].
Proof.
  unfold update_ideal_com, is_origin. simpl.
  rewrite !eqb_true by done. done.
Qed.

End EngineInvariants.

Section CentreOfMass.

Import WeightDistribution.

(** A weighted sum of bounded coordinates is bounded by the bounds times
    the total weight, when every weight has a position. *)
Lemma weighted_sum_bounds (f : R * R → R) (lo hi : R) (ws : list R)
    (ps : list (R * R)) :
  (length ws <= length ps)%nat →
  Forall (λ w, 0 <= w) ws →
  Forall (λ p, lo <= f p <= hi) ps →
  lo * Py.sum ws <= Py.sum (map (λ wp, wp.1 * f wp.2) (zip ws ps))
  ∧ Py.sum (map (λ wp, wp.1 * f wp.2) (zip ws ps)) <= hi * Py.sum ws.
Proof.
  revert ps. induction ws as [|w ws IH]; intros ps Hlen Hws Hps.
  { simpl. rewrite sum_nil. lra. }
  destruct ps as [|p ps]; [simpl in Hlen; lia|].
  apply Forall_cons in Hws as [Hw Hws]. apply Forall_cons in Hps as [Hp Hps].
  simpl in Hlen. destruct (IH ps) as [IHlo IHhi]; [lia|done|done|].
  cbn [zip zip_with map fst snd]. rewrite !sum_cons. split; nra.
Qed.

Lemma plain_sum_bounds (f : R * R → R) (lo hi : R) (ps : list (R * R)) :
  Forall (λ p, lo <= f p <= hi) ps →
  lo * INR (length ps) <= Py.sum (map f ps)
  ∧ Py.sum (map f ps) <= hi * INR (length ps).
Proof.
  induction 1 as [|p ps Hp _ IH].
  { simpl. rewrite sum_nil. lra. }
  cbn [map length]. rewrite S_INR, sum_cons. lra.
Qed.

Lemma quotient_bounds (s t lo hi : R) :
  0 < t → lo * t <= s → s <= hi * t → lo <= s / t <= hi.
Proof.
  intros Ht Hlo Hhi.
  assert (Hq : s / t * t = s) by (field; lra).
  assert (0 < / t) by (by apply Rinv_0_lt_compat).
  split; apply Rmult_le_reg_r with t; lra.
Qed.

Lemma length_positive {A} (xs : list A) : xs ≠ [] → 0 < INR (length xs).
Proof.
  destruct xs; [done|]. intros _. rewrite length_cons, S_INR.
  pose proof (pos_INR (length xs)). lra.
Qed.

Lemma calculate_com_fallback (self : t) :
  Py.sum (sensor_weights self) <= 0 →
  sensor_positions self ≠ [] →
  actual_com (calculate_com self) = centroid (sensor_positions self).
Proof.
  intros Hsum Hne. unfold calculate_com. rewrite leb_true by done.
  destruct (sensor_positions self) as [|p ps] eqn:Hps; [done|].
  cbn [length Nat.ltb Nat.leb]. unfold centroid. simpl.
  by rewrite !length_map.
Qed.

(** X15.  With non-negative weights, at least one sensor position and a
    position for every weight, the COM that [calculate_com] stores lies in
    the bounding box of the sensor positions, whether it is the weighted
    mean or, for total weight zero, the centroid. *)
Theorem com_in_bounding_box (self : t) (xlo xhi ylo yhi : R) :
  sensor_positions self ≠ [] →
  (length (sensor_weights self) <= length (sensor_positions self))%nat →
  nonneg_weights self →
  Forall (λ p : R * R, (xlo <= p.1 <= xhi) ∧ (ylo <= p.2 <= yhi))
         (sensor_positions self) →
  (xlo <= (actual_com (calculate_com self)).1 <= xhi)
  ∧ (ylo <= (actual_com (calculate_com self)).2 <= yhi).
Proof.
  intros Hne Hlen Hnn Hbox.
  assert (Hx : Forall (λ p : R * R, xlo <= p.1 <= xhi)
                 (sensor_positions self)).
  { eapply Forall_impl; [exact Hbox|]. by intros p [? ?]. }
  assert (Hy : Forall (λ p : R * R, ylo <= p.2 <= yhi)
                 (sensor_positions self)).
  { eapply Forall_impl; [exact Hbox|]. by intros p [? ?]. }
  destruct (Rle_lt_dec (Py.sum (sensor_weights self)) 0) as [Hzero|Hpos].
  - rewrite calculate_com_fallback by done. unfold centroid. simpl.
    pose proof (length_positive _ Hne) as Hn.
    destruct (plain_sum_bounds fst xlo xhi _ Hx).
    destruct (plain_sum_bounds snd ylo yhi _ Hy).
    split; by apply quotient_bounds.
  - rewrite calculate_com_positive by done. simpl.
    destruct (weighted_sum_bounds fst xlo xhi _ _ Hlen Hnn Hx).
    destruct (weighted_sum_bounds snd ylo yhi _ _ Hlen Hnn Hy).
    split; by apply quotient_bounds.
Qed.

Lemma com_in_bounding_box_witness :
  (0 <= (actual_com
           (calculate_com
              (set_sensor_weights [1; 2; 3; 4]
                 (set_sensor_positions [(0, 0); (2, 0); (0, 4); (2, 4)]
                                       (init None))))).1 <= 2)
  ∧ (0 <= (actual_com
             (calculate_com
                (set_sensor_weights [1; 2; 3; 4]
                   (set_sensor_positions [(0, 0); (2, 0); (0, 4); (2, 4)]
                                         (init None))))).2 <= 4).
Proof.
  apply (com_in_bounding_box
           (set_sensor_weights [1; 2; 3; 4]
              (set_sensor_positions [(0, 0); (2, 0); (0, 4); (2, 4)]
                                    (init None))) 0 2 0 4).
  - simpl. discriminate.
  - simpl. lia.
  - unfold nonneg_weights. simpl. repeat constructor; lra.
  - simpl. repeat constructor; simpl; lra.
Defined.

Lemma sum_replicate (n : nat) (w : R) :
  Py.sum (replicate n w) = INR n * w.
Proof.
  induction n as [|n IH]; [unfold Py.sum; simpl; lra|].
  cbn [replicate]. rewrite sum_cons, IH, S_INR. lra.
Qed.

Lemma equal_weights_sum (f : R * R → R) (w : R) (ps : list (R * R)) :
  Py.sum (map (λ wp, wp.1 * f wp.2) (zip (replicate (length ps) w) ps))
  = w * Py.sum (map f ps).
Proof.
  induction ps as [|p ps IH]; [unfold Py.sum; simpl; lra|].
  change (zip (replicate (length (p :: ps)) w) (p :: ps))
    with ((w, p) :: zip (replicate (length ps) w) ps).
  cbn [map fst snd]. rewrite !sum_cons, IH. lra.
Qed.

(** X16.  When every sensor carries the same weight, whatever its value,
    [calculate_com] stores the centroid of the sensor positions. *)
Theorem equal_weights_centroid (self : t) (w : R) :
  sensor_positions self ≠ [] →
  sensor_weights self = replicate (length (sensor_positions self)) w →
  actual_com (calculate_com self) = centroid (sensor_positions self).
Proof.
  intros Hne Hws.
  pose proof (length_positive _ Hne) as Hn.
  destruct (Rle_lt_dec (Py.sum (sensor_weights self)) 0) as [Hzero|Hpos].
  { by apply calculate_com_fallback. }
  rewrite calculate_com_positive by done.
  rewrite Hws, sum_replicate in Hpos. rewrite Hws.
  rewrite !equal_weights_sum, sum_replicate. unfold centroid.
  assert (w ≠ 0) by (intros ->; lra).
  f_equal; field; split; lra.
Qed.

Lemma equal_weights_centroid_witness :
  actual_com
    (calculate_com
       (set_sensor_weights [5; 5]
          (set_sensor_positions [(0, 0); (2, 4)] (init None))))
  = centroid [(0, 0); (2, 4)].
Proof.
  apply (equal_weights_centroid
           (set_sensor_weights [5; 5]
              (set_sensor_positions [(0, 0); (2, 4)] (init None))) 5);
    done.
Defined.

Lemma sum_all_zero (xs : list R) :
  Forall (λ x, x = 0) xs → Py.sum xs = 0.
Proof.
  induction 1 as [|x xs Hx _ IH]; [apply sum_nil|].
  rewrite sum_cons. lra.
Qed.

(** X17.  When the tare vector is at least as large as each calibrated
    reading, [update_sensor_data] stores only zero weights and the COM
    falls back to the centroid of the sensor positions. *)
Theorem full_tare_gives_centroid (self : t) (values tare : list R)
    (pre_calibrated : bool) :
  (4 <= length values)%nat →
  (4 <= length tare)%nat →
  sensor_positions self ≠ [] →
  Forall (λ ct : R * R, ct.1 <= ct.2)
         (zip (calibrated_values self values pre_calibrated) tare) →
  let self' := update_sensor_data self values (Some tare) pre_calibrated in
  Forall (λ w, w = 0) (sensor_weights self')
  ∧ actual_com self' = centroid (sensor_positions self).
Proof.
  intros Hvalues Htare Hne Hle self'.
  assert (Hgiven : tare_given (Some tare) = true).
  { unfold tare_given. apply andb_true_intro.
    split; [apply Nat.ltb_lt | apply Nat.leb_le]; lia. }
  assert (Hzero : Forall (λ w, w = 0) (sensor_weights self')).
  { unfold self'. rewrite update_sensor_data_stored, Hgiven by done.
    simpl. apply Forall_forall. intros w Hw.
    apply list_elem_of_In, in_map_iff in Hw as (ct & <- & Hct).
    apply list_elem_of_In in Hct.
    rewrite Forall_forall in Hle. specialize (Hle ct Hct).
    rewrite max2_Rmax. apply Rmax_left. lra. }
  split; [done|].
  pose proof (sum_all_zero _ Hzero) as Hsum.
  unfold self', update_sensor_data in *.
  destruct (Nat.ltb_spec (length values) 4); [lia|].
  rewrite calculate_com_weights in Hsum.
  rewrite calculate_com_fallback; [done | lra | done].
Qed.

Lemma full_tare_gives_centroid_witness :
  let self := set_sensor_positions [(0, 0); (2, 4)] (init None) in
  let self' := update_sensor_data self [1; 2; 3; 4] (Some [1; 2; 3; 4])
                                  true in
  Forall (λ w, w = 0) (sensor_weights self')
  ∧ actual_com self' = centroid (sensor_positions self).
Proof.
  intros self.
  apply (full_tare_gives_centroid self [1; 2; 3; 4] [1; 2; 3; 4] true).
  - simpl. lia.
  - simpl. lia.
  - done.
  - simpl. repeat constructor; simpl; lra.
Defined.

(** X18.  [update_sensor_positions] with at least one position recomputes
    the COM from the new positions, leaves the displacement consistent,
    and emits the COM, then the displacement, then the geometry change;
    with no position it keeps the old COM and only announces the
    geometry change when no weight is stored. *)
Theorem update_sensor_positions_signals (self : t)
    (positions : list (R * R)) :
  let self' := update_sensor_positions self positions in
  (positions ≠ [] →
     emitted self'
     = emitted self ++ [com_calculated (actual_com self');
                        displacement_calculated (displacement self');
                        geometry_changed]
     ∧ displacement self'
       = ((actual_com self').1 - (ideal_com self).1,
          (actual_com self').2 - (ideal_com self).2))
  ∧ (positions = [] → Py.sum (sensor_weights self) <= 0 →
     emitted self' = emitted self ++ [geometry_changed]
     ∧ actual_com self' = actual_com self
     ∧ displacement self' = displacement self).
Proof.
  intros self'. unfold self', update_sensor_positions, calculate_com.
  split.
  - intros Hne. destruct positions as [|p ps]; [done|].
    cbn [set_sensor_positions sensor_positions sensor_weights length
         Nat.ltb Nat.leb].
    destruct (Py.leb _ _); simpl; by rewrite <- !app_assoc.
  - intros -> Hsum. simpl. by rewrite leb_true by done.
Qed.

Lemma update_sensor_positions_signals_witness :
  emitted (update_sensor_positions (init None) [(1, 2); (3, 4)])
  = [com_calculated
       (actual_com (update_sensor_positions (init None) [(1, 2); (3, 4)]));
     displacement_calculated
       (displacement (update_sensor_positions (init None) [(1, 2); (3, 4)]));
     geometry_changed]
  ∧ emitted (update_sensor_positions (init None) []) = [geometry_changed].
Proof.
  split.
  - apply (update_sensor_positions_signals (init None) [(1, 2); (3, 4)]).
    discriminate.
  - apply (update_sensor_positions_signals (init None) []); [done|].
    simpl. rewrite sum_cons. unfold Py.sum. simpl. lra.
Defined.

End CentreOfMass.

Section DisplayScaling.

Import WeightDistribution.

Lemma fold_left_min2 (xs : list R) (a : R) :
  fold_left Py.min2 xs a <= a
  ∧ ∀ x, x ∈ xs → fold_left Py.min2 xs a <= x.
Proof.
  revert a. induction xs as [|x xs IH]; intros a; simpl.
  { split; [lra|]. intros x Hx. by apply elem_of_nil in Hx. }
  destruct (IH (Py.min2 a x)) as (Hle & Hall).
  assert (Hmin : Py.min2 a x <= a ∧ Py.min2 a x <= x).
  { unfold Py.min2. destruct (Rlt_dec x a); lra. }
  split; [lra|].
  intros z Hz. apply elem_of_cons in Hz as [->|Hz]; [lra|].
  by apply Hall.
Qed.

(** [min(xs)] and [max(xs)] of a non-empty list bound it. *)
Lemma extremes_spec (xs : list R) :
  xs ≠ [] →
  ∃ lo hi, Py.min_list xs = Some lo ∧ Py.max_list xs = Some hi
           ∧ lo <= hi ∧ ∀ x, x ∈ xs → lo <= x <= hi.
Proof.
  destruct xs as [|a xs]; [done|]. intros _. simpl.
  destruct (fold_left_min2 xs a) as (Hlo & Hlos).
  destruct (fold_left_max2 xs a) as (_ & Hhi & His).
  eexists _, _. split; [done|]. split; [done|]. split; [lra|].
  intros x Hx. apply elem_of_cons in Hx as [->|Hx]; [lra|].
  split; [by apply Hlos | by apply His].
Qed.

(** The range of one axis after the test [min == max]. *)
Lemma padded_range (lo hi : R) :
  lo <= hi →
  ∃ lo' hi', (if Py.eqb lo hi then (lo - 1, hi + 1) else (lo, hi))
             = (lo', hi')
             ∧ lo' < hi' ∧ lo' <= lo ∧ hi <= hi'.
Proof.
  intros Hle. unfold Py.eqb. destruct (Req_dec_T lo hi).
  - eexists _, _. split; [done|]. lra.
  - eexists _, _. split; [done|]. lra.
Qed.

(** With a point to show, the result of [calculate_display_scaling] in
    terms of the padded data ranges. *)
Lemma display_scaling_ranges (self : t) :
  all_points self ≠ [] →
  ∃ x0 x1 y0 y1,
    x0 < x1 ∧ y0 < y1
    ∧ (∀ p, p ∈ all_points self → (x0 <= p.1 <= x1) ∧ (y0 <= p.2 <= y1))
    ∧ ∀ view_width view_height margin_percent,
        calculate_display_scaling self view_width view_height margin_percent
        = let margin_x := (x1 - x0) * (margin_percent / 100) in
          let margin_y := (y1 - y0) * (margin_percent / 100) in
          let data_width := (x1 + margin_x) - (x0 - margin_x) in
          let data_height := (y1 + margin_y) - (y0 - margin_y) in
          if Py.eqb data_width 0 then None
          else Some {| scale := view_width / data_width;
                       offset_x := 0;
                       offset_y :=
                         if Py.ltb (data_height * (view_width / data_width))
                                   view_height
                         then (view_height
                               - data_height * (view_width / data_width)) / 2
                         else 0;
                       min_x := x0 - margin_x; min_y := y0 - margin_y;
                       max_x := x1 + margin_x; max_y := y1 + margin_y |}.
Proof.
  intros Hne.
  assert (Hxs : map fst (all_points self) ≠ []).
  { by destruct (all_points self). }
  assert (Hys : map snd (all_points self) ≠ []).
  { by destruct (all_points self). }
  destruct (extremes_spec _ Hxs) as (xlo & xhi & Hxmin & Hxmax & Hx & Hxin).
  destruct (extremes_spec _ Hys) as (ylo & yhi & Hymin & Hymax & Hy & Hyin).
  destruct (padded_range _ _ Hx) as (x0 & x1 & Hxpad & Hx01 & Hx0 & Hx1).
  destruct (padded_range _ _ Hy) as (y0 & y1 & Hypad & Hy01 & Hy0 & Hy1).
  exists x0, x1, y0, y1. split; [done|]. split; [done|]. split.
  - intros p Hp.
    assert (Hpx : p.1 ∈ map fst (all_points self)).
    { apply list_elem_of_In, in_map, list_elem_of_In, Hp. }
    assert (Hpy : p.2 ∈ map snd (all_points self)).
    { apply list_elem_of_In, in_map, list_elem_of_In, Hp. }
    apply Hxin in Hpx. apply Hyin in Hpy. lra.
  - intros view_width view_height margin_percent.
    unfold calculate_display_scaling.
    rewrite decide_False by done.
    rewrite Hxmin, Hxmax, Hymin, Hymax. simpl.
    rewrite Hxpad, Hypad. reflexivity.
Qed.

(** X19.  With a point to show, a non-negative margin and a non-negative
    view width, [calculate_display_scaling] returns a scaling that fills
    the width exactly: it is left-aligned, the padded data range times the
    scale is the view width, and [transform_point] places every shown
    point horizontally inside the view. *)
Theorem display_scaling_fills_width (self : t)
    (view_width view_height margin_percent : R) :
  all_points self ≠ [] →
  0 <= margin_percent →
  0 <= view_width →
  ∃ sc,
    calculate_display_scaling self view_width view_height margin_percent
    = Some sc
    ∧ offset_x sc = 0
    ∧ (max_x sc - min_x sc) * scale sc = view_width
    ∧ ∀ p, p ∈ all_points self →
        0 <= (transform_point p (scale sc) (offset_x sc) (offset_y sc)
                              (min_x sc) (min_y sc)).1 <= view_width.
Proof.
  intros Hne Hm Hw.
  destruct (display_scaling_ranges self Hne)
    as (x0 & x1 & y0 & y1 & Hx & Hy & Hbox & Heq).
  rewrite Heq. cbv zeta.
  set (mx := (x1 - x0) * (margin_percent / 100)).
  assert (Hmx : 0 <= mx).
  { unfold mx. apply Rmult_le_pos; lra. }
  set (dw := x1 + mx - (x0 - mx)).
  assert (Hdw : 0 < dw) by (unfold dw; lra).
  rewrite eqb_false by lra.
  eexists. split; [done|]. simpl. split; [done|].
  fold dw. split; [field; lra|].
  intros p Hp. destruct (Hbox p Hp) as [Hpx _].
  assert (Hinv : 0 < / dw) by (by apply Rinv_0_lt_compat).
  assert (Hs : 0 <= view_width / dw).
  { unfold Rdiv. apply Rmult_le_pos; lra. }
  assert (Hfull : dw * (view_width / dw) = view_width) by (field; lra).
  assert (Hpos : 0 <= p.1 - (x0 - mx) <= dw) by (unfold dw; lra).
  split; [nra|].
  rewrite Rplus_0_l.
  transitivity (dw * (view_width / dw)); [|lra].
  apply Rmult_le_compat_r; lra.
Qed.

Lemma display_scaling_fills_width_witness :
  ∃ sc,
    calculate_display_scaling
      (set_sensor_positions [(0, 0); (2, 4)] (init None)) 100 50 10
    = Some sc
    ∧ offset_x sc = 0
    ∧ (max_x sc - min_x sc) * scale sc = 100
    ∧ ∀ p, p ∈ all_points (set_sensor_positions [(0, 0); (2, 4)]
                                                 (init None)) →
        0 <= (transform_point p (scale sc) (offset_x sc) (offset_y sc)
                              (min_x sc) (min_y sc)).1 <= 100.
Proof.
  apply (display_scaling_fills_width
           (set_sensor_positions [(0, 0); (2, 4)] (init None)) 100 50 10).
  - discriminate.
  - lra.
  - lra.
Defined.

(** X20.  With a point to show, [calculate_display_scaling] fails on the
    division [view_width / data_width] exactly when the margin is -50
    percent, which shrinks the padded data range to nothing. *)
Theorem display_scaling_zero_division (self : t)
    (view_width view_height margin_percent : R) :
  all_points self ≠ [] →
  calculate_display_scaling self view_width view_height margin_percent
  = None
  ↔ margin_percent = -50.
Proof.
  intros Hne.
  destruct (display_scaling_ranges self Hne)
    as (x0 & x1 & y0 & y1 & Hx & Hy & _ & Heq).
  rewrite Heq. cbv zeta. unfold Py.eqb.
  destruct (Req_dec_T _ _) as [Hzero|Hnonzero].
  - split; [intros _|done].
    assert ((x1 - x0) * (1 + 2 * (margin_percent / 100)) = 0) by lra.
    assert (1 + 2 * (margin_percent / 100) = 0) by nra. lra.
  - split; [done|]. intros ->. exfalso. apply Hnonzero. field.
Qed.

Lemma display_scaling_zero_division_witness :
  calculate_display_scaling
    (set_sensor_positions [(0, 0); (2, 4)] (init None)) 100 50 (-50)
  = None.
Proof.
  apply (display_scaling_zero_division
           (set_sensor_positions [(0, 0); (2, 4)] (init None)) 100 50 (-50)).
  - discriminate.
  - reflexivity.
Defined.

End DisplayScaling.

(** * Further properties of the tray optimizer *)

Section OptimizerOutcomes.

Import TrayOptimizer Layout.

Variables (sensor_weights : list R) (sensor_positions : list (R * R)).
Variables (ideal_com : R * R) (bias_settings : gmap string R).
Variables (general_settings : gmap string (gmap string num)).
Variables (tray_flags : gmap string bool).
Variables (max_weight : R) (max_weight_unit : string).
Variable threshold : option R.

Abbreviation biased := (apply_bias_to_com ideal_com bias_settings).
Abbreviation budget :=
  (convert_to_grams max_weight max_weight_unit - Py.sum sensor_weights).
Abbreviation start_disp :=
  (calculate_displacement (calculate_com sensor_weights sensor_positions)
     biased).
Abbreviation ranking :=
  (ranked sensor_weights sensor_positions biased threshold).

(** With budget left and no ranked candidate the optimizer returns the
    blank grid and the state of the inputs. *)
Lemma nothing_ranked (g : grid) :
  0 < budget →
  build_slots general_settings tray_flags = Ok g →
  ranking (g_slots g) = [] →
  compute_optimal_tray_layout sensor_weights sensor_positions ideal_com
    bias_settings general_settings tray_flags max_weight max_weight_unit
    threshold
  = Ok {| front_tray := of_front (g_layout g);
          back_tray := of_back (g_layout g);
          final_com := calculate_com sensor_weights sensor_positions;
          displacement := start_disp;
          total_weight := Py.sum sensor_weights;
          effect_map := g_effect g |}.
Proof.
  intros Hav Hg Hranked.
  erewrite compute_assemble; cycle 1.
  - exact Hav.
  - exact Hg.
  - rewrite Hranked. reflexivity.
  - reflexivity.
  - cbn [p_layout p_effect used_slots added_weight map].
    rewrite !app_nil_r. do 2 f_equal. lra.
Qed.

(** No slot with a positive percent, no ranked candidate. *)
Lemma no_improving_slot (slots : list slot) :
  (∀ s, s ∈ slots →
     percent_of sensor_weights sensor_positions biased start_disp s <= 0) →
  ranking slots = [].
Proof.
  intros Hall.
  destruct (ranking slots) as [|c cs] eqn:Hranked; [done|].
  assert (Hc : c ∈ ranking slots) by (rewrite Hranked; by left).
  apply ranked_elem in Hc as (Hin & Hpct & Hpos).
  specialize (Hall _ Hin). lra.
Qed.

(** A run with budget left, seen from its result. *)
Lemma run_with_budget (r : TrayLayoutResult) :
  0 < budget →
  compute_optimal_tray_layout sensor_weights sensor_positions ideal_com
    bias_settings general_settings tray_flags max_weight max_weight_unit
    threshold = Ok r →
  ∃ (g : grid) (n : nat),
    build_slots general_settings tray_flags = Ok g
    ∧ (n <= length (ranking (g_slots g)))%nat
    ∧ effect_weight_grams * INR n <= budget
    ∧ ((n < length (ranking (g_slots g)))%nat →
       budget < effect_weight_grams * INR n + effect_weight_grams)
    ∧ total_weight r = Py.sum sensor_weights + effect_weight_grams * INR n
    ∧ (∀ k, cell (layout r) k = Some 1%nat
            ↔ k ∈ keys (take n (ranking (g_slots g))))
    ∧ (∀ k v, cell (layout r) k = Some v → v = 0%nat ∨ v = 1%nat)
    ∧ (take n (ranking (g_slots g)) ≠ [] →
       ∃ top : candidate,
         top ∈ take n (ranking (g_slots g))
         ∧ ∀ s : candidate, s ∈ take n (ranking (g_slots g)) →
             cell (effect_map r) (key s)
             = Some (percent_improvement s / percent_improvement top)).
Proof.
  intros Hav Hrun.
  destruct (compute_cases _ _ _ _ _ _ _ _ _ _ Hrun)
    as [[Hle _] | (_ & g & _ & _ & Hg & _)]; [lra|].
  destruct (optimizer_run sensor_weights sensor_positions ideal_com
              bias_settings general_settings tray_flags max_weight
              max_weight_unit threshold g Hav Hg)
    as (n & r' & Hrun' & Hn & Hfit & Hstop & Htotal & _ & _ & Hother
        & Hused & Hbest).
  rewrite Hrun in Hrun'. injection Hrun' as <-.
  destruct (build_slots_blank _ _ _ Hg) as (_ & _ & Hzero).
  assert (Hcells : ∀ k v, cell (layout r) k = Some v →
            (v = 1%nat ∧ k ∈ keys (take n (ranking (g_slots g))))
            ∨ (v = 0%nat ∧ k ∉ keys (take n (ranking (g_slots g))))).
  { intros k v Hk.
    destruct (decide (k ∈ keys (take n (ranking (g_slots g)))))
      as [Hin|Hout].
    - left. split; [|done].
      apply list_elem_of_fmap in Hin as (s & -> & Hs).
      rewrite (Hused s Hs) in Hk. by injection Hk.
    - right. split; [|done].
      destruct (Hother k Hout) as [Hlay _]. rewrite Hlay in Hk.
      by destruct (Hzero k v Hk). }
  exists g, n. do 5 (split; [done|]). split; [|split].
  - intros k. split.
    + intros Hk. by destruct (Hcells k _ Hk) as [[_ ?]|[? _]].
    + intros Hin. apply list_elem_of_fmap in Hin as (s & -> & Hs).
      by apply Hused.
  - intros k v Hk. destruct (Hcells k v Hk) as [[-> _]|[-> _]]; auto.
  - intros Hne. destruct (Hbest Hne) as (top & Htop & Hall).
    exists top. split; [done|]. intros s Hs. by destruct (Hall s Hs).
Qed.

(** X21.  With budget left, the optimizer fills the cells of a prefix of
    the ranked candidates and no other: the prefix is as long as the
    budget allows, it ends only when the candidates run out or one more
    113 g unit would not fit, and every cell of the layout holds 0 or 1. *)
Theorem greedy_fills_ranked_prefix (r : TrayLayoutResult) :
  0 < budget →
  compute_optimal_tray_layout sensor_weights sensor_positions ideal_com
    bias_settings general_settings tray_flags max_weight max_weight_unit
    threshold = Ok r →
  ∃ (g : grid) (n : nat),
    build_slots general_settings tray_flags = Ok g
    ∧ (n <= length (ranking (g_slots g)))%nat
    ∧ effect_weight_grams * INR n <= budget
    ∧ ((n < length (ranking (g_slots g)))%nat →
       budget < effect_weight_grams * INR (S n))
    ∧ total_weight r = Py.sum sensor_weights + effect_weight_grams * INR n
    ∧ (∀ k, cell (layout r) k = Some 1%nat
            ↔ k ∈ keys (take n (ranking (g_slots g))))
    ∧ (∀ k v, cell (layout r) k = Some v → v = 0%nat ∨ v = 1%nat).
Proof.
  intros Hav Hrun.
  destruct (run_with_budget r Hav Hrun)
    as (g & n & Hg & Hn & Hfit & Hstop & Htotal & Hocc & Hbin & _).
  exists g, n. do 3 (split; [done|]). split; [|done].
  intros Hlt. rewrite S_INR. specialize (Hstop Hlt). lra.
Qed.

(** X22.  When the COM of the inputs already sits on the biased ideal
    COM, no slot can improve on it: with budget left and the grid built,
    the optimizer returns the blank grid, the initial weight and the COM
    of the inputs. *)
Theorem balanced_input_adds_nothing (g : grid) :
  0 < budget →
  build_slots general_settings tray_flags = Ok g →
  start_disp = 0 →
  compute_optimal_tray_layout sensor_weights sensor_positions ideal_com
    bias_settings general_settings tray_flags max_weight max_weight_unit
    threshold
  = Ok {| front_tray := of_front (g_layout g);
          back_tray := of_back (g_layout g);
          final_com := calculate_com sensor_weights sensor_positions;
          displacement := 0;
          total_weight := Py.sum sensor_weights;
          effect_map := g_effect g |}.
Proof.
  intros Hav Hg Hzero.
  rewrite (nothing_ranked g Hav Hg).
  - by rewrite Hzero.
  - apply no_improving_slot. intros s _. unfold percent_of.
    rewrite Hzero, eqb_true by done. lra.
Qed.

(** X23.  A threshold above 1 rejects every candidate, the best one
    included: with budget left and the grid built, the optimizer returns
    the blank grid and the state of the inputs. *)
Theorem threshold_above_one_adds_nothing (g : grid) (th : R) :
  0 < budget →
  build_slots general_settings tray_flags = Ok g →
  threshold = Some th →
  1 < th →
  compute_optimal_tray_layout sensor_weights sensor_positions ideal_com
    bias_settings general_settings tray_flags max_weight max_weight_unit
    threshold
  = Ok {| front_tray := of_front (g_layout g);
          back_tray := of_back (g_layout g);
          final_com := calculate_com sensor_weights sensor_positions;
          displacement := start_disp;
          total_weight := Py.sum sensor_weights;
          effect_map := g_effect g |}.
Proof.
  intros Hav Hg Hth Hone.
  apply (nothing_ranked g Hav Hg).
  destruct (ranking (g_slots g)) as [|h t] eqn:Hranked; [done|].
  apply ranked_head in Hranked as (_ & _ & Hadmits).
  specialize (Hadmits th Hth). lra.
Qed.

(** X24.  With no tray enabled the optimizer reads no settings and
    returns the state of the inputs with empty trays, whatever the
    budget. *)
Theorem no_tray_enabled_returns_state :
  default false (tray_flags !! "front") = false →
  default false (tray_flags !! "back") = false →
  compute_optimal_tray_layout sensor_weights sensor_positions ideal_com
    bias_settings general_settings tray_flags max_weight max_weight_unit
    threshold
  = Ok {| front_tray := [];
          back_tray := [];
          final_com := calculate_com sensor_weights sensor_positions;
          displacement := start_disp;
          total_weight := Py.sum sensor_weights;
          effect_map := {| of_front := []; of_back := [] |} |}.
Proof.
  intros Hfront Hback.
  destruct (Rle_lt_dec budget 0) as [Hnone|Hav].
  { unfold compute_optimal_tray_layout. by rewrite leb_true by done. }
  assert (Hg : build_slots general_settings tray_flags = Ok empty_grid).
  { unfold build_slots, add_tray. simpl. by rewrite Hfront, Hback. }
  rewrite (nothing_ranked empty_grid Hav Hg); [done|].
  unfold ranked, simulate. simpl. unfold apply_threshold.
  destruct threshold as [th|]; [|done]. by destruct (_ && _).
Qed.

(** X25.  With room for exactly one unit, a slot that improves the
    displacement on its own and a threshold of at most 1, the returned
    displacement is strictly smaller than that of the inputs. *)
Theorem one_unit_improves (g : grid) (r : TrayLayoutResult) (s : slot) :
  effect_weight_grams <= budget < 2 * effect_weight_grams →
  build_slots general_settings tray_flags = Ok g →
  compute_optimal_tray_layout sensor_weights sensor_positions ideal_com
    bias_settings general_settings tray_flags max_weight max_weight_unit
    threshold = Ok r →
  s ∈ g_slots g →
  0 < percent_of sensor_weights sensor_positions biased start_disp s →
  (∀ th, threshold = Some th → th <= 1) →
  displacement r < start_disp.
Proof.
  intros Hav Hg Hrun Hs Hpct Hadmits.
  assert (Hstart : 0 < start_disp).
  { pose proof (calculate_displacement_nonneg
                  (calculate_com sensor_weights sensor_positions) biased).
    destruct (Req_dec_T start_disp 0) as [Hzero|]; [|lra].
    unfold percent_of in Hpct. rewrite Hzero, eqb_true in Hpct by done.
    lra. }
  destruct (simulate_max sensor_weights sensor_positions biased start_disp
              (g_slots g)) as (_ & Hle & _).
  specialize (Hle s Hs).
  assert (Hbest : 0 < best_improvement sensor_weights sensor_positions
                        biased (g_slots g)).
  { unfold best_improvement. lra. }
  assert (Hroom : 0 < budget < 2 * effect_weight_grams).
  { unfold effect_weight_grams in *. lra. }
  destruct (one_unit_run sensor_weights sensor_positions ideal_com
              bias_settings general_settings tray_flags max_weight
              max_weight_unit threshold g r Hroom Hg Hrun) as [_ Hred].
  rewrite Hred by tauto. nra.
Qed.

(** X26.  With a positive threshold, every occupied cell of the returned
    effect map holds at least the threshold: the candidates below the
    threshold times the best improvement are never placed. *)
Theorem threshold_bounds_effect_map (r : TrayLayoutResult) (th : R)
    (k : tray_name * nat * nat) :
  compute_optimal_tray_layout sensor_weights sensor_positions ideal_com
    bias_settings general_settings tray_flags max_weight max_weight_unit
    threshold = Ok r →
  threshold = Some th →
  0 < th →
  cell (layout r) k = Some 1%nat →
  ∃ v, cell (effect_map r) k = Some v ∧ th <= v.
Proof.
  intros Hrun Hth Hpos Hk.
  destruct (compute_cases _ _ _ _ _ _ _ _ _ _ Hrun)
    as [[_ ->] | (Hav & _)].
  { destruct k as [[[] i] j]; unfold cell in Hk; simpl in Hk;
      discriminate. }
  destruct (run_with_budget r Hav Hrun)
    as (g & n & Hg & _ & _ & _ & _ & Hocc & _ & Hbest).
  apply Hocc in Hk.
  assert (Hne : take n (ranking (g_slots g)) ≠ []).
  { intros Hnil. rewrite Hnil in Hk. by apply elem_of_nil in Hk. }
  destruct (Hbest Hne) as (top & Htop & Hall).
  apply list_elem_of_fmap in Hk as (s & -> & Hs).
  exists (percent_improvement s / percent_improvement top).
  split; [by apply Hall|].
  set (M := (simulate sensor_weights sensor_positions biased start_disp
               (g_slots g)).2).
  assert (Hbound : ∀ c : candidate, c ∈ ranking (g_slots g) →
            0 < percent_improvement c <= M).
  { intros c Hc. apply ranked_elem in Hc as (Hin & Heq & Hc).
    destruct (simulate_max sensor_weights sensor_positions biased
                start_disp (g_slots g)) as (_ & Hle & _).
    specialize (Hle _ Hin). fold M in Hle. lra. }
  assert (Htop' : top ∈ ranking (g_slots g)).
  { eapply subseteq_take, Htop. }
  assert (Hs' : s ∈ ranking (g_slots g)).
  { eapply subseteq_take, Hs. }
  pose proof (Hbound _ Htop') as HtopM.
  assert (Hkept : M * th <= percent_improvement s).
  { unfold ranked in Hs'. fold M in Hs'. rewrite Hth in Hs'.
    unfold apply_threshold in Hs'.
    rewrite !ltb_true in Hs' by lra. simpl in Hs'.
    apply list_elem_of_In, filter_In in Hs' as [_ Hkeep].
    unfold Py.leb in Hkeep. by destruct (Rle_dec _ _). }
  apply Rmult_le_reg_r with (percent_improvement top); [lra|].
  replace (percent_improvement s / percent_improvement top
           * percent_improvement top)
    with (percent_improvement s) by (field; lra).
  nra.
Qed.

End OptimizerOutcomes.

Section OptimizerInputs.

Import TrayOptimizer Layout.

Variables (sensor_weights : list R) (sensor_positions : list (R * R)).
Variables (ideal_com : R * R).
Variables (tray_flags : gmap string bool).
Variables (max_weight : R) (max_weight_unit : string).

(** X27.  The bias only enters through the ideal COM: running with a bias
    is running with the biased ideal COM and an empty bias dict, whose
    missing keys count as zero. *)
Theorem bias_folds_into_ideal (bias_settings : gmap string R)
    (general_settings : gmap string (gmap string num))
    (threshold : option R) :
  compute_optimal_tray_layout sensor_weights sensor_positions ideal_com
    bias_settings general_settings tray_flags max_weight max_weight_unit
    threshold
  = compute_optimal_tray_layout sensor_weights sensor_positions
      (apply_bias_to_com ideal_com bias_settings) ∅ general_settings
      tray_flags max_weight max_weight_unit threshold.
Proof.
  assert (Hbias : apply_bias_to_com
                    (apply_bias_to_com ideal_com bias_settings) ∅
                  = apply_bias_to_com ideal_com bias_settings).
  { unfold apply_bias_to_com. rewrite !lookup_empty. simpl. f_equal; lra. }
  unfold compute_optimal_tray_layout. by rewrite Hbias.
Qed.

Lemma add_tray_other_settings
    (general_settings general_settings' : gmap string (gmap string num))
    (name name' : tray_name) (g : grid) :
  default false (tray_flags !! flag_key name) = false →
  (∀ other, other ≠ name →
     general_settings !! settings_key other
     = general_settings' !! settings_key other) →
  add_tray general_settings tray_flags name' g
  = add_tray general_settings' tray_flags name' g.
Proof.
  intros Hoff Hsame. unfold add_tray.
  destruct (decide (name' = name)) as [->|Hother].
  - by rewrite Hoff.
  - destruct (negb _); [done|].
    unfold getitem. by rewrite (Hsame name' Hother).
Qed.

(** X28.  The settings of a disabled tray are never read: two settings
    dicts that agree on the other tray give the same outcome, result or
    exception. *)
Theorem disabled_tray_settings_unread (bias_settings : gmap string R)
    (general_settings general_settings' : gmap string (gmap string num))
    (threshold : option R) (name : tray_name) :
  default false (tray_flags !! flag_key name) = false →
  (∀ other, other ≠ name →
     general_settings !! settings_key other
     = general_settings' !! settings_key other) →
  compute_optimal_tray_layout sensor_weights sensor_positions ideal_com
    bias_settings general_settings tray_flags max_weight max_weight_unit
    threshold
  = compute_optimal_tray_layout sensor_weights sensor_positions ideal_com
      bias_settings general_settings' tray_flags max_weight
      max_weight_unit threshold.
Proof.
  intros Hoff Hsame.
  assert (Hgrid : build_slots general_settings tray_flags
                  = build_slots general_settings' tray_flags).
  { unfold build_slots.
    rewrite (add_tray_other_settings _ _ name front _ Hoff Hsame).
    destruct (add_tray general_settings' tray_flags front empty_grid);
      [|done].
    apply (add_tray_other_settings _ _ name back _ Hoff Hsame). }
  unfold compute_optimal_tray_layout. by rewrite Hgrid.
Qed.

(** X29.  A threshold that is not positive is ignored: the outcome is
    that of a run without threshold. *)
Theorem nonpositive_threshold_ignored (bias_settings : gmap string R)
    (general_settings : gmap string (gmap string num)) (th : R) :
  th <= 0 →
  compute_optimal_tray_layout sensor_weights sensor_positions ideal_com
    bias_settings general_settings tray_flags max_weight max_weight_unit
    (Some th)
  = compute_optimal_tray_layout sensor_weights sensor_positions ideal_com
      bias_settings general_settings tray_flags max_weight
      max_weight_unit None.
Proof.
  intros Hth. unfold compute_optimal_tray_layout, apply_threshold.
  by rewrite (ltb_false 0 th) by done.
Qed.

End OptimizerInputs.

(** ** The further properties on the worked configuration *)

Section WorkedOutcomes.

Import TrayOptimizer Layout.

Ltac sum_by_hand := unfold Py.sum, effect_weight_grams; simpl; lra.

(** With a threshold of three quarters the back slot, at half the best
    improvement, is dropped from the ranking. *)
Lemma scenario_ranked_threshold :
  ranked Scenario.sensor_weights Scenario.sensor_positions (0, 1)
    (Some (3 / 4)) [Scenario.slot_at front 2; Scenario.slot_at back 3]
  = [Scenario.front_slot].
Proof.
  pose proof scenario_ranked_both as Hboth. unfold ranked in *.
  rewrite scenario_original_disp in *.
  destruct (simulate_max Scenario.sensor_weights Scenario.sensor_positions
              (0, 1) 1 [Scenario.slot_at front 2; Scenario.slot_at back 3])
    as (_ & Hle & Hattained).
  set (M := (simulate Scenario.sensor_weights Scenario.sensor_positions
               (0, 1) 1
               [Scenario.slot_at front 2; Scenario.slot_at back 3]).2)
    in *.
  assert (HM : M = 1).
  { pose proof (Hle (Scenario.slot_at front 2) ltac:(by left)) as Hfront.
    rewrite scenario_percent_front in Hfront.
    destruct Hattained as (s & Hs & Heq); [lra|].
    apply elem_of_cons in Hs as [->|Hs].
    - by rewrite scenario_percent_front in Heq.
    - apply list_elem_of_singleton in Hs as ->.
      rewrite scenario_percent_back in Heq. lra. }
  unfold apply_threshold in Hboth. unfold apply_threshold.
  rewrite Hboth, HM.
  rewrite !ltb_true by lra. simpl.
  rewrite leb_true by lra. by rewrite leb_false by lra.
Qed.

Lemma scenario_place_threshold (available : R) :
  113 <= available →
  place available [Scenario.front_slot]
    {| p_layout := {| of_front := [[0%nat]]; of_back := [[0%nat]] |};
       p_effect := {| of_front := [[0]]; of_back := [[0]] |};
       added_weight := 0; used_slots := [] |}
  = Ok {| p_layout := {| of_front := [[1%nat]]; of_back := [[0%nat]] |};
          p_effect := {| of_front := [[1]]; of_back := [[0]] |};
          added_weight := 0 + 113;
          used_slots := [Scenario.front_slot] |}.
Proof.
  intros Hav. unfold place. cbn [added_weight].
  unfold effect_weight_grams. by rewrite ltb_false by lra.
Qed.

(** With both trays enabled, 339 g allowed and a threshold of three
    quarters, only the front slot is filled. *)
Lemma scenario_threshold_run :
  compute_optimal_tray_layout Scenario.sensor_weights
    Scenario.sensor_positions Scenario.ideal_com ∅
    Scenario.general_settings Scenario.both_trays 339 "g" (Some (3 / 4))
  = Ok {| front_tray := [[1%nat]]; back_tray := [[0%nat]];
          final_com := (0, 1); displacement := 0;
          total_weight := 226;
          effect_map := {| of_front := [[1]]; of_back := [[0]] |} |}.
Proof.
  erewrite compute_assemble; cycle 1.
  - rewrite scenario_available. lra.
  - apply scenario_grid_both.
  - cbn [g_slots g_layout g_effect].
    rewrite scenario_available, scenario_ideal, scenario_ranked_threshold.
    apply scenario_place_threshold. lra.
  - cbn [p_effect used_slots]. apply scenario_normalize_both_one.
  - cbn [p_layout of_front of_back used_slots added_weight map app].
    rewrite scenario_ideal.
    rewrite (calculate_com_eval _ _ 226 0 1) by sum_by_hand.
    rewrite (calculate_displacement_eval _ _ 0) by (simpl; lra).
    f_equal. f_equal. sum_by_hand.
Qed.

Lemma greedy_fills_ranked_prefix_witness :
  ∃ (g : grid) (n : nat),
    build_slots Scenario.general_settings Scenario.both_trays = Ok g
    ∧ (n <= length (ranked Scenario.sensor_weights
                      Scenario.sensor_positions
                      (apply_bias_to_com Scenario.ideal_com ∅) None
                      (g_slots g)))%nat
    ∧ effect_weight_grams * INR n
      <= convert_to_grams 226 "g" - Py.sum Scenario.sensor_weights
    ∧ ((n < length (ranked Scenario.sensor_weights
                      Scenario.sensor_positions
                      (apply_bias_to_com Scenario.ideal_com ∅) None
                      (g_slots g)))%nat →
       convert_to_grams 226 "g" - Py.sum Scenario.sensor_weights
       < effect_weight_grams * INR (S n))
    ∧ 226 = Py.sum Scenario.sensor_weights + effect_weight_grams * INR n
    ∧ (∀ k, cell {| of_front := [[1%nat]]; of_back := [[0%nat]] |} k
            = Some 1%nat
            ↔ k ∈ keys (take n (ranked Scenario.sensor_weights
                                  Scenario.sensor_positions
                                  (apply_bias_to_com Scenario.ideal_com ∅)
                                  None (g_slots g))))
    ∧ (∀ k v, cell {| of_front := [[1%nat]]; of_back := [[0%nat]] |} k
              = Some v → v = 0%nat ∨ v = 1%nat).
Proof.
  apply (greedy_fills_ranked_prefix Scenario.sensor_weights
           Scenario.sensor_positions Scenario.ideal_com ∅
           Scenario.general_settings Scenario.both_trays 226 "g" None
           {| front_tray := [[1%nat]]; back_tray := [[0%nat]];
              final_com := (0, 1); displacement := 0;
              total_weight := 226;
              effect_map := {| of_front := [[1]]; of_back := [[0]] |} |}).
  - rewrite scenario_available. lra.
  - exact scenario_both_trays_one.
Defined.

Lemma balanced_input_adds_nothing_witness :
  compute_optimal_tray_layout Scenario.sensor_weights
    Scenario.sensor_positions (0, 0) ∅ Scenario.general_settings
    Scenario.front_only 339 "g" None
  = Ok {| front_tray := [[0%nat]];
          back_tray := [];
          final_com :=
            calculate_com Scenario.sensor_weights Scenario.sensor_positions;
          displacement := 0;
          total_weight := Py.sum Scenario.sensor_weights;
          effect_map := {| of_front := [[0]]; of_back := [] |} |}.
Proof.
  apply (balanced_input_adds_nothing Scenario.sensor_weights
           Scenario.sensor_positions (0, 0) ∅ Scenario.general_settings
           Scenario.front_only 339 "g" None
           {| g_layout := {| of_front := [[0%nat]]; of_back := [] |};
              g_effect := {| of_front := [[0]]; of_back := [] |};
              g_slots := [Scenario.slot_at front 2] |}).
  - rewrite scenario_available. lra.
  - exact scenario_grid_front.
  - rewrite (calculate_com_eval _ _ 113 0 0) by sum_by_hand.
    apply calculate_displacement_eval; [lra|].
    unfold apply_bias_to_com. rewrite !lookup_empty. simpl. lra.
Defined.

Lemma threshold_above_one_adds_nothing_witness :
  compute_optimal_tray_layout Scenario.sensor_weights
    Scenario.sensor_positions Scenario.ideal_com ∅
    Scenario.general_settings Scenario.front_only 339 "g" (Some 2)
  = Ok {| front_tray := [[0%nat]];
          back_tray := [];
          final_com :=
            calculate_com Scenario.sensor_weights Scenario.sensor_positions;
          displacement :=
            calculate_displacement
              (calculate_com Scenario.sensor_weights
                 Scenario.sensor_positions)
              (apply_bias_to_com Scenario.ideal_com ∅);
          total_weight := Py.sum Scenario.sensor_weights;
          effect_map := {| of_front := [[0]]; of_back := [] |} |}.
Proof.
  apply (threshold_above_one_adds_nothing Scenario.sensor_weights
           Scenario.sensor_positions Scenario.ideal_com ∅
           Scenario.general_settings Scenario.front_only 339 "g" (Some 2)
           {| g_layout := {| of_front := [[0%nat]]; of_back := [] |};
              g_effect := {| of_front := [[0]]; of_back := [] |};
              g_slots := [Scenario.slot_at front 2] |} 2).
  - rewrite scenario_available. lra.
  - exact scenario_grid_front.
  - reflexivity.
  - lra.
Defined.

Lemma no_tray_enabled_returns_state_witness :
  compute_optimal_tray_layout Scenario.sensor_weights
    Scenario.sensor_positions Scenario.ideal_com ∅ ∅ ∅ 339 "g" None
  = Ok {| front_tray := [];
          back_tray := [];
          final_com :=
            calculate_com Scenario.sensor_weights Scenario.sensor_positions;
          displacement :=
            calculate_displacement
              (calculate_com Scenario.sensor_weights
                 Scenario.sensor_positions)
              (apply_bias_to_com Scenario.ideal_com ∅);
          total_weight := Py.sum Scenario.sensor_weights;
          effect_map := {| of_front := []; of_back := [] |} |}.
Proof.
  apply (no_tray_enabled_returns_state Scenario.sensor_weights
           Scenario.sensor_positions Scenario.ideal_com ∅ ∅ ∅ 339 "g" None);
    reflexivity.
Defined.

Lemma one_unit_improves_witness :
  0 < calculate_displacement
        (calculate_com Scenario.sensor_weights Scenario.sensor_positions)
        (apply_bias_to_com Scenario.ideal_com ∅).
Proof.
  apply (one_unit_improves Scenario.sensor_weights
           Scenario.sensor_positions Scenario.ideal_com ∅
           Scenario.general_settings Scenario.front_only 226 "g" None
           {| g_layout := {| of_front := [[0%nat]]; of_back := [] |};
              g_effect := {| of_front := [[0]]; of_back := [] |};
              g_slots := [Scenario.slot_at front 2] |}
           {| front_tray := [[1%nat]]; back_tray := [];
              final_com := (0, 1); displacement := 0;
              total_weight := 226;
              effect_map := {| of_front := [[1]]; of_back := [] |} |}
           (Scenario.slot_at front 2)).
  - rewrite scenario_available. unfold effect_weight_grams. lra.
  - exact scenario_grid_front.
  - exact scenario_front_only_one.
  - by left.
  - rewrite scenario_ideal, scenario_original_disp, scenario_percent_front.
    lra.
  - intros th [=].
Defined.

Lemma threshold_bounds_effect_map_witness :
  ∃ v, cell {| of_front := [[1]]; of_back := [[0]] |} (front, 0%nat, 0%nat)
       = Some v
       ∧ 3 / 4 <= v.
Proof.
  apply (threshold_bounds_effect_map Scenario.sensor_weights
           Scenario.sensor_positions Scenario.ideal_com ∅
           Scenario.general_settings Scenario.both_trays 339 "g"
           (Some (3 / 4))
           {| front_tray := [[1%nat]]; back_tray := [[0%nat]];
              final_com := (0, 1); displacement := 0;
              total_weight := 226;
              effect_map := {| of_front := [[1]]; of_back := [[0]] |} |}
           (3 / 4) (front, 0%nat, 0%nat)).
  - exact scenario_threshold_run.
  - reflexivity.
  - lra.
  - reflexivity.
Defined.

Lemma disabled_tray_settings_unread_witness :
  compute_optimal_tray_layout Scenario.sensor_weights
    Scenario.sensor_positions Scenario.ideal_com ∅
    Scenario.general_settings Scenario.front_only 339 "g" None
  = compute_optimal_tray_layout Scenario.sensor_weights
      Scenario.sensor_positions Scenario.ideal_com ∅
      {[ "weight_tray1" := Scenario.one_cell 2 ]} Scenario.front_only
      339 "g" None.
Proof.
  apply (disabled_tray_settings_unread Scenario.sensor_weights
           Scenario.sensor_positions Scenario.ideal_com
           Scenario.front_only 339 "g" ∅ Scenario.general_settings
           {[ "weight_tray1" := Scenario.one_cell 2 ]} None back).
  - reflexivity.
  - intros [] Hother; [reflexivity | done].
Defined.

Lemma nonpositive_threshold_ignored_witness :
  compute_optimal_tray_layout Scenario.sensor_weights
    Scenario.sensor_positions Scenario.ideal_com ∅
    Scenario.general_settings Scenario.both_trays 339 "g" (Some (-1))
  = compute_optimal_tray_layout Scenario.sensor_weights
      Scenario.sensor_positions Scenario.ideal_com ∅
      Scenario.general_settings Scenario.both_trays 339 "g" None.
Proof.
  apply (nonpositive_threshold_ignored Scenario.sensor_weights
           Scenario.sensor_positions Scenario.ideal_com
           Scenario.both_trays 339 "g" ∅ Scenario.general_settings (-1)).
  lra.
Defined.

End WorkedOutcomes.

(** ** The geometry of a tray *)

Section TrayGeometry.

Import TrayOptimizer Layout.

Lemma range_index (n : num) (l : list nat) (i : nat) :
  range n = Ok l → i ∈ l →
  l = seq 0 (length l) ∧ (i < length l)%nat ∧ to_R n = INR (length l).
Proof.
  intros Hrange Hi. pose proof (range_seq _ _ Hrange) as Hseq.
  split; [done|].
  assert (Hlt : (i < length l)%nat).
  { rewrite Hseq in Hi. apply list_elem_of_In, in_seq in Hi. lia. }
  split; [done|].
  destruct n as [z|]; [|discriminate]. injection Hrange as <-.
  rewrite length_seq in *. simpl.
  rewrite INR_IZR_INZ, Z2Nat.id; [done|]. lia.
Qed.

Lemma mirror_index (n i : nat) :
  (i < n)%nat → INR (n - 1 - i) = INR n - 1 - INR i.
Proof.
  intros Hi. rewrite !minus_INR by lia. simpl. lra.
Qed.

(** X30.  The slots of a tray are laid out symmetrically: with every slot
    the grid holds its mirror image through the point [(0, y_position)],
    so a tray is centred on the sled's axis at its [y_position]. *)
Theorem tray_grid_centred (name : tray_name) (settings : gmap string num)
    (layout : list (list nat)) (effect : list (list R))
    (slots : list slot) (y_center : num) (s : slot) :
  tray_grid name settings = Ok (layout, effect, slots) →
  settings !! "y_position" = Some y_center →
  s ∈ slots →
  ∃ s', s' ∈ slots
        ∧ x s' = - x s
        ∧ y s' = 2 * to_R y_center - y s.
Proof.
  unfold tray_grid. intros H Hy Hs.
  apply bind_Ok in H as (rows & Hrows & H).
  apply bind_Ok in H as (cols & Hcols & H).
  apply bind_Ok in H as (yc & Hyc & H).
  apply bind_Ok in H as (cell_w & Hcw & H).
  apply bind_Ok in H as (cell_h & Hch & H).
  apply bind_Ok in H as (wall & Hwall & H).
  apply bind_Ok in H as (rr & Hrr & H).
  apply bind_Ok in H as (cr & Hcr & H).
  injection H as <- <- <-.
  unfold getitem in Hyc. rewrite Hy in Hyc. injection Hyc as <-.
  apply list_elem_of_In, in_flat_map in Hs as (i & Hi & Hs).
  apply in_map_iff in Hs as (j & <- & Hj).
  apply list_elem_of_In in Hi, Hj.
  assert (Hne : rr ≠ []).
  { intros ->. by apply elem_of_nil in Hi. }
  rewrite decide_False in Hcr by done.
  destruct (range_index _ _ _ Hrr Hi) as (Hrseq & Hilt & Hrows_R).
  destruct (range_index _ _ _ Hcr Hj) as (Hcseq & Hjlt & Hcols_R).
  assert (Hmi : In (length rr - 1 - i)%nat rr).
  { set (n := length rr) in *. rewrite Hrseq. apply in_seq. lia. }
  assert (Hmj : In (length cr - 1 - j)%nat cr).
  { set (m := length cr) in *. rewrite Hcseq. apply in_seq. lia. }
  eexists {| tray := name; row := length rr - 1 - i;
             col := length cr - 1 - j; x := _; y := _ |}.
  split; [|split].
  - apply list_elem_of_In, in_flat_map.
    exists (length rr - 1 - i)%nat. split; [done|].
    apply in_map_iff. by exists (length cr - 1 - j)%nat.
  - cbn [x]. rewrite mirror_index, Hcols_R by done. lra.
  - cbn [y]. rewrite mirror_index, Hrows_R by done. lra.
Qed.

Lemma tray_grid_centred_witness :
  ∃ s', s' ∈ [Scenario.slot_at front 2]
        ∧ x s' = - x (Scenario.slot_at front 2)
        ∧ y s' = 2 * to_R (Float 2) - y (Scenario.slot_at front 2).
Proof.
  apply (tray_grid_centred front (Scenario.one_cell 2) [[0%nat]] [[0]]
           [Scenario.slot_at front 2] (Float 2) (Scenario.slot_at front 2)).
  - apply tray_grid_one_cell.
  - reflexivity.
  - by left.
Defined.

End TrayGeometry.
